(** * fc-char: a shallow embedding of [fc-char.c]

    [fc-char] finds the installed fonts that hold a glyph for a character
    given on the command line, optionally shows the glyph in a grid of
    fonts in an X11 window, and optionally prints the font families, the
    Unicode name and the annotation of the character.

    The program is embedded function by function.  C [int]s are integers
    of [Z] with the range of a 32-bit [int] written out, [uint32_t] and
    [size_t] values are reduced modulo [2^32] and [2^64] (an LP64,
    little-endian target), [double]s are IEEE-754 binary64 numbers
    ([spec_float] with precision 53 and maximal exponent 1024), C strings
    are [string]s.  The two global structs [args] and [global] are the
    state of a small state monad whose third component records what the
    program wrote and which library calls it made.  What the libraries
    answer (getopt, iconv, fontconfig, Xft, Xlib, the clock) is read from
    a record of oracles, [World]. *)

From Stdlib Require Import ZArith List String Ascii Bool Lia SpecFloat.
Import ListNotations.
Local Open Scope Z_scope.

(** ** C scalar types *)

Definition INT_MAX : Z := 2147483647.
Definition INT_MIN : Z := -2147483648.
Definition LONG_MAX : Z := 9223372036854775807.
Definition LONG_MIN : Z := -9223372036854775808.

(** The value of an [int] expression: a result outside the range of
    [int] is a signed overflow, which C leaves undefined. *)
Definition int_range (z : Z) : bool := (INT_MIN <=? z) && (z <=? INT_MAX).

(** Conversions to [uint32_t], [unsigned int] and [size_t] reduce modulo
    the width; the conversion of a [long] to [int] keeps the low 32 bits
    (the behaviour gcc and clang define). *)
Definition to_uint32 (z : Z) : Z := z mod 2 ^ 32.
Definition to_size_t (z : Z) : Z := z mod 2 ^ 64.
Definition to_int (z : Z) : Z :=
  let u := z mod 2 ^ 32 in if u <? 2 ^ 31 then u else u - 2 ^ 32.

(** ** Characters and strings *)

Definition NUL : ascii := ascii_of_nat 0.
Definition nl : string := String (ascii_of_nat 10) EmptyString.

Definition code (c : ascii) : Z := Z.of_nat (nat_of_ascii c).

(** [isspace] in the C locale. *)
Definition isspace (c : ascii) : bool :=
  let n := code c in ((9 <=? n) && (n <=? 13)) || (n =? 32).

(** The value of a digit of [strtol] in the given base, if it is one. *)
Definition digit_value (base : Z) (c : ascii) : option Z :=
  let n := code c in
  let v := if (48 <=? n) && (n <=? 57) then n - 48
           else if (97 <=? n) && (n <=? 122) then n - 97 + 10
           else if (65 <=? n) && (n <=? 90) then n - 65 + 10
           else base in
  if v <? base then Some v else None.

Fixpoint skip_spaces (s : string) : string :=
  match s with
  | String c r => if isspace c then skip_spaces r else s
  | EmptyString => s
  end.

(** The digits of the subject sequence, accumulated without a bound. *)
Fixpoint accumulate (base : Z) (s : string) (acc : Z) : Z :=
  match s with
  | String c r =>
      match digit_value base c with
      | Some v => accumulate base r (acc * base + v)
      | None => acc
      end
  | EmptyString => acc
  end.

(** With base 16 an optional [0x] or [0X] goes before the digits.  When no
    hexadecimal digit follows it, the subject is the [0] alone: the value
    is 0 either way. *)
Definition skip_hex_prefix (base : Z) (s : string) : string :=
  match s with
  | String "0" (String x r) =>
      if (base =? 16) && ((x =? "x")%char || (x =? "X")%char) then r else s
  | _ => s
  end.

(** [strtol (s, NULL, base)]: white space, an optional sign, the digits;
    a value that does not fit a [long] is clamped to [LONG_MAX] or
    [LONG_MIN]. *)
Definition strtol (s : string) (base : Z) : Z :=
  let s := skip_spaces s in
  let '(neg, s) := match s with
                   | String "-" r => (true, r)
                   | String "+" r => (false, r)
                   | _ => (false, s)
                   end in
  let n := accumulate base (skip_hex_prefix base s) 0 in
  if neg then (if - LONG_MIN <? n then LONG_MIN else - n)
  else (if LONG_MAX <? n then LONG_MAX else n).

(** glibc's [atoi] is [(int) strtol (nptr, NULL, 10)]. *)
Definition atoi (s : string) : Z := to_int (strtol s 10).

(** [strstr (s, p) == s]: [p] is a prefix of [s]. *)
Definition starts_with (p s : string) : bool := String.prefix p s.

(** *** Buffers

    A [char] array is the list of its bytes.  Reading it as a C string
    stops at the first NUL; without one the read runs past the array. *)
Definition buffer := list ascii.

Fixpoint cstring (b : buffer) : option string :=
  match b with
  | [] => None
  | c :: r =>
      if (c =? NUL)%char then Some EmptyString
      else option_map (String c) (cstring r)
  end.

Definition overwrite (data b : buffer) : buffer :=
  (data ++ skipn (List.length data) b)%list.

(** [strncpy (dst, src, n)] for a [dst] of [n] bytes: the first [n]
    characters of [src], padded with NULs; no NUL when [src] has [n]
    characters or more. *)
Definition strncpy (src : string) (n : nat) : buffer :=
  let l := firstn n (list_ascii_of_string src) in
  (l ++ repeat NUL (n - List.length l))%list.

(** [snprintf (dst, size, ...)] where the formatted text is [s]: at most
    [size - 1] characters and a NUL, the rest of [dst] untouched. *)
Definition snprintf (dst : buffer) (size : nat) (s : string) : buffer :=
  overwrite (firstn (size - 1) (list_ascii_of_string s) ++ [NUL])%list dst.

(** The text [snprintf] leaves in a fresh [malloc]ed block of [size]
    bytes, read back as a string. *)
Definition snprintf_text (size : nat) (s : string) : string :=
  string_of_list_ascii (firstn (size - 1) (list_ascii_of_string s)).

(** *** The [%x] conversions *)

Definition hex_digit (d : Z) : ascii :=
  ascii_of_nat (Z.to_nat (if d <? 10 then 48 + d else 87 + d)).

(** Most significant digit first; [fuel] bounds the number of digits. *)
Fixpoint hex_digits (fuel : nat) (n : Z) (acc : string) : string :=
  match fuel with
  | O => acc
  | S f =>
      let acc' := String (hex_digit (n mod 16)) acc in
      if n / 16 =? 0 then acc' else hex_digits f (n / 16) acc'
  end.

(** [%x] of an [unsigned int]: at most 8 digits. *)
Definition fmt_x (n : Z) : string := hex_digits 8 n EmptyString.

Fixpoint zeros (k : nat) : string :=
  match k with
  | O => EmptyString
  | S k' => String "0" (zeros k')
  end.

(** [%0wx]: padded with zeros on the left up to the width [w]. *)
Definition fmt_0x (w : nat) (n : Z) : string :=
  let d := fmt_x n in (zeros (w - String.length d) ++ d)%string.


(** ** [double] arithmetic

    IEEE-754 binary64 with round to nearest even, as the compiler
    evaluates the [double] expressions of the program. *)

Definition prec : Z := 53.
Definition emax : Z := 1024.
Definition double := spec_float.

(** [(double) n] for an integer [n]. *)
Definition double_of_Z (n : Z) : double := binary_normalize prec emax n 0 false.

Definition dadd : double -> double -> double := SFadd prec emax.
Definition dsub : double -> double -> double := SFsub prec emax.
Definition dmul : double -> double -> double := SFmul prec emax.
Definition ddiv : double -> double -> double := SFdiv prec emax.
Definition sqrt : double -> double := SFsqrt prec emax.
(** [x < y] and [x > y]; both are false when an operand is a NaN. *)
Definition dlt (x y : double) : bool := SFltb x y.
Definition dgt (x y : double) : bool := SFltb y x.

(** [round]: to the nearest integral value, halves away from zero. *)
Definition round (x : double) : double :=
  match x with
  | S754_finite s m e =>
      if 0 <=? e then x
      else binary_normalize prec emax
             (cond_Zopp s ((Zpos m + 2 ^ (- e - 1)) / 2 ^ (- e))) 0 s
  | _ => x
  end.

(** [floor]: the largest integral value not above the argument. *)
Definition floor (x : double) : double :=
  match x with
  | S754_finite s m e =>
      if 0 <=? e then x
      else binary_normalize prec emax
             (if s then - ((Zpos m + 2 ^ (- e) - 1) / 2 ^ (- e))
              else Zpos m / 2 ^ (- e)) 0 s
  | _ => x
  end.

(** [(int) x]: the fractional part is discarded; the conversion of a NaN,
    of an infinity or of a value outside the range of [int] is undefined. *)
Definition int_of_double (x : double) : option Z :=
  match x with
  | S754_zero _ => Some 0
  | S754_finite s m e =>
      let z := cond_Zopp s (if 0 <=? e then Zpos m * 2 ^ e
                            else Zpos m / 2 ^ (- e)) in
      if int_range z then Some z else None
  | _ => None
  end.

(** The literal [0.2], the nearest binary64 number to one fifth. *)
Definition FTSPACE : double := S754_finite false 7205759403792794 (-55).
Definition INITFTSZ : double := double_of_Z 12.
Definition TITLEFONTSZ : double := double_of_Z 14.
Definition TIMEOUT : Z := 100.
Definition VPADDING : Z := 5.
Definition HPADDING : Z := 5.
Definition FTNAMEFT : string := "charter".
Definition TITLEFONT : string := "charter".

(** ** What the libraries hand back *)

(** [struct unicode_nameannot] of libuninameslist; [None] is a NULL field. *)
Record unicode_nameannot := {
  name : option string;
  annot : option string
}.

(** A font pattern of the font set, as far as the program looks at it:
    what [FcPatternFormat (p, "%{family[0]}")] returns, [None] for NULL. *)
Record FcPattern := {
  FcPatternFormat : option string
}.

(** [XGlyphInfo], the extents of a rendered text. *)
Record XGlyphInfo := {
  width : Z;
  gi_height : Z;
  gi_x : Z;
  gi_y : Z;
  xOff : Z;
  yOff : Z
}.

(** An open [XftFont]: the metrics the program reads, the extents that
    [XftTextExtents8] and [XftTextExtentsUtf8] compute with it for a
    string, and those of [XftTextExtents32] for one character. *)
Record XftFont := {
  height : Z;
  ascent : Z;
  descent : Z;
  text_extents : string -> XGlyphInfo;
  glyph_extents : Z -> XGlyphInfo
}.

(** How a font is asked for: by [FC_SIZE] or by [FC_PIXEL_SIZE]. *)
Inductive size_kind := FC_SIZE | FC_PIXEL_SIZE.

(** One return of [getopt_long]: the value returned, and [optarg] and
    [optind] as the call leaves them. *)
Record getopt_ret := {
  opt_c : Z;
  optarg : string;
  optind : Z
}.

(** One call of [iconv]: the value the manual gives for the call (the
    number of irreversible conversions, or -1 with [errno] set), the ten
    bytes of [outbuf] after it, and [strerror (errno)]. *)
Record iconv_ret := {
  iconv_value : Z;
  iconv_outbuf : list Z;
  iconv_strerror : string
}.

Inductive XEvent :=
| Expose
| ButtonPress (x y : Z)
| ButtonRelease (x y : Z)
| OtherEvent (type : Z).

(** What [XGetGeometry] stores for the window. *)
Record geometry := {
  geo_x : Z;
  geo_y : Z;
  geo_width : Z;
  geo_height : Z
}.

(** One turn of the event loop: what [XNextEventTimed] delivers ([None]
    when it returns 0), and what [gettimeofday] and [XGetGeometry] would
    answer during the turn. *)
Record tick := {
  next_event : option XEvent;
  tv_sec : Z;
  tv_usec : Z;
  window : geometry
}.

Record World := {
  VERSION : string;
  (** the successive returns of [getopt_long]; after the last of them it
      returns -1 and leaves [optind] at [optind_end] *)
  getopt_long : list getopt_ret;
  optind_end : Z;
  (** [None] when [iconv_open] succeeds, else [strerror (errno)] *)
  iconv_open : option string;
  iconv : string -> iconv_ret;
  UnicodeNameAnnot : Z -> Z -> Z -> unicode_nameannot;
  (** the font set for a pattern with the given character in its charset,
      with [FC_SCALABLE] required or not *)
  FcFontList : bool -> Z -> list FcPattern;
  XOpenDisplay : bool;
  XAllocColor_white : bool;
  XAllocColor_black : bool;
  XSetWMProtocols : Z;
  XftFontOpen : string -> size_kind -> double -> option XftFont;
  ticks : list tick
}.

(** ** The state of the program *)

(** The command line flags, [args] of the source. *)
Record args_t := {
  display : Z;
  maxfonts : Z;
  debug : Z;
  showname : Z;
  showannot : Z;
  printfonts : Z;
  fixed : Z
}.

(** [global] of the source without the X11 handles, which the program
    only passes back to Xlib ([backbuf] stays [None] and [draw] is the
    window, since the double buffering is commented out). *)
Record global_t := {
  fs : list FcPattern;
  lastpaint : double;
  dirty : Z;
  quitdims : Z * Z * Z * Z;
  info : unicode_nameannot;
  character : Z;
  hexchar : buffer
}.

(** An argument of a [printf] conversion that is kept as a value. *)
Inductive fmt_arg :=
| AInt (z : Z)
| ADouble (d : double)
| AStr (s : string).

(** What the program does to the world, in the order it does it. *)
Inductive event :=
| Stdout (s : string)
| Stderr (s : string)
| StderrF (fmt : string) (a : list fmt_arg)
| EFcFontList (scalable : bool) (c : Z)
| EXSetWMName (title : string)
| EXMapWindow
| EXFillRectangle (x y w h : Z)
| EXDrawRectangle (x y w h : Z)
| EXftDrawStringUtf8 (x y : Z) (s : string)
| EXftDrawString32 (x y : Z) (family : string) (pixel_size : Z) (c : Z)
| EXFlush
| EClose.

Record machine := {
  args : args_t;
  global : global_t;
  out : list event
}.

Definition args0 : args_t :=
  {| display := 1; maxfonts := 0; debug := 0; showname := 0;
     showannot := 0; printfonts := 0; fixed := 0 |}.

Definition global0 : global_t :=
  {| fs := []; lastpaint := S754_zero false; dirty := 0;
     quitdims := (0, 0, 0, 0);
     info := {| name := None; annot := None |};
     character := 0; hexchar := repeat NUL 11 |}.

Definition machine0 : machine :=
  {| args := args0; global := global0; out := [] |}.

(** *** The monad of the program

    A C function is a function of the machine that yields its value and
    the machine it leaves, or [Undefined] where C gives the execution no
    meaning (a NULL dereference, a division by zero, an overflowing
    conversion). *)
Inductive result (A : Type) :=
| Ok (a : A) (m : machine)
| Undefined.
Arguments Ok {A} a m.
Arguments Undefined {A}.

Definition C (A : Type) : Type := machine -> result A.

Definition ret {A} (a : A) : C A := fun m => Ok a m.
Definition bind {A B} (c : C A) (k : A -> C B) : C B :=
  fun m => match c m with
           | Ok a m' => k a m'
           | Undefined => Undefined
           end.
Definition undefined {A} : C A := fun _ => Undefined.

Declare Scope c_scope.
Delimit Scope c_scope with C.
Notation "x <- c ;; k" := (bind c (fun x => k))
  (at level 61, c at next level, right associativity) : c_scope.
Notation "c ;; k" := (bind c (fun _ => k))
  (at level 61, right associativity) : c_scope.
Local Open Scope c_scope.

Definition get_args : C args_t := fun m => Ok (args m) m.
Definition get_global : C global_t := fun m => Ok (global m) m.
Definition set_args (a : args_t) : C unit :=
  fun m => Ok tt {| args := a; global := global m; out := out m |}.
Definition set_global (g : global_t) : C unit :=
  fun m => Ok tt {| args := args m; global := g; out := out m |}.
Definition emit (e : event) : C unit :=
  fun m => Ok tt {| args := args m; global := global m;
                    out := (out m ++ [e])%list |}.

(** A value that must be there for the execution to go on. *)
Definition defined {A} (o : option A) : C A :=
  match o with
  | Some a => ret a
  | None => undefined
  end.

(** The value of an [int] expression. *)
Definition int (z : Z) : C Z := if int_range z then ret z else undefined.

(** [DBG]: to stderr when [args.debug] is set. *)
Definition DBG (fmt : string) (a : list fmt_arg) : C unit :=
  ar <- get_args ;;
  if debug ar =? 0 then ret tt else emit (StderrF fmt a).

(** [DBG_P] flushes the X output first. *)
Definition DBG_P (fmt : string) (a : list fmt_arg) : C unit :=
  ar <- get_args ;;
  if debug ar =? 0 then ret tt else emit EXFlush ;; emit (StderrF fmt a).

(** Assignments to the fields of [args] and [global]. *)
Definition set_display (v : Z) (a : args_t) : args_t :=
  {| display := v; maxfonts := maxfonts a; debug := debug a;
     showname := showname a; showannot := showannot a;
     printfonts := printfonts a; fixed := fixed a |}.
Definition set_maxfonts (v : Z) (a : args_t) : args_t :=
  {| display := display a; maxfonts := v; debug := debug a;
     showname := showname a; showannot := showannot a;
     printfonts := printfonts a; fixed := fixed a |}.
Definition set_debug (v : Z) (a : args_t) : args_t :=
  {| display := display a; maxfonts := maxfonts a; debug := v;
     showname := showname a; showannot := showannot a;
     printfonts := printfonts a; fixed := fixed a |}.
Definition set_showname (v : Z) (a : args_t) : args_t :=
  {| display := display a; maxfonts := maxfonts a; debug := debug a;
     showname := v; showannot := showannot a;
     printfonts := printfonts a; fixed := fixed a |}.
Definition set_showannot (v : Z) (a : args_t) : args_t :=
  {| display := display a; maxfonts := maxfonts a; debug := debug a;
     showname := showname a; showannot := v;
     printfonts := printfonts a; fixed := fixed a |}.
Definition set_printfonts (v : Z) (a : args_t) : args_t :=
  {| display := display a; maxfonts := maxfonts a; debug := debug a;
     showname := showname a; showannot := showannot a;
     printfonts := v; fixed := fixed a |}.
Definition set_fixed (v : Z) (a : args_t) : args_t :=
  {| display := display a; maxfonts := maxfonts a; debug := debug a;
     showname := showname a; showannot := showannot a;
     printfonts := printfonts a; fixed := v |}.

Definition set_fs (v : list FcPattern) (g : global_t) : global_t :=
  {| fs := v; lastpaint := lastpaint g; dirty := dirty g;
     quitdims := quitdims g; info := info g; character := character g;
     hexchar := hexchar g |}.
Definition set_lastpaint (v : double) (g : global_t) : global_t :=
  {| fs := fs g; lastpaint := v; dirty := dirty g;
     quitdims := quitdims g; info := info g; character := character g;
     hexchar := hexchar g |}.
Definition set_dirty (v : Z) (g : global_t) : global_t :=
  {| fs := fs g; lastpaint := lastpaint g; dirty := v;
     quitdims := quitdims g; info := info g; character := character g;
     hexchar := hexchar g |}.
Definition set_quitdims (v : Z * Z * Z * Z) (g : global_t) : global_t :=
  {| fs := fs g; lastpaint := lastpaint g; dirty := dirty g;
     quitdims := v; info := info g; character := character g;
     hexchar := hexchar g |}.
Definition set_info (v : unicode_nameannot) (g : global_t) : global_t :=
  {| fs := fs g; lastpaint := lastpaint g; dirty := dirty g;
     quitdims := quitdims g; info := v; character := character g;
     hexchar := hexchar g |}.
Definition set_character (v : Z) (g : global_t) : global_t :=
  {| fs := fs g; lastpaint := lastpaint g; dirty := dirty g;
     quitdims := quitdims g; info := info g; character := v;
     hexchar := hexchar g |}.
Definition set_hexchar (v : buffer) (g : global_t) : global_t :=
  {| fs := fs g; lastpaint := lastpaint g; dirty := dirty g;
     quitdims := quitdims g; info := info g; character := character g;
     hexchar := v |}.

Definition assign_args (f : args_t -> args_t) : C unit :=
  a <- get_args ;; set_args (f a).
Definition assign_global (f : global_t -> global_t) : C unit :=
  g <- get_global ;; set_global (f g).

(** ** [parse_arguments] *)

(** [struct option long_options[]] and the short options string. *)
Definition long_options : list (string * bool * Z) :=
  [ ("nodisplay"%string, false, code "N");
    ("help"%string, false, code "h");
    ("maxfonts"%string, true, code "m");
    ("debug"%string, false, code "d");
    ("name"%string, false, code "n");
    ("annotation"%string, false, code "a");
    ("print"%string, false, code "p");
    ("fixed"%string, false, code "f") ].
Definition short_options : string := "Nnhm:dapc::".

(** The value [getopt_long] returns for the long option [--o]. *)
Definition long_option_val (o : string) : option Z :=
  option_map snd (find (fun e => String.eqb (fst (fst e)) o) long_options).

Definition say (s : string) : C unit := emit (Stdout (s ++ nl)).

Definition print_usage (w : World) (argv0 : string) : C unit :=
  say ("fc-char v" ++ VERSION w) ;;
  say ("Usage: " ++ argv0 ++ " [options] {<hex codepoint>|<character>}") ;;
  say "Options:" ;;
  say "--help         / -h        :  Show help (this)" ;;
  say "--nodisplay    / -N        :  Don't display found glyphs." ;;
  say "--maxfonts #   / -m#       :  Maximum number of fonts to return/show." ;;
  say "--debug        / -d        :  Print debugging information." ;;
  say "--name         / -n        :  Print unicode character name." ;;
  say "--annotation   / -a        :  Print unicode character annotation string." ;;
  say "--print        / -p        :  Print list of fonts with character." ;;
  say "--fixed        / -f        :  Include fixed-size fonts.".

(** The [default] label of the [switch]. *)
Definition switch_default (argc : Z) (optind : Z) : C Z :=
  if optind <? argc then ret optind else ret (-1).

(** The [while (1)] loop, one turn per return of [getopt_long].  The case
    ['p'] has no [break]: control falls into the case ['f']. *)
Fixpoint parse_loop (w : World) (argc : Z) (argv0 : string)
    (rs : list getopt_ret) : C Z :=
  match rs with
  | [] => switch_default argc (optind_end w)
  | r :: rs' =>
      let c := opt_c r in
      if c =? code "h" then
        print_usage w argv0 ;; ret (-1)
      else if c =? code "N" then
        assign_args (set_display 0) ;; parse_loop w argc argv0 rs'
      else if c =? code "m" then
        assign_args (set_maxfonts (atoi (optarg r))) ;;
        parse_loop w argc argv0 rs'
      else if c =? code "d" then
        assign_args (set_debug 1) ;; parse_loop w argc argv0 rs'
      else if c =? code "n" then
        assign_args (set_showname 1) ;; parse_loop w argc argv0 rs'
      else if c =? code "a" then
        assign_args (set_showannot 1) ;; parse_loop w argc argv0 rs'
      else if c =? code "p" then
        assign_args (set_printfonts 1) ;;
        assign_args (set_fixed 1) ;;
        parse_loop w argc argv0 rs'
      else if c =? code "f" then
        assign_args (set_fixed 1) ;; parse_loop w argc argv0 rs'
      else
        switch_default argc (optind r)
  end.

Definition parse_arguments (w : World) (argv : list string) : C Z :=
  parse_loop w (Z.of_nat (List.length argv)) (nth 0 argv EmptyString)
    (getopt_long w).

(** ** [convert_char] and [parse_character] *)

(** [*(uint32_t * ) outbuf] on a little-endian machine; [outbuf] starts
    as ten zero bytes. *)
Definition byte_at (l : list Z) (i : nat) : Z := nth i l 0 mod 256.
Definition read_uint32 (l : list Z) : Z :=
  byte_at l 0 + 256 * byte_at l 1 + 65536 * byte_at l 2
  + 16777216 * byte_at l 3.

(** [convert_char (input, global.hexchar, outsize, &global.character)],
    the one call of the program.  [converted] has the type [size_t]. *)
Definition convert_char (w : World) (input : string) (outsize : nat) : C Z :=
  match iconv_open w with
  | Some e =>
      emit (Stderr ("Error initializing iconv: " ++ e ++ nl)) ;; ret (-1)
  | None =>
      let r := iconv w input in
      let converted := to_size_t (iconv_value r) in
      if converted <? 0 then
        emit (Stderr ("Error converting glyph: " ++ iconv_strerror r ++ nl)) ;;
        ret (-1)
      else
        let uchar := read_uint32 (iconv_outbuf r) in
        assign_global (set_character uchar) ;;
        g <- get_global ;;
        (if uchar <=? 65535 then
           set_global
             (set_hexchar (snprintf (hexchar g) outsize ("U+" ++ fmt_0x 4 uchar)) g)
         else
           set_global
             (set_hexchar (snprintf (hexchar g) outsize ("U+" ++ fmt_0x 8 uchar)) g)) ;;
        if uchar =? 0 then
          emit (Stdout ("Glyph result was 0." ++ nl)) ;; ret 0
        else ret 1
  end.

(** [cchar + n]. *)
Fixpoint advance (n : nat) (s : string) : string :=
  match n, s with
  | S n', String _ r => advance n' r
  | _, _ => s
  end.

(** [b[i] = c]. *)
Fixpoint store (i : nat) (c : ascii) (b : buffer) : buffer :=
  match b, i with
  | [], _ => []
  | _ :: r, O => c :: r
  | x :: r, S i' => x :: store i' c r
  end.

Definition parse_character (w : World) (cchar : string) : C Z :=
  let hexstring :=
    if starts_with "0x" cchar then 1
    else if starts_with "0X" cchar then 1
    else if starts_with "U+" cchar then 1
    else 0 in
  if negb (hexstring =? 0) then
    assign_global (set_hexchar (strncpy cchar 11)) ;;
    assign_global (fun g => set_hexchar (store 0 "U" (hexchar g)) g) ;;
    assign_global (fun g => set_hexchar (store 1 "+" (hexchar g)) g) ;;
    assign_global (set_character (to_uint32 (strtol (advance 2 cchar) 16))) ;;
    ret 0
  else
    r <- convert_char w cchar 11 ;;
    if r =? 0 then
      emit (Stderr ("Failed to convert character encoding." ++ nl)) ;;
      ret (-1)
    else ret 0.

(** ** [generate_fontset] *)

Definition generate_fontset (w : World) : C Z :=
  g <- get_global ;;
  let c := character g in
  assign_global
    (set_info (UnicodeNameAnnot w (Z.land (Z.shiftr c 16) 31)
                 (Z.land (Z.shiftr c 8) 255) (Z.land c 255))) ;;
  a <- get_args ;;
  (** [FC_SCALABLE] goes into the pattern unless [args.fixed] is set *)
  let scalable := (fixed a =? 0) in
  emit (EFcFontList scalable c) ;;
  assign_global (set_fs (FcFontList w scalable c)) ;;
  ret 0.

(** ** [gen_scale_title_font] *)

(** The loop over the whole font set: the smallest of the scales that
    fit each family name into [width] and the line into [height];
    [None] when a family name cannot be formatted. *)
Fixpoint scale_loop (font : XftFont) (box_width box_height : Z)
    (l : list FcPattern) (scale : double) : option double :=
  match l with
  | [] => Some scale
  | p :: r =>
      match FcPatternFormat p with
      | None => None
      | Some famname =>
          let extents := text_extents font famname in
          let xscale :=
            ddiv (double_of_Z box_width) (double_of_Z (width extents)) in
          let yscale :=
            ddiv (double_of_Z box_height) (double_of_Z (height font)) in
          let newscale := if dlt xscale yscale then xscale else yscale in
          scale_loop font box_width box_height r
            (if dlt scale (double_of_Z 0) || dlt newscale scale
             then newscale else scale)
      end
  end.

Definition gen_scale_title_font (w : World) (family : string)
    (width height : Z) : C (option XftFont) :=
  match XftFontOpen w family FC_SIZE INITFTSZ with
  | None => ret None
  | Some font =>
      g <- get_global ;;
      match scale_loop font width height (fs g) (double_of_Z (-1)) with
      | None => ret None
      | Some scale => ret (XftFontOpen w family FC_SIZE (dmul INITFTSZ scale))
      end
  end.

(** ** [generate_grid] *)

(** [a % b] and [a / b] on [int]s: undefined for a zero divisor. *)
Definition c_rem (a b : Z) : C Z :=
  if b =? 0 then undefined else ret (Z.rem a b).
Definition c_quot (a b : Z) : C Z :=
  if b =? 0 then undefined else ret (Z.quot a b).

(** The body of the [for] loop for the cell of the font [i]. *)
Definition grid_cell (w : World) (fnfont : XftFont)
    (nw bw bh fh frh crh cw yoffset : Z) (i : Z) : C unit :=
  g <- get_global ;;
  col <- c_rem i nw ;;
  row <- c_quot i nw ;;
  rx <- int (col * bw) ;;
  ry <- int (row * bh + yoffset) ;;
  emit (EXDrawRectangle rx ry bw bh) ;;
  DBG_P ("Rectangle (%d, %d) %d x %d" ++ nl) [AInt rx; AInt ry; AInt bw; AInt bh] ;;
  xcoord <- int (col * bw + HPADDING) ;;
  ycoord <- int (row * bh + frh + VPADDING + yoffset) ;;
  p <- defined (nth_error (fs g) (Z.to_nat i)) ;;
  family <- defined (FcPatternFormat p) ;;
  let extents := text_extents fnfont family in
  let xadjust := Z.quot (cw - width extents) 2 in
  xcoord <- int (if 0 <? xadjust then xcoord + xadjust else xcoord) ;;
  emit (EXftDrawStringUtf8 xcoord ycoord family) ;;
  DBG_P ("Family name: %s" ++ nl) [AStr family] ;;
  cfont <- defined (XftFontOpen w family FC_PIXEL_SIZE (double_of_Z crh)) ;;
  let extents := glyph_extents cfont (character g) in
  DBG ("extents at new size w %d h %d x %d y %d xoff %d yoff %d" ++ nl)
      [AInt (width extents); AInt (gi_height extents); AInt (gi_x extents);
       AInt (gi_y extents); AInt (xOff extents); AInt (yOff extents)] ;;
  DBG ("font info: height %d ascent %d descent %d" ++ nl)
      [AInt (height cfont); AInt (ascent cfont); AInt (descent cfont)] ;;
  xcoord <- int (col * bw + HPADDING) ;;
  ycoord <- int (row * bh + fh + crh + VPADDING + yoffset - descent cfont) ;;
  let xadjust := Z.quot (cw - width extents) 2 in
  xcoord <- int (if 0 <? xadjust then xcoord + xadjust else xcoord) ;;
  DBG ("Rendering character at (%d,%d)" ++ nl) [AInt xcoord; AInt ycoord] ;;
  DBG_P ("Character render" ++ nl) [] ;;
  emit (EXftDrawString32 xcoord ycoord family crh (character g)).

(** [for (int i = 0; i < c; i++)], with [n] turns left. *)
Fixpoint grid_loop (cell : Z -> C unit) (n : nat) (i : Z) : C unit :=
  match n with
  | O => ret tt
  | S n' => cell i ;; grid_loop cell n' (i + 1)
  end.

(** [global.fs->nfont]. *)
Definition nfont (g : global_t) : Z := Z.of_nat (List.length (fs g)).

(** The number of fonts to render, [c] of [generate_grid]:
    [(args.maxfonts && (args.maxfonts < global.fs->nfont))
       ? args.maxfonts : global.fs->nfont]. *)
Definition grid_count (a : args_t) (g : global_t) : Z :=
  if negb (maxfonts a =? 0) && (maxfonts a <? nfont g)
  then maxfonts a else nfont g.

Definition generate_grid (w : World) (width height : Z) (yoffset : Z)
  : C Z :=
  a <- get_args ;;
  g <- get_global ;;
  let c := grid_count a g in
  (** number of columns and of rows *)
  nw <- defined (int_of_double
          (round (sqrt (ddiv (dmul (double_of_Z c) (double_of_Z width))
                             (double_of_Z height))))) ;;
  nh <- defined (int_of_double
          (round (ddiv (double_of_Z c) (double_of_Z nw)))) ;;
  (** width and height of each box *)
  bw <- defined (int_of_double
          (floor (ddiv (double_of_Z width) (double_of_Z nw)))) ;;
  bh <- defined (int_of_double
          (floor (ddiv (double_of_Z height) (double_of_Z nh)))) ;;
  (** height of the font name portion and of the character portion *)
  fh <- defined (int_of_double (dmul (double_of_Z bh) FTSPACE)) ;;
  ch <- int (bh - fh) ;;
  (** the rendering areas *)
  frh <- int (fh - 2 * VPADDING) ;;
  crh <- int (ch - 2 * VPADDING) ;;
  cw <- int (bw - 2 * HPADDING) ;;
  DBG ("nw %d nh %d" ++ nl) [AInt nw; AInt nh] ;;
  DBG ("bw %d bh %d" ++ nl) [AInt bw; AInt bh] ;;
  if (frh <=? 0) || (crh <=? 0) || (cw <=? 0) then ret (-1)
  else
    fnfont <- gen_scale_title_font w FTNAMEFT cw frh ;;
    match fnfont with
    | None => ret (-1)
    | Some fnfont =>
        grid_loop (grid_cell w fnfont nw bw bh fh frh crh cw yoffset)
          (Z.to_nat c) 0 ;;
        ret 0
    end.

(** ** The window *)

(** The title line: [hexchar], and the name of the character if it has
    one, cut to the size of the block it is printed into. *)
Definition title_text (lead : string) : C string :=
  g <- get_global ;;
  hex <- defined (cstring (hexchar g)) ;;
  match name (info g) with
  | Some n =>
      ret (snprintf_text (16 + String.length n) (lead ++ hex ++ " " ++ n))
  | None => ret (snprintf_text 16 (lead ++ hex))
  end.

(** [initialize_x11]: zero on success, negative on failure. *)
Definition initialize_x11 (w : World) : C Z :=
  if negb (XOpenDisplay w) then undefined
  else if negb (XAllocColor_white w) then
    emit (Stderr ("Could not allocate background color" ++ nl)) ;; ret (-1)
  else if negb (XAllocColor_black w) then
    emit (Stderr ("Could not allocate foreground color" ++ nl)) ;; ret (-1)
  else
    title <- title_text "fc-char " ;;
    emit (EXSetWMName title) ;;
    DBG ("WMProtocol Status %d" ++ nl) [AInt (XSetWMProtocols w)] ;;
    DBG ("Exposing window" ++ nl) [] ;;
    emit EXMapWindow ;;
    ret 0.

Definition close_x11 : C unit := emit EClose.

(** [paint_window] for the turn [t] of the event loop.  The C function
    is [void] and drops the status of [generate_grid]; the model hands
    that status on so that statements can speak of a repaint that
    failed.  No caller looks at it. *)
Definition paint_window (w : World) (t : tick) : C Z :=
  let geo := window t in
  DBG ("Geometry (%d, %d) (%u, %u)" ++ nl)
      [AInt (geo_x geo); AInt (geo_y geo); AInt (geo_width geo);
       AInt (geo_height geo)] ;;
  emit (EXFillRectangle 0 0 (geo_width geo) (geo_height geo)) ;;
  (** the quit button *)
  font <- defined (XftFontOpen w TITLEFONT FC_SIZE TITLEFONTSZ) ;;
  let extents := text_extents font "Quit" in
  qw <- int (2 * HPADDING + width extents) ;;
  qh <- int (2 * VPADDING + height font) ;;
  assign_global (set_quitdims (HPADDING, VPADDING, qw, qh)) ;;
  emit (EXDrawRectangle HPADDING VPADDING qw qh) ;;
  base <- int (2 * VPADDING + height font - descent font) ;;
  emit (EXftDrawStringUtf8 (2 * HPADDING) base "Quit") ;;
  DBG_P ("Quit button" ++ nl) [] ;;
  title <- title_text "" ;;
  tx <- int (2 * HPADDING + qw) ;;
  emit (EXftDrawStringUtf8 tx base title) ;;
  DBG_P ("Title" ++ nl) [] ;;
  (** the character grid; [height - offset] is an [unsigned int] *)
  offset <- int (qh + 2 * VPADDING) ;;
  r <- generate_grid w (geo_width geo) (to_uint32 (geo_height geo - offset))
         offset ;;
  emit EXFlush ;;
  ret r.

(** The clock of [maybe_paint_window], in milliseconds. *)
Definition now_ms (t : tick) : double :=
  dmul (dadd (double_of_Z (tv_sec t))
             (ddiv (double_of_Z (tv_usec t)) (double_of_Z 1000000)))
       (double_of_Z 1000).

Definition maybe_paint_window (w : World) (t : tick) : C unit :=
  let now := now_ms t in
  g <- get_global ;;
  let diff := dsub now (lastpaint g) in
  DBG ("maybe: diff %g dirty %d" ++ nl) [ADouble diff; AInt (dirty g)] ;;
  if dgt diff (double_of_Z TIMEOUT) && negb (dirty g =? 0) then
    paint_window w t ;;
    assign_global (set_dirty 0) ;;
    assign_global (set_lastpaint now)
  else ret tt.

(** [check_quit_bounds]: whether the point is within the quit button. *)
Definition check_quit_bounds (x y : Z) : C Z :=
  g <- get_global ;;
  let '(q0, q1, q2, q3) := quitdims g in
  dx <- int (x - q0) ;;
  if (dx <? 0) || (q2 <? dx) then ret 0
  else
    dy <- int (y - q1) ;;
    if (dy <? 0) || (q3 <? dy) then ret 0
    else ret 1.

(** The [while (!quit)] loop of [main], one turn per [tick]: [true] when
    the loop is left, [false] when the turns supplied are used up with
    the loop still going. *)
Fixpoint event_loop (w : World) (ts : list tick) (quitclicked : Z)
  : C bool :=
  match ts with
  | [] => ret false
  | t :: ts' =>
      match next_event t with
      | None =>
          DBG ("timeout" ++ nl) [] ;;
          maybe_paint_window w t ;;
          event_loop w ts' quitclicked
      | Some Expose =>
          DBG ("expose" ++ nl) [] ;;
          assign_global (set_dirty 1) ;;
          maybe_paint_window w t ;;
          event_loop w ts' quitclicked
      | Some (ButtonPress x y) =>
          b <- check_quit_bounds x y ;;
          event_loop w ts' (if negb (b =? 0) then 1 else quitclicked)
      | Some (ButtonRelease x y) =>
          b <- check_quit_bounds x y ;;
          if negb (b =? 0) then ret true
          else event_loop w ts' 0
      | Some (OtherEvent type) =>
          emit (StderrF ("Unhandled X11 message %d. Exiting." ++ nl)
                  [AInt type]) ;;
          ret true
      end
  end.

(** ** [main] *)

(** The loop that prints the font families: 0 when it runs to its end,
    1 when [main] returns 1 out of it. *)
Fixpoint print_families (n : nat) (l : list FcPattern) : C Z :=
  match n with
  | O => ret 0
  | S n' =>
      match l with
      | [] => undefined
      | p :: r =>
          match FcPatternFormat p with
          | None =>
              emit (Stderr ("Error formatting font family." ++ nl)) ;; ret 1
          | Some family => say family ;; print_families n' r
          end
      end
  end.

(** The number of families to print, [end] of [main]:
    [global.fs->nfont], or [args.maxfonts] when
    [(args.maxfonts > 0) && (args.maxfonts < end)]. *)
Definition print_count (a : args_t) (g : global_t) : Z :=
  if (0 <? maxfonts a) && (maxfonts a <? nfont g)
  then maxfonts a else nfont g.

(** The [if (args.display)] block of [main]: [true] when control comes
    out of it, [false] when the turns of the event loop that the world
    supplies are used up before the loop is left. *)
Definition show_window (w : World) : C bool :=
  a <- get_args ;;
  if negb (display a =? 0) then
    assign_global (set_lastpaint (double_of_Z (-1))) ;;
    assign_global (set_dirty 1) ;;
    initialize_x11 w ;;
    left <- event_loop w (ticks w) 0 ;;
    if left then close_x11 ;; ret true else ret false
  else ret true.

(** What [main] prints after the window is gone, and its status. *)
Definition report : C Z :=
  a <- get_args ;;
  g <- get_global ;;
  (if negb (showname a =? 0) then
     match name (info g) with
     | Some n => say ("Name: " ++ n)
     | None => say "Name lookup failed."
     end
   else ret tt) ;;
  (if negb (showannot a =? 0) then
     match annot (info g) with
     | Some s => say s
     | None => say "Annotation lookup failed."
     end
   else ret tt) ;;
  if negb (printfonts a =? 0)
  then print_families (Z.to_nat (print_count a g)) (fs g)
  else ret 0.

(** [main] from the [if (args.display)] on.  The value is the exit
    status, or [None] when the event loop is still going. *)
Definition finish (w : World) : C (option Z) :=
  over <- show_window w ;;
  if over then
    status <- report ;;
    ret (Some status)
  else ret None.

(** [main (argc, argv)], with [argv] as [getopt_long] leaves it.  The
    values of [parse_character] and [generate_fontset] are dropped. *)
Definition main (w : World) (argv : list string) : C (option Z) :=
  cindex <- parse_arguments w argv ;;
  if cindex <? 0 then
    emit (Stderr ("Must supply a character value." ++ nl)) ;;
    ret (Some 1)
  else
    cchar <- defined (nth_error argv (Z.to_nat cindex)) ;;
    parse_character w cchar ;;
    generate_fontset w ;;
    finish w.

(** The run of the program from its initial state. *)
Definition run (w : World) (argv : list string) : result (option Z) :=
  main w argv machine0.

(** ** The words of the specification *)

(** A token in a recognized hex form: it starts with [0x], [0X] or [U+]. *)
Definition is_hex_token (token : string) : bool :=
  starts_with "0x" token || starts_with "0X" token || starts_with "U+" token.

(** A hex digit as [%x] writes it. *)
Definition is_hex_digit (c : ascii) : bool :=
  let n := code c in
  ((48 <=? n) && (n <=? 57)) || ((97 <=? n) && (n <=? 102)).

Fixpoint all_chars (p : ascii -> bool) (s : string) : bool :=
  match s with
  | EmptyString => true
  | String c r => p c && all_chars p r
  end.

(** The options that set a flag and let the loop of [parse_arguments]
    go on. *)
Definition is_flag (r : getopt_ret) : bool :=
  existsb (Z.eqb (opt_c r))
    [code "N"; code "m"; code "d"; code "n"; code "a"; code "p"; code "f"].

(** The effective font count of the specification: [min(maxCount,
    |fonts|)] when [maxCount] is set and positive, [|fonts|] otherwise. *)
Definition effective_count (maxCount n : Z) : Z :=
  if 0 <? maxCount then Z.min maxCount n else n.

(** The grid layout of the specification for [c] fonts in a viewport of
    [vw] by [vh]: the numbers of columns and rows, the size of a cell,
    its split into a name band of 20% and a glyph band, and what is left
    of the bands inside the padding. *)
Record layout := {
  columns : Z;
  rows : Z;
  cell_width : Z;
  cell_height : Z;
  name_band : Z;
  glyph_band : Z;
  name_area : Z;
  glyph_area : Z;
  area_width : Z
}.

Definition option_bind {A B} (o : option A) (k : A -> option B) : option B :=
  match o with
  | Some a => k a
  | None => None
  end.

(** An integer that the program holds in an [int]. *)
Definition as_int (z : Z) : option Z := if int_range z then Some z else None.

(** [None] where a number of the layout has no value ([c] is 0, a count
    is 0, a quotient is not a number or does not fit an [int]). *)
Definition grid_layout (c vw vh : Z) : option layout :=
  let c' := double_of_Z c in
  option_bind
    (int_of_double (round (sqrt (ddiv (dmul c' (double_of_Z vw))
                                      (double_of_Z vh)))))
    (fun nw =>
  option_bind (int_of_double (round (ddiv c' (double_of_Z nw))))
    (fun nh =>
  option_bind (int_of_double (floor (ddiv (double_of_Z vw) (double_of_Z nw))))
    (fun bw =>
  option_bind (int_of_double (floor (ddiv (double_of_Z vh) (double_of_Z nh))))
    (fun bh =>
  option_bind (int_of_double (dmul (double_of_Z bh) FTSPACE))
    (fun fh =>
  option_bind (as_int (bh - fh))
    (fun ch =>
  option_bind (as_int (fh - 2 * VPADDING))
    (fun frh =>
  option_bind (as_int (ch - 2 * VPADDING))
    (fun crh =>
  option_bind (as_int (bw - 2 * HPADDING))
    (fun cw =>
  Some {| columns := nw; rows := nh; cell_width := bw; cell_height := bh;
          name_band := fh; glyph_band := ch; name_area := frh;
          glyph_area := crh; area_width := cw |}))))))))).

(** Either band's usable width or height is [<= 0]. *)
Definition too_small (l : layout) : bool :=
  (name_area l <=? 0) || (glyph_area l <=? 0) || (area_width l <=? 0).

(** The two lines [generate_grid] writes with [--debug]. *)
Definition layout_debug_lines (a : args_t) (l : layout) : list event :=
  if debug a =? 0 then []
  else [ StderrF ("nw %d nh %d" ++ nl) [AInt (columns l); AInt (rows l)];
         StderrF ("bw %d bh %d" ++ nl)
           [AInt (cell_width l); AInt (cell_height l)] ].

(** The cells of the grid for a layout that is not too small. *)
Definition draw_cells (w : World) (l : layout) (yoffset c : Z) : C Z :=
  fnfont <- gen_scale_title_font w FTNAMEFT (area_width l) (name_area l) ;;
  match fnfont with
  | None => ret (-1)
  | Some fnfont =>
      grid_loop
        (grid_cell w fnfont (columns l) (cell_width l) (cell_height l)
           (name_band l) (name_area l) (glyph_area l) (area_width l) yoffset)
        (Z.to_nat c) 0 ;;
      ret 0
  end.

(** ** Sample worlds *)

Definition sample_extents (n : Z) : XGlyphInfo :=
  {| width := n; gi_height := 10; gi_x := 0; gi_y := 0; xOff := n;
     yOff := 0 |}.

(** A font whose characters are 8 wide in a line of 16. *)
Definition sample_font : XftFont :=
  {| height := 16; ascent := 12; descent := 4;
     text_extents := fun s => sample_extents (8 * Z.of_nat (String.length s));
     glyph_extents := fun _ => sample_extents 20 |}.

Definition family (s : string) : FcPattern := {| FcPatternFormat := Some s |}.

Definition five_fonts : list FcPattern :=
  [family "DejaVu Sans"; family "FreeSans"; family "Liberation Sans";
   family "Noto Sans"; family "Unifont"].

Definition opt (c : ascii) (arg : string) (ind : Z) : getopt_ret :=
  {| opt_c := code c; optarg := arg; optind := ind |}.

(** A world in which [getopt_long] returns [rs] and then -1 with
    [optind] at [oe], [iconv] answers [ic], every character is in the
    five fonts above, and the X server delivers the turns [ts]. *)
Definition sample_world (rs : list getopt_ret) (oe : Z) (ic : iconv_ret)
    (ts : list tick) : World :=
  {| VERSION := "1.0";
     getopt_long := rs;
     optind_end := oe;
     iconv_open := None;
     iconv := fun _ => ic;
     UnicodeNameAnnot := fun _ _ _ => {| name := None; annot := None |};
     FcFontList := fun _ _ => five_fonts;
     XOpenDisplay := true;
     XAllocColor_white := true;
     XAllocColor_black := true;
     XSetWMProtocols := 1;
     XftFontOpen := fun _ _ _ => Some sample_font;
     ticks := ts |}.

(** [iconv] converts the token to the one character [c]. *)
Definition iconv_ok (c : Z) : iconv_ret :=
  {| iconv_value := 0;
     iconv_outbuf := [c mod 256; c / 256 mod 256; c / 65536 mod 256;
                      c / 16777216 mod 256; 0; 0; 0; 0; 0; 0];
     iconv_strerror := "Success" |}.

(** [iconv] fails with [EILSEQ] after it has stored the characters
    [converted] so far: it returns [(size_t) -1]. *)
Definition iconv_eilseq (stored : list Z) : iconv_ret :=
  {| iconv_value := -1;
     iconv_outbuf := (stored ++ repeat 0 (10 - List.length stored))%list;
     iconv_strerror := "Invalid or incomplete multibyte or wide character" |}.

(** A turn of the event loop at [ms] milliseconds after second
    1700000000, with a window of [gw] by [gh]. *)
Definition turn (e : option XEvent) (ms gw gh : Z) : tick :=
  {| next_event := e;
     tv_sec := 1700000000 + ms / 1000;
     tv_usec := (ms mod 1000) * 1000;
     window := {| geo_x := 0; geo_y := 0; geo_width := gw;
                  geo_height := gh |} |}.

(** The machine after [main] has matched the five fonts for [U+0041],
    with the window due for a repaint. *)
Definition sample_machine (maxf : Z) : machine :=
  {| args := set_maxfonts maxf args0;
     global := set_dirty 1 (set_lastpaint (double_of_Z (-1))
                 (set_fs five_fonts
                    (set_character 65
                       (set_hexchar (snprintf (repeat NUL 11) 11 "U+0041")
                          global0))));
     out := [] |}.

(** A token that is no text in a UTF-8 locale: [a] and the byte [0xFF]. *)
Definition bad_token : string :=
  String "a" (String (ascii_of_nat 255) EmptyString).

(** ** What a run shows *)

(** The value of an execution and what it did to the world. *)
Definition outcome {A} (r : result A) : option (A * list event) :=
  match r with
  | Ok a m => Some (a, out m)
  | Undefined => None
  end.

(** The machine with [es] added to its record of events. *)
Definition emitted (es : list event) (m : machine) : machine :=
  {| args := args m; global := global m; out := (out m ++ es)%list |}.

(** The lines of [print_usage]. *)
Definition usage_lines (w : World) (argv0 : string) : list event :=
  map (fun s => Stdout (s ++ nl))
    [ ("fc-char v" ++ VERSION w)%string;
      ("Usage: " ++ argv0 ++ " [options] {<hex codepoint>|<character>}")%string;
      "Options:"%string;
      "--help         / -h        :  Show help (this)"%string;
      "--nodisplay    / -N        :  Don't display found glyphs."%string;
      "--maxfonts #   / -m#       :  Maximum number of fonts to return/show."%string;
      "--debug        / -d        :  Print debugging information."%string;
      "--name         / -n        :  Print unicode character name."%string;
      "--annotation   / -a        :  Print unicode character annotation string."%string;
      "--print        / -p        :  Print list of fonts with character."%string;
      "--fixed        / -f        :  Include fixed-size fonts."%string ].

Definition glyph_was_0 : event := Stdout ("Glyph result was 0." ++ nl).
Definition failed_to_convert : event :=
  Stderr ("Failed to convert character encoding." ++ nl).
Definition must_supply : event :=
  Stderr ("Must supply a character value." ++ nl).

(** A C string holds no NUL. *)
Definition c_string (s : string) : bool :=
  all_chars (fun c => negb (c =? NUL)%char) s.

(** The resolved character a run of [parse_character] leaves: the code
    point, and the display form read from [global.hexchar]. *)
Definition resolved (r : result Z) : option (Z * option string) :=
  match r with
  | Ok _ m => Some (character (global m), cstring (hexchar (global m)))
  | Undefined => None
  end.

(** The line [maybe_paint_window] writes with [--debug]. *)
Definition maybe_debug_lines (a : args_t) (diff : double) (d : Z)
  : list event :=
  if debug a =? 0 then []
  else [ StderrF ("maybe: diff %g dirty %d" ++ nl) [ADouble diff; AInt d] ].

(** The dirty flag an execution leaves. *)
Definition dirty_after {A} (r : result A) : option Z :=
  match r with
  | Ok _ m => Some (dirty (global m))
  | Undefined => None
  end.

(** The sign of a [double], [None] for a NaN. *)
Definition sgn (x : double) : option bool :=
  match x with
  | S754_zero s | S754_infinity s | S754_finite s _ _ => Some s
  | S754_nan => None
  end.

(** ** What the display leaves alone *)

(** The query of the font set among the events. *)
Definition is_query (e : event) : bool :=
  match e with
  | EFcFontList _ _ => true
  | _ => false
  end.

Definition queries (es : list event) : list event := filter is_query es.

(** [m'] comes after [m] with the flags, the character, its display
    form, its name and the font set as they were, and with no query of the
    font set among the events added. *)
Definition same_fonts (m m' : machine) : Prop :=
  args m' = args m
  /\ fs (global m') = fs (global m)
  /\ character (global m') = character (global m)
  /\ hexchar (global m') = hexchar (global m)
  /\ info (global m') = info (global m)
  /\ exists es, out m' = (out m ++ es)%list /\ queries es = [].

(** A computation that only shows what was found. *)
Definition display_only {A} (c : C A) : Prop :=
  forall m a m', c m = Ok a m' -> same_fonts m m'.

(** An event of the loop that can end it: a button release or an event
    of a type the loop does not handle. *)
Definition may_quit (t : tick) : bool :=
  match next_event t with
  | Some (ButtonRelease _ _) | Some (OtherEvent _) => true
  | _ => false
  end.

(** A font whose family name cannot be formatted. *)
Definition unformatted (p : FcPattern) : bool :=
  match FcPatternFormat p with
  | None => true
  | Some _ => false
  end.

(** What the printing loop writes for the first [n] fonts of [l]: the
    families in the order of the set, up to the first one that cannot be
    formatted, for which it writes the error message. *)
Fixpoint family_lines (n : nat) (l : list FcPattern) : list event :=
  match n, l with
  | S n', p :: r =>
      match FcPatternFormat p with
      | Some f => Stdout (f ++ nl) :: family_lines n' r
      | None => [Stderr ("Error formatting font family." ++ nl)]
      end
  | _, _ => []
  end.

(** The lines for [--name] and [--annotation]. *)
Definition name_lines (a : args_t) (i : unicode_nameannot) : list event :=
  if showname a =? 0 then []
  else match name i with
       | Some n => [Stdout ("Name: " ++ n ++ nl)]
       | None => [Stdout ("Name lookup failed." ++ nl)]
       end.

Definition annot_lines (a : args_t) (i : unicode_nameannot) : list event :=
  if showannot a =? 0 then []
  else match annot i with
       | Some s => [Stdout (s ++ nl)]
       | None => [Stdout ("Annotation lookup failed." ++ nl)]
       end.

(** The events that are text on stdout or stderr. *)
Definition is_text (e : event) : bool :=
  match e with
  | Stdout _ | Stderr _ => true
  | _ => false
  end.

(** A computation that only writes text: it leaves the flags and the
    font set as they are. *)
Definition text_only {A} (c : C A) : Prop :=
  forall m a m',
    c m = Ok a m' ->
    args m' = args m
    /\ fs (global m') = fs (global m)
    /\ exists es, out m' = (out m ++ es)%list /\ forallb is_text es = true.

(** A world in which the second font matched has no family name. *)
Definition nameless_world (rs : list getopt_ret) (oe : Z) : World :=
  {| VERSION := "1.0";
     getopt_long := rs;
     optind_end := oe;
     iconv_open := None;
     iconv := fun _ => iconv_ok 65;
     UnicodeNameAnnot := fun _ _ _ => {| name := None; annot := None |};
     FcFontList := fun _ _ =>
       [family "DejaVu Sans"; {| FcPatternFormat := None |}];
     XOpenDisplay := true;
     XAllocColor_white := true;
     XAllocColor_black := true;
     XSetWMProtocols := 1;
     XftFontOpen := fun _ _ _ => Some sample_font;
     ticks := [] |}.

(** ** What is drawn *)

(** The rectangle, the text and the glyph of a drawing request: for a
    glyph the family of the font it is drawn with, the pixel size of that
    font and the character. *)
Definition rectangle_of (e : event) : option (Z * Z * Z * Z) :=
  match e with
  | EXDrawRectangle x y w h => Some (x, y, w, h)
  | _ => None
  end.
Definition text_of (e : event) : option string :=
  match e with
  | EXftDrawStringUtf8 _ _ s => Some s
  | _ => None
  end.
Definition glyph_of (e : event) : option (string * Z * Z) :=
  match e with
  | EXftDrawString32 _ _ f px c => Some (f, px, c)
  | _ => None
  end.

(** The requests of one kind among [es], in their order. *)
Fixpoint pick {A} (f : event -> option A) (es : list event) : list A :=
  match es with
  | [] => []
  | e :: r =>
      match f e with
      | Some a => a :: pick f r
      | None => pick f r
      end
  end.

(** A line of [DBG] or of the message for an unhandled event. *)
Definition is_log (e : event) : bool :=
  match e with
  | StderrF _ _ => true
  | _ => false
  end.

(** The box of the cell [i] in a grid of [nw] columns of cells of [bw]
    by [bh]: left to right, then top to bottom, below [yoffset]. *)
Definition cell_box (nw bw bh yoffset i : Z) : Z * Z * Z * Z :=
  (Z.rem i nw * bw, Z.quot i nw * bh + yoffset, bw, bh).

Definition is_expose (t : tick) : bool :=
  match next_event t with
  | Some Expose => true
  | _ => false
  end.

(** The title in full: the display form after [lead], and the name of
    the character when it has one. *)
Definition whole_title (lead hex : string) (n : option string) : string :=
  match n with
  | Some n => lead ++ hex ++ " " ++ n
  | None => lead ++ hex
  end.

Definition name_length (n : option string) : nat :=
  match n with
  | Some n => String.length n
  | None => 0
  end.

(** The title handed to the window manager. *)
Definition wm_name_of (e : event) : option string :=
  match e with
  | EXSetWMName t => Some t
  | _ => None
  end.

(** The world [w] with other returns of [getopt_long]. *)
Definition with_options (rs : list getopt_ret) (oe : Z) (w : World) : World :=
  {| VERSION := VERSION w;
     getopt_long := rs;
     optind_end := oe;
     iconv_open := iconv_open w;
     iconv := iconv w;
     UnicodeNameAnnot := UnicodeNameAnnot w;
     FcFontList := FcFontList w;
     XOpenDisplay := XOpenDisplay w;
     XAllocColor_white := XAllocColor_white w;
     XAllocColor_black := XAllocColor_black w;
     XSetWMProtocols := XSetWMProtocols w;
     XftFontOpen := XftFontOpen w;
     ticks := ticks w |}.

(** The world [w] with an [iconv_open] that fails with the message [e]. *)
Definition without_iconv (e : string) (w : World) : World :=
  {| VERSION := VERSION w;
     getopt_long := getopt_long w;
     optind_end := optind_end w;
     iconv_open := Some e;
     iconv := iconv w;
     UnicodeNameAnnot := UnicodeNameAnnot w;
     FcFontList := FcFontList w;
     XOpenDisplay := XOpenDisplay w;
     XAllocColor_white := XAllocColor_white w;
     XAllocColor_black := XAllocColor_black w;
     XSetWMProtocols := XSetWMProtocols w;
     XftFontOpen := XftFontOpen w;
     ticks := ticks w |}.

(** The machine after [main] has matched the five fonts for [U+1F600],
    a character with a name. *)
Definition named_machine : machine :=
  {| args := args0;
     global := set_info {| name := Some "GRINNING FACE"%string;
                           annot := None |}
                 (set_fs five_fonts
                    (set_character 128512
                       (set_hexchar
                          (snprintf (repeat NUL 11) 11 "U+0001f600")
                          global0)));
     out := [] |}.

(** * Properties *)

(** ** The monad *)

Lemma bind_Ok {A B} (c : C A) (k : A -> C B) (m m' : machine) (a : A) :
  c m = Ok a m' -> bind c k m = k a m'.
Proof. intros H. unfold bind. now rewrite H. Qed.

Lemma emit_emitted (e : event) (m : machine) : emit e m = Ok tt (emitted [e] m).
Proof. reflexivity. Qed.

Lemma emitted_nil (m : machine) : emitted [] m = m.
Proof. destruct m. unfold emitted. simpl. now rewrite app_nil_r. Qed.

Lemma emitted_app (es es' : list event) (m : machine) :
  emitted es' (emitted es m) = emitted (es ++ es') m.
Proof. unfold emitted. simpl. now rewrite app_assoc. Qed.

(** ** [convert_char] *)

Lemma to_size_t_nonneg (z : Z) : (to_size_t z <? 0) = false.
Proof.
  unfold to_size_t. apply Z.ltb_ge.
  apply Z.mod_pos_bound. reflexivity.
Qed.

Lemma read_uint32_range (l : list Z) : 0 <= read_uint32 l < 2 ^ 32.
Proof.
  unfold read_uint32, byte_at.
  assert (B : forall z, 0 <= z mod 256 < 256)
    by (intros; apply Z.mod_pos_bound; reflexivity).
  pose proof (B (nth 0 l 0)). pose proof (B (nth 1 l 0)).
  pose proof (B (nth 2 l 0)). pose proof (B (nth 3 l 0)).
  change (2 ^ 32) with 4294967296. lia.
Qed.

(** What [convert_char] does once [iconv_open] has succeeded: nothing
    depends on the value [iconv] returned. *)
Lemma convert_char_opened (w : World) (input : string) (outsize : nat)
    (m : machine) :
  iconv_open w = None ->
  let u := read_uint32 (iconv_outbuf (iconv w input)) in
  convert_char w input outsize m =
  Ok (if u =? 0 then 0 else 1)
     {| args := args m;
        global :=
          set_hexchar
            (snprintf (hexchar (global m)) outsize
               ("U+" ++ fmt_0x (if u <=? 65535 then 4%nat else 8%nat) u))
            (set_character u (global m));
        out := (out m ++ (if u =? 0 then [glyph_was_0] else []))%list |}.
Proof.
  intros Hopen u. unfold convert_char. rewrite Hopen.
  rewrite to_size_t_nonneg. fold u.
  unfold bind, assign_global, get_global, set_global, emit, ret. simpl.
  destruct (u <=? 65535); simpl; destruct (u =? 0); simpl;
    try rewrite app_nil_r; reflexivity.
Qed.

(** C10: in [convert_char] the test [converted < 0] is false for
    every value [iconv] can return, because [converted] is a [size_t].
    So once [iconv_open] has succeeded [convert_char] returns 0 or 1, never
    -1, whatever [iconv] returned, and writes nothing to stderr: the only
    thing it may print is the line about a zero glyph on stdout. *)
Theorem convert_char_error_branch_dead (w : World) (input : string)
    (outsize : nat) (m : machine) :
  iconv_open w = None ->
  (to_size_t (iconv_value (iconv w input)) <? 0) = false
  /\ exists r m',
       convert_char w input outsize m = Ok r m'
       /\ r = (if read_uint32 (iconv_outbuf (iconv w input)) =? 0
               then 0 else 1)
       /\ (r = 0 \/ r = 1)
       /\ out m' = (out m ++ (if r =? 0 then [glyph_was_0] else []))%list.
Proof.
  intros Hopen. split; [apply to_size_t_nonneg|].
  rewrite (convert_char_opened w input outsize m Hopen).
  eexists. eexists. split; [reflexivity|].
  destruct (read_uint32 (iconv_outbuf (iconv w input)) =? 0);
    (split; [reflexivity|]); simpl; auto.
Qed.

Lemma convert_char_error_branch_dead_witness :
  iconv_open (sample_world [] 2 (iconv_eilseq []) []) = None
  /\ ((to_size_t (iconv_value (iconv_eilseq [])) <? 0) = false
      /\ exists r m',
           convert_char (sample_world [] 2 (iconv_eilseq []) []) bad_token 11
             machine0 = Ok r m'
           /\ r = (if read_uint32 (iconv_outbuf (iconv_eilseq [])) =? 0
                   then 0 else 1)
           /\ (r = 0 \/ r = 1)
           /\ out m' = (out machine0
                        ++ (if r =? 0 then [glyph_was_0] else []))%list).
Proof.
  split; [reflexivity|].
  apply (convert_char_error_branch_dead
           (sample_world [] 2 (iconv_eilseq []) []) bad_token 11 machine0).
  reflexivity.
Defined.

(** ** [parse_arguments] *)

Lemma print_usage_lines (w : World) (argv0 : string) (m : machine) :
  print_usage w argv0 m = Ok tt (emitted (usage_lines w argv0) m).
Proof.
  unfold print_usage, say, bind, emit, emitted. simpl.
  repeat rewrite <- app_assoc. reflexivity.
Qed.

(** What [getopt_long] returns for the long options of the table; the
    short options string has every one of these letters but [f]. *)
Lemma long_option_values :
  long_option_val "help" = Some (code "h")
  /\ long_option_val "print" = Some (code "p")
  /\ long_option_val "fixed" = Some (code "f")
  /\ long_option_val "nodisplay" = Some (code "N")
  /\ long_option_val "maxfonts" = Some (code "m")
  /\ existsb (Ascii.eqb "p") (list_ascii_of_string short_options) = true
  /\ existsb (Ascii.eqb "f") (list_ascii_of_string short_options) = false.
Proof. repeat split. Qed.

(** An option that sets a flag writes nothing and leaves [global] alone;
    the loop goes on with the next return of [getopt_long]. *)
Lemma parse_loop_flag (w : World) (argc : Z) (argv0 : string)
    (r : getopt_ret) (rs : list getopt_ret) (m : machine) :
  is_flag r = true ->
  exists a, parse_loop w argc argv0 (r :: rs) m =
            parse_loop w argc argv0 rs
              {| args := a; global := global m; out := out m |}.
Proof.
  unfold is_flag. simpl. intros H.
  repeat (apply orb_true_iff in H; destruct H as [H | H]);
    try discriminate;
    apply Z.eqb_eq in H; simpl; rewrite H;
    eexists; reflexivity.
Qed.

Lemma parse_loop_flags (w : World) (argc : Z) (argv0 : string)
    (flags tail : list getopt_ret) :
  forallb is_flag flags = true ->
  forall m, exists a,
    parse_loop w argc argv0 (flags ++ tail) m =
    parse_loop w argc argv0 tail
      {| args := a; global := global m; out := out m |}.
Proof.
  induction flags as [| r flags IH]; intros Hf m.
  - exists (args m). now destruct m.
  - simpl in Hf. apply andb_true_iff in Hf. destruct Hf as [Hr Hf].
    destruct (parse_loop_flag w argc argv0 r (flags ++ tail) m Hr) as [a Ha].
    simpl app. rewrite Ha.
    destruct (IH Hf {| args := a; global := global m; out := out m |})
      as [a' Ha'].
    exists a'. exact Ha'.
Qed.

(** The case ['p'] falls through into the case ['f']: the option that
    asks for the list of fonts sets [args.fixed] as well. *)
Lemma parse_loop_print (w : World) (argc : Z) (argv0 : string)
    (r : getopt_ret) (rs : list getopt_ret) (m : machine) :
  opt_c r = code "p" ->
  parse_loop w argc argv0 (r :: rs) m =
  parse_loop w argc argv0 rs
    {| args := set_fixed 1 (set_printfonts 1 (args m));
       global := global m; out := out m |}.
Proof. intros H. simpl. rewrite H. reflexivity. Qed.

(** C4 fails for [--help]: the usage text is followed by the message
    for a missing character, and the exit status is 1, not 0. *)
Lemma help_exits_with_status_1 :
  outcome (run (sample_world [opt "h" "" 2] 2 (iconv_ok 65) [])
             ["fc-char"; "--help"]%string)
  = Some (Some 1,
          (usage_lines (sample_world [opt "h" "" 2] 2 (iconv_ok 65) [])
             "fc-char" ++ [must_supply])%list).
Proof. reflexivity. Qed.

(** C4, amended: when [getopt_long] reports [--help] (or [-h]) after
    options that only set flags, the program prints the usage text, then the
    message for a missing character on stderr, and exits with status 1
    without resolving a character or asking for fonts; when the options
    run out with no positional argument left, it prints that message alone
    and exits with status 1. *)
Theorem help_or_missing_argument_exits_1 (w : World) (argv : list string)
    (flags tail : list getopt_ret) :
  getopt_long w = (flags ++ tail)%list ->
  forallb is_flag flags = true ->
  match tail with
  | r :: _ => opt_c r = code "h"
  | [] => Z.of_nat (List.length argv) <= optind_end w
  end ->
  outcome (run w argv)
  = Some (Some 1,
          (match tail with
           | _ :: _ => usage_lines w (nth 0 argv EmptyString)
           | [] => []
           end ++ [must_supply])%list).
Proof.
  intros Hg Hf Ht. unfold run, main, parse_arguments. rewrite Hg.
  destruct (parse_loop_flags w (Z.of_nat (List.length argv))
              (nth 0 argv EmptyString) flags tail Hf machine0) as [a Ha].
  unfold bind at 1. rewrite Ha. destruct tail as [| r tail].
  - simpl. unfold switch_default.
    destruct (Z.ltb_spec (optind_end w) (Z.of_nat (List.length argv)));
      [lia | reflexivity].
  - simpl parse_loop. rewrite Ht. reflexivity.
Qed.

Lemma help_or_missing_argument_exits_1_witness :
  (getopt_long (sample_world [opt "N" "" 2; opt "h" "" 3] 3 (iconv_ok 65) [])
   = ([opt "N" "" 2] ++ [opt "h" "" 3])%list
   /\ forallb is_flag [opt "N" "" 2] = true
   /\ opt_c (opt "h" "" 3) = code "h")
  /\ outcome (run (sample_world [opt "N" "" 2; opt "h" "" 3] 3 (iconv_ok 65) [])
                ["fc-char"; "-N"; "--help"]%string)
     = Some (Some 1,
             (usage_lines
                (sample_world [opt "N" "" 2; opt "h" "" 3] 3 (iconv_ok 65) [])
                "fc-char" ++ [must_supply])%list)
  /\ outcome (run (sample_world [opt "N" "" 2] 2 (iconv_ok 65) [])
                ["fc-char"; "-N"]%string)
     = Some (Some 1, [must_supply]).
Proof.
  split; [repeat split|]. split.
  - apply (help_or_missing_argument_exits_1
             (sample_world [opt "N" "" 2; opt "h" "" 3] 3 (iconv_ok 65) [])
             ["fc-char"; "-N"; "--help"]%string
             [opt "N" "" 2] [opt "h" "" 3]); reflexivity.
  - apply (help_or_missing_argument_exits_1
             (sample_world [opt "N" "" 2] 2 (iconv_ok 65) [])
             ["fc-char"; "-N"]%string [opt "N" "" 2] []);
      [reflexivity | reflexivity | simpl; lia].
Defined.

(** C3: [--print] changes what is matched.  Without it the pattern
    requires scalable fonts; with it, and without [--fixed], the query goes
    out with no such requirement, because the case ['p'] of
    [parse_arguments] falls through into the case ['f']. *)
Theorem print_option_drops_scalable_requirement :
  outcome (run (sample_world [opt "N" "" 2] 2 (iconv_ok 65) [])
             ["fc-char"; "-N"; "0x41"]%string)
  = Some (Some 0, [EFcFontList true 65])
  /\ outcome (run (sample_world [opt "N" "" 2; opt "p" "" 3] 3 (iconv_ok 65) [])
                ["fc-char"; "-N"; "-p"; "0x41"]%string)
     = Some (Some 0,
             (EFcFontList false 65
              :: map (fun s => Stdout (s ++ nl))
                   ["DejaVu Sans"; "FreeSans"; "Liberation Sans";
                    "Noto Sans"; "Unifont"]%string)).
Proof. split; reflexivity. Qed.

(** ** [parse_character] and [main] *)

(** C1: a failed conversion does not stop the program.  When [iconv]
    fails after it has stored one character, nothing is reported and the
    fonts for that character are asked for; when it fails with nothing
    stored, the failure is reported and the fonts for U+0000 are asked for
    all the same.  Either way the exit status is 0. *)
Theorem conversion_failure_reaches_font_matching :
  is_hex_token bad_token = false
  /\ outcome (run (sample_world [opt "N" "" 2] 2 (iconv_eilseq [97]) [])
                ["fc-char"%string; "-N"%string; bad_token])
     = Some (Some 0, [EFcFontList true 97])
  /\ outcome (run (sample_world [opt "N" "" 2] 2 (iconv_eilseq []) [])
                ["fc-char"%string; "-N"%string; bad_token])
     = Some (Some 0, [glyph_was_0; failed_to_convert; EFcFontList true 0]).
Proof. repeat split. Qed.

Lemma parse_character_literal (w : World) (cchar : string) (m : machine) :
  is_hex_token cchar = false ->
  parse_character w cchar m =
  bind (convert_char w cchar 11)
    (fun r => if r =? 0 then bind (emit failed_to_convert) (fun _ => ret (-1))
              else ret 0) m.
Proof.
  unfold is_hex_token. intros H.
  apply orb_false_iff in H. destruct H as [H H3].
  apply orb_false_iff in H. destruct H as [H1 H2].
  unfold parse_character. rewrite H1, H2, H3. reflexivity.
Qed.

Lemma parse_character_hex (w : World) (cchar : string) (m : machine) :
  is_hex_token cchar = true ->
  parse_character w cchar m =
  Ok 0 {| args := args m;
          global :=
            set_character (to_uint32 (strtol (advance 2 cchar) 16))
              (set_hexchar (store 1 "+" (store 0 "U" (strncpy cchar 11)))
                 (global m));
          out := out m |}.
Proof.
  unfold is_hex_token, parse_character. intros H.
  destruct (starts_with "0x" cchar); [reflexivity|].
  destruct (starts_with "0X" cchar); [reflexivity|].
  destruct (starts_with "U+" cchar); [reflexivity|discriminate].
Qed.

Lemma generate_fontset_query (w : World) (m : machine) :
  generate_fontset w m =
  Ok 0 {| args := args m;
          global :=
            set_fs (FcFontList w (fixed (args m) =? 0) (character (global m)))
              (set_info
                 (UnicodeNameAnnot w
                    (Z.land (Z.shiftr (character (global m)) 16) 31)
                    (Z.land (Z.shiftr (character (global m)) 8) 255)
                    (Z.land (character (global m)) 255))
                 (global m));
          out := (out m ++ [EFcFontList (fixed (args m) =? 0)
                              (character (global m))])%list |}.
Proof. reflexivity. Qed.

(** [main] goes from [parse_character] on to [generate_fontset] and the
    rest whatever [parse_character] returned. *)
Lemma main_resolves_and_matches (w : World) (argv : list string)
    (m m1 : machine) (cindex : Z) (cchar : string) :
  parse_arguments w argv m = Ok cindex m1 ->
  0 <= cindex ->
  nth_error argv (Z.to_nat cindex) = Some cchar ->
  main w argv m =
  bind (parse_character w cchar)
    (fun _ => bind (generate_fontset w) (fun _ => finish w)) m1.
Proof.
  intros Hp Hc Hn. unfold main. rewrite (bind_Ok _ _ _ _ _ Hp).
  destruct (Z.ltb_spec cindex 0); [lia|].
  rewrite Hn. reflexivity.
Qed.

(** C8 fails on the point of success: the zero glyph is announced on
    stdout, and then [parse_character] reports a failed conversion on stderr
    and returns -1.  The token here is the empty argument, for which [iconv]
    has nothing to convert and succeeds. *)
Lemma zero_glyph_is_an_error :
  iconv_value (iconv_ok 0) = 0
  /\ outcome (parse_character (sample_world [] 1 (iconv_ok 0) [])
                EmptyString machine0)
     = Some (-1, [glyph_was_0; failed_to_convert]).
Proof. split; reflexivity. Qed.

(** C8, amended: when the conversion of a literal character yields
    the code point 0, the program prints the line "Glyph result was 0.",
    and [parse_character] then takes the result for a failure: it prints
    "Failed to convert character encoding." on stderr and returns -1.
    [main] drops that status and goes on with the code point 0: the display
    form is U+0000 and the font query is made for the character 0. *)
Theorem zero_glyph_reported_as_failure (w : World) (argv : list string)
    (m m1 : machine) (cindex : Z) (cchar : string) :
  parse_arguments w argv m = Ok cindex m1 ->
  0 <= cindex ->
  nth_error argv (Z.to_nat cindex) = Some cchar ->
  is_hex_token cchar = false ->
  iconv_open w = None ->
  read_uint32 (iconv_outbuf (iconv w cchar)) = 0 ->
  exists m2 m3,
    parse_character w cchar m1 = Ok (-1) m2
    /\ out m2 = (out m1 ++ [glyph_was_0; failed_to_convert])%list
    /\ character (global m2) = 0
    /\ cstring (hexchar (global m2)) = Some "U+0000"%string
    /\ generate_fontset w m2 = Ok 0 m3
    /\ out m3 = (out m2 ++ [EFcFontList (fixed (args m1) =? 0) 0])%list
    /\ fs (global m3) = FcFontList w (fixed (args m1) =? 0) 0
    /\ main w argv m = finish w m3.
Proof.
  intros Hp Hc Hn Hx Ho Hu.
  pose proof (parse_character_literal w cchar m1 Hx) as Hpc.
  rewrite (bind_Ok _ _ _ _ _ (convert_char_opened w cchar 11 m1 Ho)) in Hpc.
  rewrite Hu in Hpc. simpl in Hpc.
  rewrite (main_resolves_and_matches w argv m m1 cindex cchar Hp Hc Hn).
  rewrite (bind_Ok _ _ _ _ _ Hpc).
  rewrite (bind_Ok _ _ _ _ _ (generate_fontset_query w _)).
  eexists. eexists. split; [exact Hpc|].
  split; [simpl; now rewrite <- app_assoc|].
  split; [reflexivity|]. split; [reflexivity|].
  split; [apply generate_fontset_query|].
  split; [reflexivity|]. split; reflexivity.
Qed.

Lemma zero_glyph_reported_as_failure_witness :
  (parse_arguments (sample_world [opt "N" "" 2] 2 (iconv_ok 0) [])
     ["fc-char"; "-N"; ""]%string machine0
   = Ok 2 {| args := set_display 0 args0; global := global0; out := [] |}
   /\ 0 <= 2
   /\ nth_error ["fc-char"; "-N"; ""]%string (Z.to_nat 2) = Some ""%string
   /\ is_hex_token "" = false
   /\ iconv_open (sample_world [opt "N" "" 2] 2 (iconv_ok 0) []) = None
   /\ read_uint32 (iconv_outbuf (iconv_ok 0)) = 0)
  /\ exists m2 m3,
       parse_character (sample_world [opt "N" "" 2] 2 (iconv_ok 0) []) ""
         {| args := set_display 0 args0; global := global0; out := [] |}
       = Ok (-1) m2
       /\ out m2 = ([] ++ [glyph_was_0; failed_to_convert])%list
       /\ character (global m2) = 0
       /\ cstring (hexchar (global m2)) = Some "U+0000"%string
       /\ generate_fontset (sample_world [opt "N" "" 2] 2 (iconv_ok 0) []) m2
          = Ok 0 m3
       /\ out m3 = (out m2 ++ [EFcFontList (fixed (set_display 0 args0) =? 0) 0])%list
       /\ fs (global m3) = five_fonts
       /\ main (sample_world [opt "N" "" 2] 2 (iconv_ok 0) [])
            ["fc-char"; "-N"; ""]%string machine0
          = finish (sample_world [opt "N" "" 2] 2 (iconv_ok 0) []) m3.
Proof.
  split; [repeat split; discriminate|].
  apply (zero_glyph_reported_as_failure
           (sample_world [opt "N" "" 2] 2 (iconv_ok 0) [])
           ["fc-char"; "-N"; ""]%string machine0
           {| args := set_display 0 args0; global := global0; out := [] |}
           2 ""%string); solve [reflexivity | discriminate].
Defined.

(** ** The number of fonts *)

(** The list of families is cut as the specification says. *)
Lemma print_count_effective (a : args_t) (g : global_t) :
  print_count a g = effective_count (maxfonts a) (nfont g).
Proof.
  unfold print_count, effective_count.
  destruct (Z.ltb_spec 0 (maxfonts a)); simpl; [|reflexivity].
  destruct (Z.ltb_spec (maxfonts a) (nfont g)); lia.
Qed.

(** So is the grid, as long as [args.maxfonts] is not negative. *)
Lemma grid_count_effective (a : args_t) (g : global_t) :
  0 <= maxfonts a ->
  grid_count a g = effective_count (maxfonts a) (nfont g).
Proof.
  intros H. unfold grid_count, effective_count.
  destruct (Z.eqb_spec (maxfonts a) 0) as [E | E]; simpl.
  - rewrite E. reflexivity.
  - destruct (Z.ltb_spec 0 (maxfonts a)); [|lia].
    destruct (Z.ltb_spec (maxfonts a) (nfont g)); lia.
Qed.

(** C7: with [-m-3] and five matched fonts the list of families has
    the full count of 5, as the specification says for a value that is not
    positive, but the grid takes [args.maxfonts] itself, -3, for its count:
    [generate_grid] tests that [args.maxfonts] is not zero where [main]
    tests that it is positive.  The repaint then has no defined value (the
    square root of a negative number is converted to [int]). *)
Theorem negative_maxfonts_grid_count :
  atoi "-3" = -3
  /\ effective_count (-3) 5 = 5
  /\ print_count (args (sample_machine (-3))) (global (sample_machine (-3))) = 5
  /\ grid_count (args (sample_machine (-3))) (global (sample_machine (-3))) = -3
  /\ outcome (paint_window (sample_world [] 1 (iconv_ok 65) [])
                (turn None 0 800 600) (sample_machine (-3))) = None
  /\ outcome (run (sample_world [opt "N" "" 2; opt "p" "" 3; opt "m" "-3" 4] 4
                     (iconv_ok 65) [])
                ["fc-char"; "-N"; "-p"; "-m-3"; "0x41"]%string)
     = Some (Some 0,
             (EFcFontList false 65
              :: map (fun s => Stdout (s ++ nl))
                   ["DejaVu Sans"; "FreeSans"; "Liberation Sans";
                    "Noto Sans"; "Unifont"]%string)).
Proof. repeat split. Qed.

(** ** The display form *)

Lemma length_string_app (s t : string) :
  String.length (s ++ t) = (String.length s + String.length t)%nat.
Proof. induction s as [| c s IH]; simpl; [reflexivity | now rewrite IH]. Qed.

Lemma length_zeros (k : nat) : String.length (zeros k) = k.
Proof. induction k as [| k IH]; simpl; [reflexivity | now rewrite IH]. Qed.

Lemma all_chars_app (p : ascii -> bool) (s t : string) :
  all_chars p (s ++ t) = all_chars p s && all_chars p t.
Proof.
  induction s as [| c s IH]; simpl; [reflexivity|].
  rewrite IH. now rewrite andb_assoc.
Qed.

Lemma all_chars_zeros (k : nat) : all_chars is_hex_digit (zeros k) = true.
Proof. induction k as [| k IH]; simpl; [reflexivity | exact IH]. Qed.

Lemma sixteen_cases (d : Z) :
  0 <= d < 16 ->
  d = 0 \/ d = 1 \/ d = 2 \/ d = 3 \/ d = 4 \/ d = 5 \/ d = 6 \/ d = 7
  \/ d = 8 \/ d = 9 \/ d = 10 \/ d = 11 \/ d = 12 \/ d = 13 \/ d = 14
  \/ d = 15.
Proof. lia. Qed.

Lemma hex_digit_is_hex_digit (d : Z) :
  0 <= d < 16 -> is_hex_digit (hex_digit d) = true.
Proof.
  intros H.
  destruct (sixteen_cases d H) as
    [E|[E|[E|[E|[E|[E|[E|[E|[E|[E|[E|[E|[E|[E|[E|E]]]]]]]]]]]]]]];
    rewrite E; reflexivity.
Qed.

Lemma digit_value_hex_digit (d : Z) :
  0 <= d < 16 -> digit_value 16 (hex_digit d) = Some d.
Proof.
  intros H.
  destruct (sixteen_cases d H) as
    [E|[E|[E|[E|[E|[E|[E|[E|[E|[E|[E|[E|[E|[E|[E|E]]]]]]]]]]]]]]];
    rewrite E; reflexivity.
Qed.

Lemma mod_16_range (n : Z) : 0 <= n mod 16 < 16.
Proof. apply Z.mod_pos_bound. reflexivity. Qed.

(** [%x] writes at most [k] digits for a number below [16^k]. *)
Lemma length_hex_digits (fuel : nat) :
  forall (k : nat) (n : Z) (acc : string),
    (1 <= k <= fuel)%nat -> 0 <= n < 16 ^ Z.of_nat k ->
    (1 + String.length acc <= String.length (hex_digits fuel n acc)
     <= k + String.length acc)%nat.
Proof.
  induction fuel as [| f IH]; intros k n acc Hk Hn; [lia|].
  simpl. destruct (Z.eqb_spec (n / 16) 0) as [E | E].
  - simpl. lia.
  - assert (16 <= n).
    { destruct (Z_lt_le_dec n 16) as [L|L]; [|exact L].
      exfalso. apply E. apply Z.div_small. lia. }
    destruct k as [| [| k]]; [lia | simpl in Hn; lia |].
    assert (Hq : 0 <= n / 16 < 16 ^ Z.of_nat (S k)).
    { split; [apply Z.div_pos; lia|].
      apply Z.div_lt_upper_bound; [lia|].
      replace (Z.of_nat (S (S k))) with (Z.of_nat (S k) + 1) in Hn by lia.
      rewrite Z.pow_add_r in Hn by lia. lia. }
    specialize (IH (S k) (n / 16) (String (hex_digit (n mod 16)) acc)
                  ltac:(lia) Hq).
    simpl in IH. lia.
Qed.

Lemma all_hex_digits (fuel : nat) :
  forall (n : Z) (acc : string),
    all_chars is_hex_digit acc = true ->
    all_chars is_hex_digit (hex_digits fuel n acc) = true.
Proof.
  induction fuel as [| f IH]; intros n acc Ha; [exact Ha|].
  simpl.
  assert (Hd : all_chars is_hex_digit (String (hex_digit (n mod 16)) acc) = true).
  { simpl. rewrite Ha, (hex_digit_is_hex_digit _ (mod_16_range n)).
    reflexivity. }
  destruct (n / 16 =? 0); [exact Hd | now apply IH].
Qed.

(** What [strtol] accumulates from a string of digits that follows a
    value [a]. *)
Lemma accumulate_digits (s : string) :
  all_chars is_hex_digit s = true ->
  forall a, accumulate 16 s a
            = a * 16 ^ Z.of_nat (String.length s) + accumulate 16 s 0.
Proof.
  induction s as [| c s IH]; intros Hs a; simpl.
  - lia.
  - simpl in Hs. apply andb_true_iff in Hs. destruct Hs as [Hc Hs].
    destruct (digit_value 16 c) as [v|] eqn:Ev.
    + rewrite (IH Hs (a * 16 + v)), (IH Hs v).
      change (Z.pow_pos 16 (Pos.of_succ_nat (String.length s)))
        with (16 ^ Z.of_nat (S (String.length s))).
      rewrite Nat2Z.inj_succ, Z.pow_succ_r by lia. ring.
    + exfalso. revert Hc Ev. unfold is_hex_digit, digit_value.
      destruct (Z.leb_spec 48 (code c)), (Z.leb_spec (code c) 57),
        (Z.leb_spec 97 (code c)), (Z.leb_spec (code c) 102),
        (Z.leb_spec (code c) 122); simpl; try discriminate; try lia;
        intros _;
        match goal with
        | |- context [?x <? 16] => destruct (Z.ltb_spec x 16)
        end; try discriminate; lia.
Qed.

Lemma accumulate_hex_digits (fuel : nat) :
  forall (n : Z) (acc : string),
    0 <= n < 16 ^ Z.of_nat fuel -> (1 <= fuel)%nat ->
    all_chars is_hex_digit acc = true ->
    accumulate 16 (hex_digits fuel n acc) 0
    = n * 16 ^ Z.of_nat (String.length acc) + accumulate 16 acc 0.
Proof.
  induction fuel as [| f IH]; intros n acc Hn Hf Ha; [lia|].
  simpl hex_digits.
  assert (Hd : all_chars is_hex_digit (String (hex_digit (n mod 16)) acc) = true).
  { simpl. rewrite Ha, (hex_digit_is_hex_digit _ (mod_16_range n)).
    reflexivity. }
  assert (Hv : accumulate 16 (String (hex_digit (n mod 16)) acc) 0
               = n mod 16 * 16 ^ Z.of_nat (String.length acc)
                 + accumulate 16 acc 0).
  { simpl. rewrite (digit_value_hex_digit _ (mod_16_range n)).
    now rewrite (accumulate_digits acc Ha). }
  pose proof (Z.div_mod n 16 ltac:(lia)) as Hdm.
  destruct (Z.eqb_spec (n / 16) 0) as [E | E].
  - rewrite Hv. rewrite E in Hdm. replace (n mod 16) with n by lia.
    reflexivity.
  - assert (16 <= n).
    { destruct (Z_lt_le_dec n 16) as [L|L]; [|exact L].
      exfalso. apply E. apply Z.div_small. lia. }
    destruct f as [| f]; [simpl in Hn; lia|].
    assert (Hq : 0 <= n / 16 < 16 ^ Z.of_nat (S f)).
    { split; [apply Z.div_pos; lia|].
      apply Z.div_lt_upper_bound; [lia|].
      replace (Z.of_nat (S (S f))) with (Z.of_nat (S f) + 1) in Hn by lia.
      rewrite Z.pow_add_r in Hn by lia. lia. }
    rewrite (IH (n / 16) _ Hq ltac:(lia) Hd), Hv.
    change (String.length (String (hex_digit (n mod 16)) acc))
      with (S (String.length acc)).
    rewrite Nat2Z.inj_succ, Z.pow_succ_r by lia.
    rewrite Hdm at 3. ring.
Qed.

Lemma accumulate_zeros (k : nat) (s : string) :
  accumulate 16 (zeros k ++ s) 0 = accumulate 16 s 0.
Proof. induction k as [| k IH]; simpl; [reflexivity | exact IH]. Qed.

(** [%04x] and [%08x]: exactly [k] hex digits, which are those of the
    number, for a number below [16^k]. *)
Lemma fmt_0x_digits (k : nat) (n : Z) :
  (1 <= k <= 8)%nat -> 0 <= n < 16 ^ Z.of_nat k ->
  String.length (fmt_0x k n) = k
  /\ all_chars is_hex_digit (fmt_0x k n) = true
  /\ accumulate 16 (fmt_0x k n) 0 = n.
Proof.
  intros Hk Hn. unfold fmt_0x.
  pose proof (length_hex_digits 8 k n EmptyString ltac:(lia) Hn) as Hl.
  fold (fmt_x n) in Hl. simpl in Hl.
  split; [|split].
  - rewrite length_string_app, length_zeros. lia.
  - rewrite all_chars_app, all_chars_zeros. simpl.
    now apply all_hex_digits.
  - rewrite accumulate_zeros. unfold fmt_x.
    rewrite accumulate_hex_digits; simpl; try lia; try reflexivity.
    assert (16 ^ Z.of_nat k <= 16 ^ 8)
      by (apply Z.pow_le_mono_r; lia).
    change (Z.pow_pos 16 8) with (16 ^ 8). lia.
Qed.

Lemma cstring_terminated (s : string) (r : buffer) :
  c_string s = true ->
  cstring (list_ascii_of_string s ++ NUL :: r) = Some s.
Proof.
  induction s as [| c s IH]; intros H; simpl; [reflexivity|].
  simpl in H. apply andb_true_iff in H. destruct H as [Hc Hs].
  apply negb_true_iff in Hc. rewrite Hc, (IH Hs). reflexivity.
Qed.

Lemma cstring_unterminated (s : string) :
  c_string s = true -> cstring (list_ascii_of_string s) = None.
Proof.
  induction s as [| c s IH]; intros H; simpl; [reflexivity|].
  simpl in H. apply andb_true_iff in H. destruct H as [Hc Hs].
  apply negb_true_iff in Hc. rewrite Hc, (IH Hs). reflexivity.
Qed.

Lemma length_list_ascii (s : string) :
  List.length (list_ascii_of_string s) = String.length s.
Proof. induction s as [| c s IH]; simpl; [reflexivity | now rewrite IH]. Qed.

(** [snprintf] leaves the whole text, terminated, when it fits. *)
Lemma cstring_snprintf (b : buffer) (size : nat) (s : string) :
  (String.length s < size)%nat -> c_string s = true ->
  cstring (snprintf b size s) = Some s.
Proof.
  intros Hl Hs. unfold snprintf, overwrite.
  rewrite firstn_all2 by (rewrite length_list_ascii; lia).
  rewrite <- app_assoc. simpl. now apply cstring_terminated.
Qed.

Lemma hex_digits_c_string (s : string) :
  all_chars is_hex_digit s = true -> c_string s = true.
Proof.
  unfold c_string. induction s as [| c s IH]; intros H; simpl; [reflexivity|].
  simpl in H. apply andb_true_iff in H. destruct H as [Hc Hs].
  rewrite (IH Hs), andb_true_r. apply negb_true_iff.
  destruct (Ascii.eqb_spec c NUL) as [E | E]; [|reflexivity].
  rewrite E in Hc. discriminate.
Qed.

Lemma prefix_too_long (a b c : ascii) (s : string) :
  String.prefix (String a (String b s)) (String c EmptyString) = false.
Proof.
  change (String.prefix (String a (String b s)) (String c EmptyString))
    with (if ascii_dec a c then String.prefix (String b s) EmptyString
          else false).
  destruct (ascii_dec a c); reflexivity.
Qed.

(** A token in hex form has its two characters of prefix. *)
Lemma hex_token_prefix (cchar : string) :
  is_hex_token cchar = true ->
  exists c0 c1, cchar = String c0 (String c1 (advance 2 cchar)).
Proof.
  unfold is_hex_token, starts_with. intros H.
  destruct cchar as [| c0 [| c1 r]].
  - discriminate.
  - rewrite !prefix_too_long in H. discriminate.
  - exists c0, c1. reflexivity.
Qed.

(** What [parse_character] leaves in [global.hexchar] for a token in hex
    form: the token with [U+] for its prefix, as long as the token and
    its terminator fit the 11 bytes. *)
Lemma hexchar_of_hex_token (cchar : string) :
  c_string cchar = true ->
  is_hex_token cchar = true ->
  (String.length cchar <= 10)%nat ->
  cstring (store 1 "+" (store 0 "U" (strncpy cchar 11)))
  = Some ("U+" ++ advance 2 cchar)%string.
Proof.
  intros Hc Hx Hl.
  destruct (hex_token_prefix cchar Hx) as [c0 [c1 E]].
  set (rest := advance 2 cchar) in *. rewrite E in Hc, Hl |- *.
  simpl in Hl. unfold c_string in Hc. simpl in Hc.
  apply andb_true_iff in Hc. destruct Hc as [_ Hc].
  apply andb_true_iff in Hc. destruct Hc as [_ Hc].
  unfold strncpy. simpl list_ascii_of_string.
  change (firstn 11 (c0 :: c1 :: list_ascii_of_string rest))
    with (c0 :: c1 :: firstn 9 (list_ascii_of_string rest)).
  rewrite firstn_all2 by (rewrite length_list_ascii; lia).
  simpl List.length. rewrite length_list_ascii.
  change (11 - S (S (String.length rest)))%nat
    with (9 - String.length rest)%nat.
  destruct (9 - String.length rest)%nat as [| k] eqn:Ek; [lia|].
  simpl. now rewrite (cstring_terminated rest (repeat NUL k) Hc).
Qed.

(** The display form of a converted character: [U+] and exactly 4 or 8
    hex digits, whose value is the code point. *)
Lemma display_form_literal (w : World) (cchar : string) (m : machine) :
  is_hex_token cchar = false ->
  iconv_open w = None ->
  exists r m' digits,
    parse_character w cchar m = Ok r m'
    /\ character (global m') = read_uint32 (iconv_outbuf (iconv w cchar))
    /\ cstring (hexchar (global m')) = Some (String "U" (String "+" digits))
    /\ String.length digits
       = (if character (global m') <=? 65535 then 4%nat else 8%nat)
    /\ all_chars is_hex_digit digits = true
    /\ accumulate 16 digits 0 = character (global m').
Proof.
  intros Hx Ho.
  rewrite (parse_character_literal w cchar m Hx).
  rewrite (bind_Ok _ _ _ _ _ (convert_char_opened w cchar 11 m Ho)).
  set (u := read_uint32 (iconv_outbuf (iconv w cchar))).
  pose proof (read_uint32_range (iconv_outbuf (iconv w cchar))) as Hu.
  fold u in Hu.
  set (d := fmt_0x (if u <=? 65535 then 4%nat else 8%nat) u).
  assert (Hd : String.length d = (if u <=? 65535 then 4%nat else 8%nat)
               /\ all_chars is_hex_digit d = true
               /\ accumulate 16 d 0 = u).
  { unfold d. destruct (Z.leb_spec u 65535); apply fmt_0x_digits; simpl;
      lia. }
  destruct Hd as [Hd1 [Hd2 Hd3]].
  assert (Hs : forall b, cstring (snprintf b 11 (String "U" (String "+" d)))
                         = Some (String "U" (String "+" d))).
  { intros b. apply cstring_snprintf.
    - simpl. rewrite Hd1. destruct (u <=? 65535); lia.
    - apply hex_digits_c_string in Hd2. unfold c_string in *. simpl.
      exact Hd2. }
  destruct (u =? 0); simpl.
  + eexists. eexists. exists d. split; [reflexivity|]. simpl.
    split; [reflexivity|].
    split; [apply Hs|]. split; [exact Hd1|]. split; assumption.
  + eexists. eexists. exists d. split; [reflexivity|]. simpl.
    split; [reflexivity|].
    split; [apply Hs|]. split; [exact Hd1|]. split; assumption.
Qed.

(** C2 fails for a token in hex form: the display form of [0x41] is
    [U+41], with the two digits of the token, and that of [0x1F600] is
    [U+1F600], with five. *)
Lemma hex_token_is_not_padded :
  resolved (parse_character (sample_world [] 1 (iconv_ok 65) [])
              "0x41" machine0)
  = Some (65, Some "U+41"%string)
  /\ resolved (parse_character (sample_world [] 1 (iconv_ok 65) [])
                 "0x1F600" machine0)
     = Some (128512, Some "U+1F600"%string).
Proof. split; reflexivity. Qed.

(** C2, amended: the display form depends on the input form.  For a
    literal character, converted by [iconv], it is [U+] followed by exactly
    4 hex digits when the code point is at most 0xFFFF and by exactly 8
    otherwise, zero-padded lower-case digits whose value is the code point.
    For a token in hex form of at most 10 characters it is the token itself
    with [U+] in the place of its two characters of prefix, the digits as
    they were typed, and the code point is what [strtol] reads from them in
    base 16. *)
Theorem display_form_by_input_form (w : World) (cchar : string)
    (m : machine) :
  c_string cchar = true ->
  (is_hex_token cchar = true /\ (String.length cchar <= 10)%nat)
  \/ (is_hex_token cchar = false /\ iconv_open w = None) ->
  exists r m',
    parse_character w cchar m = Ok r m'
    /\ if is_hex_token cchar then
         character (global m') = to_uint32 (strtol (advance 2 cchar) 16)
         /\ cstring (hexchar (global m'))
            = Some ("U+" ++ advance 2 cchar)%string
       else
         character (global m') = read_uint32 (iconv_outbuf (iconv w cchar))
         /\ exists digits,
              cstring (hexchar (global m')) = Some ("U+" ++ digits)%string
              /\ String.length digits
                 = (if character (global m') <=? 65535 then 4%nat else 8%nat)
              /\ all_chars is_hex_digit digits = true
              /\ accumulate 16 digits 0 = character (global m').
Proof.
  intros Hc [[Hx Hl] | [Hx Ho]]; rewrite Hx.
  - rewrite (parse_character_hex w cchar m Hx).
    eexists. eexists. split; [reflexivity|]. simpl.
    split; [reflexivity|]. now apply hexchar_of_hex_token.
  - destruct (display_form_literal w cchar m Hx Ho)
      as [r [m' [d [Hp [Hu [Hf [Hl [Hd Hv]]]]]]]].
    exists r, m'. split; [exact Hp|]. split; [exact Hu|].
    exists d. repeat split; assumption.
Qed.

Lemma display_form_by_input_form_witness :
  (c_string "0x41" = true
   /\ ((is_hex_token "0x41" = true /\ (String.length "0x41" <= 10)%nat)
       \/ (is_hex_token "0x41" = false
           /\ iconv_open (sample_world [] 1 (iconv_ok 65) []) = None)))
  /\ exists r m',
       parse_character (sample_world [] 1 (iconv_ok 65) []) "0x41" machine0
       = Ok r m'
       /\ if is_hex_token "0x41" then
            character (global m') = to_uint32 (strtol (advance 2 "0x41") 16)
            /\ cstring (hexchar (global m'))
               = Some ("U+" ++ advance 2 "0x41")%string
          else
            character (global m')
            = read_uint32 (iconv_outbuf (iconv_ok 65))
            /\ exists digits,
                 cstring (hexchar (global m')) = Some ("U+" ++ digits)%string
                 /\ String.length digits
                    = (if character (global m') <=? 65535
                       then 4%nat else 8%nat)
                 /\ all_chars is_hex_digit digits = true
                 /\ accumulate 16 digits 0 = character (global m').
Proof.
  split; [split; [reflexivity | left; split; [reflexivity | simpl; lia]]|].
  apply (display_form_by_input_form (sample_world [] 1 (iconv_ok 65) [])
           "0x41" machine0);
    [reflexivity | left; split; [reflexivity | simpl; lia]].
Defined.

(** ** The grid *)

Lemma DBG_lines (fmt : string) (a : list fmt_arg) (m : machine) :
  DBG fmt a m
  = Ok tt (emitted (if debug (args m) =? 0 then [] else [StderrF fmt a]) m).
Proof.
  unfold DBG, bind, get_args.
  destruct (debug (args m) =? 0); [|reflexivity].
  now rewrite emitted_nil.
Qed.

Lemma int_as_int (z : Z) (m : machine) :
  int z m = match as_int z with Some v => Ok v m | None => Undefined end.
Proof. unfold int, as_int. destruct (int_range z); reflexivity. Qed.

Lemma defined_value {A} (o : option A) (m : machine) :
  defined o m = match o with Some v => Ok v m | None => Undefined end.
Proof. destruct o; reflexivity. Qed.

(** [generate_grid] has no defined value where the layout has none. *)
Lemma generate_grid_undefined (w : World) (vw vh yoffset : Z) (m : machine) :
  grid_layout (grid_count (args m) (global m)) vw vh = None ->
  generate_grid w vw vh yoffset m = Undefined.
Proof.
  unfold grid_layout, generate_grid, bind, get_args, get_global.
  intros H.
  repeat (rewrite ?defined_value, ?int_as_int;
          match type of H with
          | option_bind ?o _ = None =>
              destruct o; cbn [option_bind] in H;
              [cbv beta iota | reflexivity]
          end).
  discriminate.
Qed.

(** C5: for the number [c] of fonts to render and a viewport of [vw]
    by [vh], [generate_grid] works with the layout of the specification:
    [nw = round (sqrt (c * vw / vh))] columns, [nh = round (c / nw)] rows,
    cells of [bw = floor (vw / nw)] by [bh = floor (vh / nh)], a name band
    of 20% of the cell height, and both bands inset by the padding.  It
    returns -1 without drawing anything when the usable height of either
    band or the usable width is [<= 0], and draws the cells of that layout
    otherwise. *)
Theorem generate_grid_follows_layout (w : World) (vw vh yoffset : Z)
    (m : machine) (l : layout) :
  let c := grid_count (args m) (global m) in
  grid_layout c vw vh = Some l ->
  (int_of_double
     (round (sqrt (ddiv (dmul (double_of_Z c) (double_of_Z vw))
                        (double_of_Z vh)))) = Some (columns l)
   /\ int_of_double (round (ddiv (double_of_Z c) (double_of_Z (columns l))))
      = Some (rows l)
   /\ int_of_double (floor (ddiv (double_of_Z vw) (double_of_Z (columns l))))
      = Some (cell_width l)
   /\ int_of_double (floor (ddiv (double_of_Z vh) (double_of_Z (rows l))))
      = Some (cell_height l)
   /\ int_of_double (dmul (double_of_Z (cell_height l)) FTSPACE)
      = Some (name_band l)
   /\ glyph_band l = cell_height l - name_band l
   /\ name_area l = name_band l - 2 * VPADDING
   /\ glyph_area l = glyph_band l - 2 * VPADDING
   /\ area_width l = cell_width l - 2 * HPADDING)
  /\ generate_grid w vw vh yoffset m
     = if (name_area l <=? 0) || (glyph_area l <=? 0) || (area_width l <=? 0)
       then Ok (-1) (emitted (layout_debug_lines (args m) l) m)
       else draw_cells w l yoffset c
              (emitted (layout_debug_lines (args m) l) m).
Proof.
  intros c H. unfold grid_layout in H.
  unfold generate_grid, draw_cells, bind, get_args, get_global. fold c.
  repeat (rewrite ?defined_value, ?int_as_int;
          match type of H with
          | option_bind ?o _ = Some _ =>
              let E := fresh "E" in
              destruct o eqn:E; cbn [option_bind] in H;
              [cbv beta iota | discriminate]
          end).
  injection H as H. subst l.
  cbn [columns rows cell_width cell_height name_band glyph_band name_area
       glyph_area area_width].
  split.
  - unfold as_int in *.
    repeat match goal with
           | E : (if int_range ?x then _ else _) = Some _ |- _ =>
               destruct (int_range x); [|discriminate];
               injection E as E
           end.
    subst. repeat split; assumption.
  - rewrite !DBG_lines. rewrite emitted_app.
    unfold layout_debug_lines.
    cbn [columns rows cell_width cell_height args emitted].
    destruct (debug (args m) =? 0); cbn [app];
      match goal with
      | |- context [if ?b then _ else _] => destruct b
      end; reflexivity.
Qed.

Lemma generate_grid_follows_layout_witness :
  grid_layout (grid_count (args (sample_machine 0)) (global (sample_machine 0)))
    100 64
  = Some {| columns := 3; rows := 2; cell_width := 33; cell_height := 32;
            name_band := 6; glyph_band := 26; name_area := -4;
            glyph_area := 16; area_width := 23 |}
  /\ int_of_double
       (round (sqrt (ddiv (dmul (double_of_Z 5) (double_of_Z 100))
                          (double_of_Z 64)))) = Some 3
  /\ generate_grid (sample_world [] 1 (iconv_ok 65) []) 100 64 36
       (sample_machine 0)
     = Ok (-1) (sample_machine 0).
Proof.
  assert (H : grid_layout
                (grid_count (args (sample_machine 0))
                   (global (sample_machine 0))) 100 64
              = Some {| columns := 3; rows := 2; cell_width := 33;
                        cell_height := 32; name_band := 6; glyph_band := 26;
                        name_area := -4; glyph_area := 16;
                        area_width := 23 |}) by reflexivity.
  split; [exact H|].
  destruct (generate_grid_follows_layout (sample_world [] 1 (iconv_ok 65) [])
              100 64 36 (sample_machine 0) _ H) as [[Hnw _] Hg].
  split; [exact Hnw | exact Hg].
Defined.

(** C6: one font in a wide viewport of 900 by 100 gets
    [nw = round (sqrt 9) = 3] columns and [nh = round (1 / 3) = 0] rows, and
    the cell height is then the conversion to [int] of [100 / 0], an
    infinity; one font in a tall viewport of 100 by 500 gets
    [nw = round (sqrt 0.2) = 0] columns.  Neither layout has a value, and
    [generate_grid] has none either; the first is the grid of a window of
    900 by 136 below the quit button. *)
Theorem one_font_gets_no_rows_or_no_columns :
  int_of_double
    (round (sqrt (ddiv (dmul (double_of_Z 1) (double_of_Z 900))
                       (double_of_Z 100)))) = Some 3
  /\ int_of_double (round (ddiv (double_of_Z 1) (double_of_Z 3))) = Some 0
  /\ ddiv (double_of_Z 100) (double_of_Z 0) = S754_infinity false
  /\ int_of_double (floor (ddiv (double_of_Z 100) (double_of_Z 0))) = None
  /\ int_of_double
       (round (sqrt (ddiv (dmul (double_of_Z 1) (double_of_Z 100))
                          (double_of_Z 500)))) = Some 0
  /\ grid_count (args (sample_machine 1)) (global (sample_machine 1)) = 1
  /\ grid_layout 1 900 100 = None
  /\ grid_layout 1 100 500 = None
  /\ outcome (generate_grid (sample_world [] 1 (iconv_ok 65) []) 900 100 36
                (sample_machine 1)) = None
  /\ outcome (generate_grid (sample_world [] 1 (iconv_ok 65) []) 100 500 36
                (sample_machine 1)) = None
  /\ outcome (paint_window (sample_world [] 1 (iconv_ok 65) [])
                (turn None 0 900 136) (sample_machine 1)) = None.
Proof. repeat split. Qed.

(** ** The repaint *)

(** C9 fails on the dirty flag: in a window of 100 by 100 the five
    fonts do not fit, [generate_grid] returns -1 (the status
    [paint_window] drops), and [maybe_paint_window] clears the dirty flag
    all the same. *)
Lemma failed_repaint_clears_dirty :
  dirty (global (sample_machine 0)) = 1
  /\ outcome (paint_window (sample_world [] 1 (iconv_ok 65) [])
                (turn None 0 100 100) (sample_machine 0))
     = Some (-1,
             [EXFillRectangle 0 0 100 100; EXDrawRectangle 5 5 42 26;
              EXftDrawStringUtf8 10 22 "Quit";
              EXftDrawStringUtf8 52 22 "U+0041"; EXFlush])
  /\ dirty_after (maybe_paint_window (sample_world [] 1 (iconv_ok 65) [])
                    (turn None 0 100 100) (sample_machine 0))
     = Some 0.
Proof. repeat split. Qed.

(** C9, amended: [maybe_paint_window] repaints only when the dirty
    flag is set and the time since the last paint, as the program computes
    it in milliseconds, is greater than the 100 ms of the timeout;
    otherwise it changes nothing.  When it repaints, it clears the dirty
    flag and records the time of the paint whatever became of the repaint:
    the status of [generate_grid] is not looked at. *)
Theorem maybe_paint_window_clears_dirty (w : World) (t : tick) (m : machine) :
  let now := now_ms t in
  let diff := dsub now (lastpaint (global m)) in
  let m0 := emitted (maybe_debug_lines (args m) diff (dirty (global m))) m in
  maybe_paint_window w t m
  = if dgt diff (double_of_Z TIMEOUT) && negb (dirty (global m) =? 0)
    then match paint_window w t m0 with
         | Ok _ m1 =>
             Ok tt {| args := args m1;
                      global := set_lastpaint now (set_dirty 0 (global m1));
                      out := out m1 |}
         | Undefined => Undefined
         end
    else Ok tt m0.
Proof.
  intros now diff m0.
  unfold maybe_paint_window, bind at 1, get_global. fold now. fold diff.
  unfold bind at 1. rewrite DBG_lines.
  change (emitted
            (if debug (args m) =? 0 then []
             else [StderrF ("maybe: diff %g dirty %d" ++ nl)
                     [ADouble diff; AInt (dirty (global m))]]) m) with m0.
  destruct (dgt diff (double_of_Z TIMEOUT) && negb (dirty (global m) =? 0));
    [|reflexivity].
  unfold bind at 1. destruct (paint_window w t m0) as [r m1|]; reflexivity.
Qed.

(** ** More on the options, the list and the quit button *)

Lemma grid_count_effective_witness :
  0 <= maxfonts (args (sample_machine 2))
  /\ grid_count (args (sample_machine 2)) (global (sample_machine 2))
     = effective_count 2 5.
Proof.
  split; [simpl; lia|].
  apply (grid_count_effective (args (sample_machine 2))
           (global (sample_machine 2))).
  simpl. lia.
Defined.

Lemma parse_loop_print_witness :
  opt_c (opt "p" "" 2) = code "p"
  /\ parse_loop (sample_world [] 2 (iconv_ok 65) []) 3 "fc-char"
       [opt "p" "" 2] machine0
     = parse_loop (sample_world [] 2 (iconv_ok 65) []) 3 "fc-char" []
         {| args := set_fixed 1 (set_printfonts 1 args0);
            global := global0; out := [] |}.
Proof.
  split; [reflexivity|].
  apply (parse_loop_print (sample_world [] 2 (iconv_ok 65) []) 3 "fc-char"
           (opt "p" "" 2) [] machine0).
  reflexivity.
Defined.

(** The loop of [main] prints the first [n] families of the font set, one
    per line and in the order of the set, when each of them can be
    formatted. *)
Lemma print_families_first (n : nat) :
  forall (names : list string) (m : machine),
    (n <= List.length names)%nat ->
    print_families n (map family names) m
    = Ok 0 (emitted (map (fun s => Stdout (s ++ nl)) (firstn n names)) m).
Proof.
  induction n as [| n IH]; intros names m Hn.
  - simpl. now rewrite emitted_nil.
  - destruct names as [| s names]; [simpl in Hn; lia|].
    simpl in Hn. simpl print_families. unfold say, bind at 1.
    rewrite emit_emitted, (IH names _ ltac:(lia)), emitted_app.
    reflexivity.
Qed.

Lemma print_families_first_witness :
  (2 <= List.length ["DejaVu Sans"; "FreeSans"; "Liberation Sans";
                     "Noto Sans"; "Unifont"]%string)%nat
  /\ print_families 2 five_fonts machine0
     = Ok 0 (emitted [Stdout ("DejaVu Sans" ++ nl); Stdout ("FreeSans" ++ nl)]
               machine0).
Proof.
  split; [simpl; lia|].
  apply (print_families_first 2
           ["DejaVu Sans"; "FreeSans"; "Liberation Sans"; "Noto Sans";
            "Unifont"]%string machine0).
  simpl; lia.
Defined.

(** [--nodisplay --print -m2] for a character that five fonts hold
    prints the first two families. *)
Lemma nodisplay_print_m2 :
  outcome (run (sample_world [opt "N" "" 2; opt "p" "" 3; opt "m" "2" 4] 4
                  (iconv_ok 65) [])
             ["fc-char"; "--nodisplay"; "--print"; "-m2"; "0x41"]%string)
  = Some (Some 0,
          [EFcFontList false 65; Stdout ("DejaVu Sans" ++ nl);
           Stdout ("FreeSans" ++ nl)]).
Proof. reflexivity. Qed.

(** [check_quit_bounds]: a point is within the button when it lies
    between its edges, the edges included. *)
Lemma check_quit_bounds_edges (x y : Z) (m : machine) :
  int_range (x - fst (fst (fst (quitdims (global m))))) = true ->
  int_range (y - snd (fst (fst (quitdims (global m))))) = true ->
  check_quit_bounds x y m
  = Ok (let '(q0, q1, q2, q3) := quitdims (global m) in
        if (q0 <=? x) && (x <=? q0 + q2) && (q1 <=? y) && (y <=? q1 + q3)
        then 1 else 0) m.
Proof.
  unfold check_quit_bounds, bind, get_global, int.
  destruct (quitdims (global m)) as [[[q0 q1] q2] q3]. simpl.
  intros Hx Hy. rewrite Hx. unfold ret at 1.
  destruct (Z.ltb_spec (x - q0) 0), (Z.ltb_spec q2 (x - q0)),
    (Z.leb_spec q0 x), (Z.leb_spec x (q0 + q2)); simpl; try lia;
    try reflexivity.
  rewrite Hy. unfold ret at 1.
  destruct (Z.ltb_spec (y - q1) 0), (Z.ltb_spec q3 (y - q1)),
    (Z.leb_spec q1 y), (Z.leb_spec y (q1 + q3)); simpl; try lia;
    reflexivity.
Qed.

Lemma check_quit_bounds_edges_witness :
  (int_range (5 - 5) = true /\ int_range (4 - 5) = true)
  /\ check_quit_bounds 5 5
       {| args := args0; global := set_quitdims (5, 5, 50, 25) global0;
          out := [] |}
     = Ok 1 {| args := args0; global := set_quitdims (5, 5, 50, 25) global0;
               out := [] |}
  /\ check_quit_bounds 4 5
       {| args := args0; global := set_quitdims (5, 5, 50, 25) global0;
          out := [] |}
     = Ok 0 {| args := args0; global := set_quitdims (5, 5, 50, 25) global0;
               out := [] |}.
Proof.
  split; [split; reflexivity|]. split.
  - apply (check_quit_bounds_edges 5 5
             {| args := args0; global := set_quitdims (5, 5, 50, 25) global0;
                out := [] |}); reflexivity.
  - apply (check_quit_bounds_edges 4 5
             {| args := args0; global := set_quitdims (5, 5, 50, 25) global0;
                out := [] |}); reflexivity.
Defined.

(** ** Resolving a display form again *)

Lemma hex_digit_not_space (c : ascii) :
  is_hex_digit c = true -> isspace c = false.
Proof.
  unfold is_hex_digit, isspace.
  destruct (Z.leb_spec 48 (code c)), (Z.leb_spec (code c) 57),
    (Z.leb_spec 97 (code c)), (Z.leb_spec (code c) 102),
    (Z.leb_spec 9 (code c)), (Z.leb_spec (code c) 13),
    (Z.eqb_spec (code c) 32); simpl; intros Hd;
    try discriminate; try reflexivity; lia.
Qed.

Lemma hex_digit_not_x (c : ascii) :
  is_hex_digit c = true -> ((c =? "x")%char || (c =? "X")%char) = false.
Proof.
  intros H.
  destruct (Ascii.eqb_spec c "x") as [E | _]; [rewrite E in H; discriminate|].
  destruct (Ascii.eqb_spec c "X") as [E | _]; [rewrite E in H; discriminate|].
  reflexivity.
Qed.

(** On a string of hex digits [strtol] skips nothing and takes no sign
    and no prefix. *)
Lemma strtol_hex_digits (s : string) :
  all_chars is_hex_digit s = true ->
  accumulate 16 s 0 <= LONG_MAX ->
  strtol s 16 = accumulate 16 s 0.
Proof.
  intros Hs Hn. destruct s as [| c r]; [reflexivity|].
  simpl in Hs. apply andb_true_iff in Hs. destruct Hs as [Hc Hr].
  unfold strtol. cbn [skip_spaces]. rewrite (hex_digit_not_space c Hc).
  assert (Hsign : match String c r with
                  | String "-" r0 => (true, r0)
                  | String "+" r0 => (false, r0)
                  | _ => (false, String c r)
                  end = (false, String c r)).
  { destruct (Ascii.eqb_spec c "-") as [E | _];
      [rewrite E in Hc; discriminate|].
    destruct (Ascii.eqb_spec c "+") as [E | _];
      [rewrite E in Hc; discriminate|].
    destruct c as [[] [] [] [] [] [] [] []]; try reflexivity;
      discriminate. }
  rewrite Hsign.
  assert (Hprefix : skip_hex_prefix 16 (String c r) = String c r).
  { unfold skip_hex_prefix. destruct r as [| x r'].
    - destruct c as [[] [] [] [] [] [] [] []]; reflexivity.
    - simpl in Hr. apply andb_true_iff in Hr. destruct Hr as [Hx _].
      rewrite (hex_digit_not_x x Hx).
      destruct c as [[] [] [] [] [] [] [] []]; reflexivity. }
  rewrite Hprefix.
  destruct (Z.ltb_spec LONG_MAX (accumulate 16 (String c r) 0));
    [lia | reflexivity].
Qed.

Lemma display_form_is_hex_token (d : string) :
  is_hex_token (String "U" (String "+" d)) = true.
Proof. destruct d; reflexivity. Qed.

(** The display form of a converted character is itself a token in hex
    form, and resolving it gives the same code point and the same display
    form again. *)
Lemma resolve_display_form_again (w : World) (cchar : string) (m : machine) :
  is_hex_token cchar = false ->
  iconv_open w = None ->
  exists r m' form,
    parse_character w cchar m = Ok r m'
    /\ cstring (hexchar (global m')) = Some form
    /\ is_hex_token form = true
    /\ forall w2 m2,
         resolved (parse_character w2 form m2)
         = Some (character (global m'), Some form).
Proof.
  intros Hx Ho.
  destruct (display_form_literal w cchar m Hx Ho)
    as [r [m' [d [Hp [Hu [Hf [Hl [Hd Hv]]]]]]]].
  exists r, m', (String "U" (String "+" d)).
  split; [exact Hp|]. split; [exact Hf|].
  split; [apply display_form_is_hex_token|].
  intros w2 m2.
  rewrite (parse_character_hex w2 _ m2 (display_form_is_hex_token d)).
  unfold resolved.
  cbn [global character hexchar set_character set_hexchar advance].
  pose proof (read_uint32_range (iconv_outbuf (iconv w cchar))) as Hr.
  rewrite <- Hu in Hr.
  rewrite hexchar_of_hex_token.
  - cbn [advance]. rewrite strtol_hex_digits; [| exact Hd |].
    + rewrite Hv. unfold to_uint32. rewrite Z.mod_small by exact Hr.
      reflexivity.
    + rewrite Hv. unfold LONG_MAX. change (2 ^ 32) with 4294967296 in Hr.
      lia.
  - apply hex_digits_c_string in Hd. unfold c_string in *. simpl. exact Hd.
  - apply display_form_is_hex_token.
  - simpl. rewrite Hl. destruct (character (global m') <=? 65535); lia.
Qed.

Lemma resolve_display_form_again_witness :
  (is_hex_token "A" = false
   /\ iconv_open (sample_world [] 1 (iconv_ok 65) []) = None)
  /\ exists r m' form,
       parse_character (sample_world [] 1 (iconv_ok 65) []) "A" machine0
       = Ok r m'
       /\ cstring (hexchar (global m')) = Some form
       /\ is_hex_token form = true
       /\ forall w2 m2,
            resolved (parse_character w2 form m2)
            = Some (character (global m'), Some form).
Proof.
  split; [split; reflexivity|].
  apply (resolve_display_form_again (sample_world [] 1 (iconv_ok 65) [])
           "A" machine0); reflexivity.
Defined.

Lemma generate_grid_undefined_witness :
  grid_layout (grid_count (args (sample_machine 1)) (global (sample_machine 1)))
    900 100 = None
  /\ generate_grid (sample_world [] 1 (iconv_ok 65) []) 900 100 36
       (sample_machine 1) = Undefined.
Proof.
  split; [reflexivity|].
  apply (generate_grid_undefined (sample_world [] 1 (iconv_ok 65) [])
           900 100 36 (sample_machine 1)).
  reflexivity.
Defined.

(** ** The counts of a layout that has a value

    The operations keep the sign they are given, so a layout has a value
    only for a positive number of fonts, and its counts are positive. *)

Lemma binary_round_aux_sgn (s : bool) (m e : Z) (lx : location) :
  sgn (binary_round_aux prec emax s m e lx) = Some s
  \/ binary_round_aux prec emax s m e lx = S754_nan.
Proof.
  unfold binary_round_aux.
  destruct (shr_fexp prec emax m e lx) as [mrs' e'].
  destruct (shr_fexp prec emax _ e' loc_Exact) as [mrs'' e''].
  destruct (shr_m mrs''); [left; reflexivity | | right; reflexivity].
  destruct (e'' <=? emax - prec); left; reflexivity.
Qed.

Lemma double_of_Z_sgn (z : Z) :
  double_of_Z z = S754_nan
  \/ sgn (double_of_Z z) = Some (z <? 0).
Proof.
  unfold double_of_Z, binary_normalize. destruct z as [| p | p].
  - right; reflexivity.
  - unfold binary_round. destruct (shl_align _ _ _) as [mz ez].
    destruct (binary_round_aux_sgn false (Zpos mz) ez loc_Exact) as [H | H];
      [right | left]; exact H.
  - unfold binary_round. destruct (shl_align _ _ _) as [mz ez].
    destruct (binary_round_aux_sgn true (Zpos mz) ez loc_Exact) as [H | H];
      [right | left]; exact H.
Qed.

Lemma dmul_sgn (x y : double) :
  dmul x y = S754_nan
  \/ exists a b, sgn x = Some a /\ sgn y = Some b
                 /\ sgn (dmul x y) = Some (xorb a b).
Proof.
  unfold dmul, SFmul.
  destruct x as [a | a | | a mx ex], y as [b | b | | b my ey];
    try (left; reflexivity);
    try (right; exists a, b; repeat split; reflexivity).
  destruct (binary_round_aux_sgn (xorb a b) (Zpos (mx * my)) (ex + ey)
              loc_Exact) as [H | H]; [right | left; exact H].
  exists a, b. repeat split. exact H.
Qed.

Lemma ddiv_sgn (x y : double) :
  ddiv x y = S754_nan
  \/ exists a b, sgn x = Some a /\ sgn y = Some b
                 /\ sgn (ddiv x y) = Some (xorb a b).
Proof.
  unfold ddiv, SFdiv.
  destruct x as [a | a | | a mx ex], y as [b | b | | b my ey];
    try (left; reflexivity);
    try (right; exists a, b; repeat split; reflexivity).
  destruct (SFdiv_core_binary prec emax (Zpos mx) ex (Zpos my) ey)
    as [[mz ez] lz].
  destruct (binary_round_aux_sgn (xorb a b) mz ez lz) as [H | H];
    [right | left; exact H].
  exists a, b. repeat split. exact H.
Qed.

Lemma sqrt_sgn (x : double) :
  sqrt x = S754_nan \/ sqrt x = S754_zero true \/ sgn (sqrt x) = Some false.
Proof.
  unfold sqrt, SFsqrt.
  destruct x as [[] | [] | | [] mx ex]; auto.
  destruct (SFsqrt_core_binary prec emax (Zpos mx) ex) as [[mz ez] lz].
  destruct (binary_round_aux_sgn false mz ez lz) as [H | H]; auto.
Qed.

Lemma sqrt_of_negative (x : double) :
  x = S754_nan \/ sgn x = Some true ->
  sqrt x = S754_nan \/ sqrt x = S754_zero true.
Proof.
  intros [H | H]; [rewrite H; left; reflexivity|].
  destruct x as [[] | [] | | [] mx ex]; try discriminate; auto.
Qed.

Lemma magnitude_nonneg (m : positive) (e : Z) :
  0 <= (if 0 <=? e then Zpos m * 2 ^ e else Zpos m / 2 ^ (- e)).
Proof.
  destruct (Z.leb_spec 0 e).
  - apply Z.mul_nonneg_nonneg; [lia | apply Z.pow_nonneg; lia].
  - apply Z.div_pos; [lia | apply Z.pow_pos_nonneg; lia].
Qed.

Lemma int_of_double_nonneg (x : double) (z : Z) :
  sgn x <> Some true -> int_of_double x = Some z -> 0 <= z.
Proof.
  destruct x as [s | s | | s m e]; unfold int_of_double, sgn; intros Hs H;
    try discriminate.
  - injection H as H. lia.
  - destruct s; [congruence|]. unfold cond_Zopp in H.
    pose proof (magnitude_nonneg m e) as Hv.
    destruct (int_range _); [|discriminate]. injection H as H.
    rewrite <- H. exact Hv.
Qed.

Lemma binary_normalize_sgn (q : Z) (s : bool) :
  0 <= q ->
  binary_normalize prec emax q 0 s = S754_nan
  \/ binary_normalize prec emax q 0 s = S754_zero s
  \/ sgn (binary_normalize prec emax q 0 s) = Some false.
Proof.
  intros Hq. unfold binary_normalize. destruct q as [| p | p]; [auto | | lia].
  unfold binary_round. destruct (shl_align _ _ _) as [mz ez].
  destruct (binary_round_aux_sgn false (Zpos mz) ez loc_Exact) as [H | H];
    auto.
Qed.

(** A count that [round] and the conversion to [int] give for a number
    that is not negative is not negative. *)
Lemma int_round_nonneg (x : double) (z : Z) :
  sgn x <> Some true -> int_of_double (round x) = Some z -> 0 <= z.
Proof.
  destruct x as [s | s | | s m e]; unfold round; intros Hs H;
    try (now apply (int_of_double_nonneg _ z Hs)).
  destruct s; [exfalso; apply Hs; reflexivity|].
  destruct (Z.leb_spec 0 e) as [L | L];
    [now apply (int_of_double_nonneg _ z Hs)|].
  unfold cond_Zopp in H.
  assert (Hq : 0 <= (Zpos m + 2 ^ (- e - 1)) / 2 ^ (- e)).
  { apply Z.div_pos; [|apply Z.pow_pos_nonneg; lia].
    pose proof (Z.pow_nonneg 2 (- e - 1)). lia. }
  destruct (binary_normalize_sgn _ false Hq) as [E | [E | E]];
    rewrite E in H || (apply (int_of_double_nonneg _ z) in H; [exact H|]).
  - discriminate.
  - injection H as H. lia.
  - rewrite E. discriminate.
Qed.

Lemma int_round_nan_or_zero (x : double) (z : Z) :
  x = S754_nan \/ (exists s, x = S754_zero s) ->
  int_of_double (round x) = Some z -> z = 0.
Proof.
  intros [H | [s H]]; rewrite H; simpl; intros E;
    [discriminate | injection E as E; lia].
Qed.

(** A quotient by zero has no conversion to [int]. *)
Lemma floor_div_zero (x : double) :
  int_of_double (floor (ddiv x (double_of_Z 0))) = None.
Proof. destruct x as [s | s | | s m e]; reflexivity. Qed.

Lemma double_of_Z_not_negative (z : Z) :
  0 <= z -> sgn (double_of_Z z) <> Some true.
Proof.
  intros Hz. destruct (double_of_Z_sgn z) as [H | H]; rewrite H.
  - discriminate.
  - destruct (Z.ltb_spec z 0); [lia | discriminate].
Qed.

Lemma sqrt_of_product_nonpositive (c vw vh : Z) :
  c <= 0 -> 0 <= vw -> 0 <= vh ->
  let x := sqrt (ddiv (dmul (double_of_Z c) (double_of_Z vw))
                      (double_of_Z vh)) in
  x = S754_nan \/ exists s, x = S754_zero s.
Proof.
  intros Hc Hw Hh x.
  assert (Hq : ddiv (dmul (double_of_Z c) (double_of_Z vw)) (double_of_Z vh)
               = S754_nan
               \/ (exists s, ddiv (dmul (double_of_Z c) (double_of_Z vw))
                               (double_of_Z vh) = S754_zero s)
               \/ sgn (ddiv (dmul (double_of_Z c) (double_of_Z vw))
                          (double_of_Z vh)) = Some true).
  { pose proof (double_of_Z_not_negative vw Hw) as Sw.
    pose proof (double_of_Z_not_negative vh Hh) as Sh.
    destruct (Z.eq_dec c 0) as [E | E].
    - rewrite E. change (double_of_Z 0) with (S754_zero false).
      destruct (double_of_Z vw) as [a | a | | a mw ew],
        (double_of_Z vh) as [b | b | | b mh eh]; simpl; eauto.
    - assert (Sc : double_of_Z c = S754_nan \/ sgn (double_of_Z c) = Some true).
      { destruct (double_of_Z_sgn c) as [H | H]; [left; exact H | right].
        rewrite H. destruct (Z.ltb_spec c 0); [reflexivity | lia]. }
      destruct (ddiv_sgn (dmul (double_of_Z c) (double_of_Z vw))
                  (double_of_Z vh)) as [H | [a [b [Ha [Hb H]]]]];
        [left; exact H|].
      right; right. rewrite H.
      destruct b; [congruence|].
      destruct (dmul_sgn (double_of_Z c) (double_of_Z vw))
        as [H' | [a' [b' [Ha' [Hb' H']]]]].
      + rewrite H' in Ha. discriminate.
      + rewrite H' in Ha. destruct b'; [congruence|].
        destruct Sc as [Sc | Sc]; rewrite Sc in Ha'; [discriminate|].
        injection Ha' as <-. injection Ha as <-. reflexivity. }
  unfold x. destruct Hq as [H | [[s H] | H]].
  - rewrite H. left; reflexivity.
  - rewrite H. right. exists s. reflexivity.
  - destruct (sqrt_of_negative _ (or_intror H)) as [E | E]; rewrite E; eauto.
Qed.

(** Wherever the layout of a viewport has a value, there is at least one
    font to render and the counts of columns and rows are at least 1: the
    layouts with a zero count are the ones without a value. *)
Lemma layout_counts_positive (c vw vh : Z) (l : layout) :
  0 <= vw -> 0 <= vh ->
  grid_layout c vw vh = Some l ->
  1 <= c /\ 1 <= columns l /\ 1 <= rows l.
Proof.
  intros Hw Hh H. unfold grid_layout in H.
  destruct (int_of_double (round (sqrt _))) as [nw|] eqn:E1;
    cbn [option_bind] in H; [|discriminate].
  destruct (int_of_double (round (ddiv (double_of_Z c) _))) as [nh|] eqn:E2;
    cbn [option_bind] in H; [|discriminate].
  destruct (int_of_double (floor (ddiv (double_of_Z vw) _))) as [bw|] eqn:E3;
    cbn [option_bind] in H; [|discriminate].
  destruct (int_of_double (floor (ddiv (double_of_Z vh) _))) as [bh|] eqn:E4;
    cbn [option_bind] in H; [|discriminate].
  assert (Hl : columns l = nw /\ rows l = nh).
  { repeat match type of H with
           | option_bind ?o _ = Some _ =>
               destruct o; cbn [option_bind] in H; [|discriminate]
           end.
    injection H as H. subst l. split; reflexivity. }
  destruct Hl as [-> ->]. clear H.
  assert (Nw : nw <> 0).
  { intros E. rewrite E, floor_div_zero in E3. discriminate. }
  assert (Nh : nh <> 0).
  { intros E. rewrite E, floor_div_zero in E4. discriminate. }
  assert (Pc : 1 <= c).
  { destruct (Z_lt_le_dec 0 c) as [L | L]; [lia|]. exfalso. apply Nw.
    apply (int_round_nan_or_zero _ nw
             (sqrt_of_product_nonpositive c vw vh L Hw Hh) E1). }
  assert (Pw : 0 <= nw).
  { destruct (sqrt_sgn (ddiv (dmul (double_of_Z c) (double_of_Z vw))
                          (double_of_Z vh))) as [S | [S | S]].
    - rewrite S in E1. discriminate.
    - rewrite S in E1. injection E1 as E1. lia.
    - apply (int_round_nonneg _ nw) in E1; [exact E1|].
      rewrite S. discriminate. }
  assert (Ph : 0 <= nh).
  { apply (int_round_nonneg _ nh) in E2; [exact E2|].
    destruct (ddiv_sgn (double_of_Z c) (double_of_Z nw))
      as [S | [a [b [Ha [Hb S]]]]]; rewrite S; [discriminate|].
    pose proof (double_of_Z_not_negative c ltac:(lia)) as Sc.
    pose proof (double_of_Z_not_negative nw Pw) as Sn.
    destruct a; [congruence|]. destruct b; [congruence|]. discriminate. }
  lia.
Qed.

Lemma layout_counts_positive_witness :
  (0 <= 800 /\ 0 <= 564
   /\ grid_layout 5 800 564
      = Some {| columns := 3; rows := 2; cell_width := 266;
                cell_height := 282; name_band := 56; glyph_band := 226;
                name_area := 46; glyph_area := 216; area_width := 256 |})
  /\ 1 <= 5 /\ 1 <= 3 /\ 1 <= 2.
Proof.
  split; [repeat split; discriminate|].
  apply (layout_counts_positive 5 800 564
           {| columns := 3; rows := 2; cell_width := 266;
              cell_height := 282; name_band := 56; glyph_band := 226;
              name_area := 46; glyph_area := 216; area_width := 256 |});
    [discriminate | discriminate | reflexivity].
Defined.

(** ** A long token in hex form *)

Lemma all_chars_forallb (p : ascii -> bool) (s : string) :
  all_chars p s = forallb p (list_ascii_of_string s).
Proof. induction s as [| c s IH]; simpl; [reflexivity | now rewrite IH]. Qed.

Lemma forallb_firstn {A} (p : A -> bool) (n : nat) (l : list A) :
  forallb p l = true -> forallb p (firstn n l) = true.
Proof.
  revert l. induction n as [| n IH]; intros [| x l] H; simpl in *;
    try reflexivity.
  apply andb_true_iff in H. destruct H as [Hx Hl].
  now rewrite Hx, (IH l Hl).
Qed.

Lemma cstring_without_nul (l : buffer) :
  forallb (fun c => negb (c =? NUL)%char) l = true -> cstring l = None.
Proof.
  induction l as [| c l IH]; simpl; intros H; [reflexivity|].
  apply andb_true_iff in H. destruct H as [Hc Hl].
  apply negb_true_iff in Hc. rewrite Hc, (IH Hl). reflexivity.
Qed.

(** [strncpy] copies 11 characters of a token of 11 characters or more
    and no NUL: [global.hexchar] is left without a terminator, and reading
    it as a string runs past the array. *)
Lemma hexchar_of_long_hex_token (cchar : string) :
  c_string cchar = true ->
  is_hex_token cchar = true ->
  (11 <= String.length cchar)%nat ->
  cstring (store 1 "+" (store 0 "U" (strncpy cchar 11))) = None.
Proof.
  intros Hc Hx Hl.
  destruct (hex_token_prefix cchar Hx) as [c0 [c1 E]].
  set (rest := advance 2 cchar) in *. rewrite E in Hc, Hl |- *.
  simpl in Hl. unfold c_string in Hc. simpl in Hc.
  apply andb_true_iff in Hc. destruct Hc as [_ Hc].
  apply andb_true_iff in Hc. destruct Hc as [_ Hc].
  rewrite all_chars_forallb in Hc.
  unfold strncpy. simpl list_ascii_of_string.
  change (firstn 11 (c0 :: c1 :: list_ascii_of_string rest))
    with (c0 :: c1 :: firstn 9 (list_ascii_of_string rest)).
  assert (Hlen : List.length (firstn 9 (list_ascii_of_string rest)) = 9%nat)
    by (apply firstn_length_le; rewrite length_list_ascii; lia).
  pose proof (cstring_without_nul _ (forallb_firstn _ 9 _ Hc)) as Hn.
  set (f := firstn 9 (list_ascii_of_string rest)) in *.
  change (List.length (c0 :: c1 :: f)) with (S (S (List.length f))).
  rewrite Hlen. simpl. rewrite app_nil_r, Hn. reflexivity.
Qed.

Lemma hexchar_of_long_hex_token_witness :
  (c_string "0x000000041" = true
   /\ is_hex_token "0x000000041" = true
   /\ (11 <= String.length "0x000000041")%nat)
  /\ cstring (store 1 "+" (store 0 "U" (strncpy "0x000000041" 11))) = None
  /\ outcome (initialize_x11 (sample_world [] 1 (iconv_ok 65) [])
                {| args := args0;
                   global := set_hexchar
                               (store 1 "+"
                                  (store 0 "U" (strncpy "0x000000041" 11)))
                               global0;
                   out := [] |}) = None.
Proof.
  split; [repeat split; simpl; lia|]. split; [|reflexivity].
  apply (hexchar_of_long_hex_token "0x000000041");
    [reflexivity | reflexivity | simpl; lia].
Defined.

(** ** What the display leaves alone *)

Lemma same_fonts_refl (m : machine) : same_fonts m m.
Proof.
  repeat split. exists []. split; [now rewrite app_nil_r | reflexivity].
Qed.

Lemma same_fonts_trans (m1 m2 m3 : machine) :
  same_fonts m1 m2 -> same_fonts m2 m3 -> same_fonts m1 m3.
Proof.
  intros [A1 [F1 [C1 [H1 [I1 [es1 [O1 Q1]]]]]]]
         [A2 [F2 [C2 [H2 [I2 [es2 [O2 Q2]]]]]]].
  repeat split; try congruence.
  exists (es1 ++ es2)%list. split.
  - rewrite O2, O1. now rewrite app_assoc.
  - unfold queries in *. now rewrite filter_app, Q1, Q2.
Qed.

Lemma display_only_ret {A} (a : A) : display_only (ret a).
Proof. intros m a' m' H. injection H as _ <-. apply same_fonts_refl. Qed.

Lemma display_only_undefined {A} : display_only (@undefined A).
Proof. intros m a m' H. discriminate. Qed.

Lemma display_only_bind {A B} (c : C A) (k : A -> C B) :
  display_only c -> (forall a, display_only (k a)) -> display_only (bind c k).
Proof.
  intros Hc Hk m b m' H. unfold bind in H.
  destruct (c m) as [a m1|] eqn:E; [|discriminate].
  exact (same_fonts_trans _ _ _ (Hc _ _ _ E) (Hk a _ _ _ H)).
Qed.

Lemma display_only_emit (e : event) :
  is_query e = false -> display_only (emit e).
Proof.
  intros He m a m' H. injection H as _ <-. repeat split.
  exists [e]. split; [reflexivity|]. unfold queries. simpl. now rewrite He.
Qed.

Lemma display_only_get_args : display_only get_args.
Proof. intros m a m' H. injection H as _ <-. apply same_fonts_refl. Qed.

Lemma display_only_get_global : display_only get_global.
Proof. intros m a m' H. injection H as _ <-. apply same_fonts_refl. Qed.

Lemma display_only_int (z : Z) : display_only (int z).
Proof.
  unfold int. destruct (int_range z);
    [apply display_only_ret | apply display_only_undefined].
Qed.

Lemma display_only_defined {A} (o : option A) : display_only (defined o).
Proof.
  destruct o; [apply display_only_ret | apply display_only_undefined].
Qed.

Lemma display_only_DBG (fmt : string) (a : list fmt_arg) :
  display_only (DBG fmt a).
Proof.
  unfold DBG. apply display_only_bind; [apply display_only_get_args|].
  intros ar. destruct (debug ar =? 0);
    [apply display_only_ret | now apply display_only_emit].
Qed.

Lemma display_only_DBG_P (fmt : string) (a : list fmt_arg) :
  display_only (DBG_P fmt a).
Proof.
  unfold DBG_P. apply display_only_bind; [apply display_only_get_args|].
  intros ar. destruct (debug ar =? 0); [apply display_only_ret|].
  apply display_only_bind; [now apply display_only_emit|].
  intros _. now apply display_only_emit.
Qed.

(** The three fields of [global] that the display writes. *)
Lemma display_only_assign (f : global_t -> global_t) :
  (forall g, fs (f g) = fs g /\ character (f g) = character g
             /\ hexchar (f g) = hexchar g /\ info (f g) = info g) ->
  display_only (assign_global f).
Proof.
  intros Hf m a m' H. injection H as _ <-.
  destruct (Hf (global m)) as [F [Ch [Hx I]]].
  unfold same_fonts. simpl. repeat split; try assumption.
  exists []. split; [now rewrite app_nil_r | reflexivity].
Qed.

Lemma display_only_set_quitdims (q : Z * Z * Z * Z) :
  display_only (assign_global (set_quitdims q)).
Proof. apply display_only_assign. intros g. repeat split. Qed.

Lemma display_only_set_dirty (v : Z) :
  display_only (assign_global (set_dirty v)).
Proof. apply display_only_assign. intros g. repeat split. Qed.

Lemma display_only_set_lastpaint (v : double) :
  display_only (assign_global (set_lastpaint v)).
Proof. apply display_only_assign. intros g. repeat split. Qed.

Lemma display_only_c_rem (a b : Z) : display_only (c_rem a b).
Proof.
  unfold c_rem. destruct (b =? 0);
    [apply display_only_undefined | apply display_only_ret].
Qed.

Lemma display_only_c_quot (a b : Z) : display_only (c_quot a b).
Proof.
  unfold c_quot. destruct (b =? 0);
    [apply display_only_undefined | apply display_only_ret].
Qed.

Create HintDb display discriminated.
#[local] Hint Resolve display_only_ret display_only_undefined
  display_only_get_args display_only_get_global display_only_int
  display_only_defined display_only_DBG display_only_DBG_P
  display_only_set_quitdims display_only_set_dirty
  display_only_set_lastpaint display_only_c_rem display_only_c_quot
  : display.
#[local] Hint Extern 1 (display_only (bind _ _)) =>
  apply display_only_bind; [|intro] : display.
#[local] Hint Extern 1 (display_only (emit _)) =>
  apply display_only_emit; reflexivity : display.
#[local] Hint Extern 2 (display_only (if ?b then _ else _)) =>
  destruct b : display.
#[local] Hint Extern 2 (display_only (match ?x with _ => _ end)) =>
  destruct x : display.

Lemma display_only_grid_cell (w : World) (fnfont : XftFont)
    (nw bw bh fh frh crh cw yoffset i : Z) :
  display_only (grid_cell w fnfont nw bw bh fh frh crh cw yoffset i).
Proof. unfold grid_cell. auto 40 with display. Qed.

Lemma display_only_grid_loop (cell : Z -> C unit) (n : nat) :
  (forall i, display_only (cell i)) ->
  forall i, display_only (grid_loop cell n i).
Proof.
  intros Hc. induction n as [| n IH]; intros i; simpl;
    auto with display.
Qed.

Lemma display_only_gen_scale_title_font (w : World) (family : string)
    (bw bh : Z) :
  display_only (gen_scale_title_font w family bw bh).
Proof. unfold gen_scale_title_font. auto 10 with display. Qed.

Lemma display_only_generate_grid (w : World) (vw vh yoffset : Z) :
  display_only (generate_grid w vw vh yoffset).
Proof.
  unfold generate_grid.
  pose proof (display_only_gen_scale_title_font w) as Ht.
  pose proof (display_only_grid_cell w) as Hc.
  pose proof display_only_grid_loop as Hl.
  auto 40 with display.
Qed.

Lemma display_only_title_text (lead : string) : display_only (title_text lead).
Proof. unfold title_text. auto 10 with display. Qed.

Lemma display_only_initialize_x11 (w : World) : display_only (initialize_x11 w).
Proof.
  unfold initialize_x11. pose proof display_only_title_text as Ht.
  auto 20 with display.
Qed.

Lemma display_only_paint_window (w : World) (t : tick) :
  display_only (paint_window w t).
Proof.
  unfold paint_window. pose proof display_only_title_text as Ht.
  pose proof (display_only_generate_grid w) as Hg.
  auto 40 with display.
Qed.

Lemma display_only_maybe_paint_window (w : World) (t : tick) :
  display_only (maybe_paint_window w t).
Proof.
  unfold maybe_paint_window. pose proof (display_only_paint_window w t) as Hp.
  auto 20 with display.
Qed.

Lemma display_only_check_quit_bounds (x y : Z) :
  display_only (check_quit_bounds x y).
Proof.
  unfold check_quit_bounds.
  apply display_only_bind; [apply display_only_get_global|]. intros g.
  destruct (quitdims g) as [[[q0 q1] q2] q3]. auto 10 with display.
Qed.

Lemma display_only_event_loop (w : World) (ts : list tick) :
  forall quitclicked, display_only (event_loop w ts quitclicked).
Proof.
  pose proof (display_only_maybe_paint_window w) as Hm.
  pose proof display_only_check_quit_bounds as Hq.
  induction ts as [| t ts IH]; intros quitclicked; simpl;
    [apply display_only_ret|].
  destruct (next_event t) as [[| x y | x y | type]|];
    auto 20 with display.
Qed.

(** The display reads the flags, the character and the font set and
    never writes them, and it never asks for the fonts again. *)
Lemma display_only_show_window (w : World) : display_only (show_window w).
Proof.
  unfold show_window, close_x11.
  pose proof (display_only_initialize_x11 w) as Hi.
  pose proof (display_only_event_loop w) as He.
  auto 20 with display.
Qed.

(** ** The event loop *)

(** The flag that a button press inside the quit button sets is never
    read: the loop runs the same whatever its value. *)
Lemma event_loop_ignores_quitclicked (w : World) (ts : list tick) :
  forall (q q' : Z) (m : machine),
    event_loop w ts q m = event_loop w ts q' m.
Proof.
  induction ts as [| t ts IH]; intros q q' m; simpl; [reflexivity|].
  destruct (next_event t) as [[| x y | x y | type]|]; unfold bind.
  - destruct (DBG _ _ m) as [u m1|]; [|reflexivity].
    destruct (assign_global _ m1) as [u2 m2|]; [|reflexivity].
    destruct (maybe_paint_window w t m2) as [u3 m3|]; [|reflexivity].
    apply IH.
  - destruct (check_quit_bounds x y m) as [b m1|]; [|reflexivity].
    apply IH.
  - reflexivity.
  - reflexivity.
  - destruct (DBG _ _ m) as [u m1|]; [|reflexivity].
    destruct (maybe_paint_window w t m1) as [u3 m3|]; [|reflexivity].
    apply IH.
Qed.

(** Timeouts, exposures and button presses never end the loop: it is
    left only by a button release or by an event it does not handle. *)
Lemma event_loop_stays (w : World) (ts : list tick) :
  forallb (fun t => negb (may_quit t)) ts = true ->
  forall (q : Z) (m m' : machine) (left : bool),
    event_loop w ts q m = Ok left m' -> left = false.
Proof.
  induction ts as [| t ts IH]; intros Hts q m m' left H; simpl in *.
  - injection H as <- _. reflexivity.
  - apply andb_true_iff in Hts. destruct Hts as [Ht Hts].
    unfold may_quit in Ht.
    destruct (next_event t) as [[| x y | x y | type]|]; try discriminate;
      unfold bind in H.
    + destruct (DBG _ _ m) as [u m1|]; [|discriminate].
      destruct (assign_global _ m1) as [u2 m2|]; [|discriminate].
      destruct (maybe_paint_window w t m2) as [u3 m3|]; [|discriminate].
      exact (IH Hts _ _ _ _ H).
    + destruct (check_quit_bounds x y m) as [b m1|]; [|discriminate].
      exact (IH Hts _ _ _ _ H).
    + destruct (DBG _ _ m) as [u m1|]; [|discriminate].
      destruct (maybe_paint_window w t m1) as [u3 m3|]; [|discriminate].
      exact (IH Hts _ _ _ _ H).
Qed.

(** ** The text that [main] prints *)

(** The printing loop writes the families of the first [n] fonts in the
    order of the set; at the first font whose family cannot be formatted
    it writes the error message instead and makes [main] return 1. *)
Lemma print_families_lines (n : nat) :
  forall (l : list FcPattern) (m : machine),
    (n <= List.length l)%nat ->
    print_families n l m
    = Ok (if existsb unformatted (firstn n l) then 1 else 0)
         (emitted (family_lines n l) m).
Proof.
  induction n as [| n IH]; intros l m Hn.
  - simpl. now rewrite emitted_nil.
  - destruct l as [| p l]; [simpl in Hn; lia|]. simpl in Hn.
    simpl. unfold unformatted at 1.
    destruct (FcPatternFormat p) as [f|]; simpl.
    + unfold say, bind at 1. rewrite emit_emitted.
      rewrite (IH l _ ltac:(lia)), emitted_app. reflexivity.
    + reflexivity.
Qed.

Lemma print_count_in_range (a : args_t) (g : global_t) :
  (Z.to_nat (print_count a g) <= List.length (fs g))%nat.
Proof.
  unfold print_count, nfont.
  destruct ((0 <? maxfonts a) && (maxfonts a <? Z.of_nat (List.length (fs g))))
    eqn:E; [|lia].
  apply andb_true_iff in E. destruct E as [E1 E2].
  apply Z.ltb_lt in E1, E2. lia.
Qed.

(** After the window is gone [main] prints the name, then the
    annotation, then the families, each only when it was asked for, and
    changes nothing else; its status is 1 exactly when the list was asked
    for and one of the fonts to print has no family name. *)
Lemma report_output (m : machine) :
  let a := args m in
  let g := global m in
  let n := Z.to_nat (print_count a g) in
  report m
  = Ok (if negb (printfonts a =? 0) && existsb unformatted (firstn n (fs g))
        then 1 else 0)
       (emitted (name_lines a (info g) ++ annot_lines a (info g)
                 ++ (if printfonts a =? 0 then [] else family_lines n (fs g)))
          m).
Proof.
  intros a g n. unfold report, bind at 1 2, get_args, get_global.
  fold a g.
  assert (Hname : (if negb (showname a =? 0)
                   then match name (info g) with
                        | Some n0 => say ("Name: " ++ n0)
                        | None => say "Name lookup failed."
                        end
                   else ret tt) m
                  = Ok tt (emitted (name_lines a (info g)) m)).
  { unfold name_lines. destruct (showname a =? 0); simpl.
    - now rewrite emitted_nil.
    - destruct (name (info g)); reflexivity. }
  rewrite (bind_Ok _ _ _ _ _ Hname).
  assert (Hannot : forall m1,
             (if negb (showannot a =? 0)
              then match annot (info g) with
                   | Some s => say s
                   | None => say "Annotation lookup failed."
                   end
              else ret tt) m1
             = Ok tt (emitted (annot_lines a (info g)) m1)).
  { intros m1. unfold annot_lines. destruct (showannot a =? 0); simpl.
    - now rewrite emitted_nil.
    - destruct (annot (info g)); reflexivity. }
  rewrite (bind_Ok _ _ _ _ _ (Hannot _)).
  rewrite emitted_app.
  destruct (printfonts a =? 0); simpl.
  - unfold ret. rewrite app_nil_r. reflexivity.
  - rewrite print_families_lines by apply print_count_in_range.
    fold n. rewrite emitted_app, <- app_assoc. reflexivity.
Qed.

(** ** The stages of a run *)

Lemma text_no_query (es : list event) :
  forallb is_text es = true -> queries es = [].
Proof.
  induction es as [| e es IH]; simpl; intros H; [reflexivity|].
  apply andb_true_iff in H. destruct H as [He Hes].
  destruct e; try discriminate; simpl; exact (IH Hes).
Qed.

Lemma family_lines_text (n : nat) :
  forall l, forallb is_text (family_lines n l) = true.
Proof.
  induction n as [| n IH]; intros [| p l]; simpl; try reflexivity.
  destruct (FcPatternFormat p); simpl; [apply IH | reflexivity].
Qed.

Lemma report_lines_text (a : args_t) (g : global_t) (n : nat) :
  forallb is_text
    (name_lines a (info g) ++ annot_lines a (info g)
     ++ (if printfonts a =? 0 then [] else family_lines n (fs g))) = true.
Proof.
  rewrite !forallb_app. unfold name_lines, annot_lines.
  destruct (showname a =? 0), (showannot a =? 0), (printfonts a =? 0),
    (name (info g)), (annot (info g)); simpl;
    try reflexivity; apply family_lines_text.
Qed.

Lemma display_only_report : display_only report.
Proof.
  intros m s m' H. rewrite report_output in H. injection H as _ <-.
  unfold same_fonts, emitted. simpl. repeat split.
  eexists. split; [reflexivity|].
  apply text_no_query, report_lines_text.
Qed.

Lemma display_only_finish (w : World) : display_only (finish w).
Proof.
  unfold finish. apply display_only_bind; [apply display_only_show_window|].
  intros [|]; [|apply display_only_ret].
  apply display_only_bind; [apply display_only_report|].
  intros s. apply display_only_ret.
Qed.

(** [parse_arguments] leaves [global] alone and writes nothing but the
    usage text, and the option for the list of fonts never goes without
    the one for fixed-size fonts. *)
Lemma parse_loop_frame (w : World) (argc : Z) (argv0 : string)
    (rs : list getopt_ret) :
  forall (m m' : machine) (i : Z),
    parse_loop w argc argv0 rs m = Ok i m' ->
    global m' = global m
    /\ (exists es, out m' = (out m ++ es)%list /\ forallb is_text es = true)
    /\ ((printfonts (args m) <> 0 -> fixed (args m) <> 0) ->
        printfonts (args m') <> 0 -> fixed (args m') <> 0).
Proof.
  assert (Hd : forall argc oi m m' i,
             switch_default argc oi m = Ok i m' -> m' = m).
  { intros c oi m m' i H. unfold switch_default in H.
    destruct (oi <? c); injection H as _ <-; reflexivity. }
  induction rs as [| r rs IH]; intros m m' i H; simpl in H.
  - apply Hd in H. subst m'. repeat split; [|tauto].
    exists []. split; [now rewrite app_nil_r | reflexivity].
  - destruct (opt_c r =? code "h").
    { unfold bind at 1 in H. rewrite print_usage_lines in H.
      injection H as _ <-. simpl. repeat split; [|tauto].
      eexists. split; reflexivity. }
    repeat match type of H with
           | (if ?b then _ else _) _ = _ =>
               destruct b;
               [apply IH in H; simpl in H;
                destruct H as [Hg [He Hi]];
                repeat split; try assumption;
                intros H0; apply Hi; try (intros _; discriminate);
                exact H0 |]
           end.
    apply Hd in H. subst m'. repeat split; [|tauto].
    exists []. split; [now rewrite app_nil_r | reflexivity].
Qed.

Lemma text_only_parse_character (w : World) (cchar : string) :
  text_only (parse_character w cchar).
Proof.
  intros m r m' H.
  destruct (is_hex_token cchar) eqn:Hx.
  - rewrite (parse_character_hex w cchar m Hx) in H. injection H as _ <-.
    simpl. repeat split. exists []. split; [now rewrite app_nil_r|reflexivity].
  - rewrite (parse_character_literal w cchar m Hx) in H.
    destruct (iconv_open w) as [e|] eqn:Ho.
    + unfold convert_char, bind in H. rewrite Ho in H. simpl in H.
      injection H as _ <-. simpl. repeat split.
      eexists. split; reflexivity.
    + rewrite (bind_Ok _ _ _ _ _ (convert_char_opened w cchar 11 m Ho)) in H.
      destruct (read_uint32 (iconv_outbuf (iconv w cchar)) =? 0); simpl in H;
        injection H as _ <-; simpl; repeat split.
      * rewrite <- app_assoc. eexists. split; reflexivity.
      * eexists. split; reflexivity.
Qed.

(** A run that comes to an end either stops after the options, for want
    of a character, or goes through the four stages in their order:
    options, character, fonts, and the window with the text after it. *)
Lemma run_stages (w : World) (argv : list string) (r : option Z)
    (m : machine) :
  run w argv = Ok r m ->
  exists i m1,
    parse_arguments w argv machine0 = Ok i m1
    /\ ((i < 0 /\ r = Some 1 /\ m = emitted [must_supply] m1)
        \/ (0 <= i
            /\ exists cchar r2 m2 m3,
                 nth_error argv (Z.to_nat i) = Some cchar
                 /\ parse_character w cchar m1 = Ok r2 m2
                 /\ generate_fontset w m2 = Ok 0 m3
                 /\ finish w m3 = Ok r m)).
Proof.
  unfold run, main. intros H. unfold bind at 1 in H.
  destruct (parse_arguments w argv machine0) as [i m1|] eqn:Ep;
    [|discriminate].
  exists i, m1. split; [reflexivity|].
  destruct (Z.ltb_spec i 0).
  - left. injection H as <- <-. repeat split. exact H0.
  - right. split; [exact H0|]. unfold bind at 1 in H.
    destruct (nth_error argv (Z.to_nat i)) as [cchar|]; [|discriminate].
    simpl in H. unfold bind at 1 in H.
    destruct (parse_character w cchar m1) as [r2 m2|] eqn:Ec; [|discriminate].
    rewrite (bind_Ok _ _ _ _ _ (generate_fontset_query w m2)) in H.
    exists cchar, r2, m2. eexists.
    split; [reflexivity|]. split; [exact Ec|].
    split; [apply generate_fontset_query | exact H].
Qed.

(** ** One query of the font set *)

(** Every run asks for the fonts at most once, after the options and
    the character are read: when it does, the query is made for the
    character and with the flags that the run ends with, and the font set
    that the window shows and the list prints is the answer to it. *)
Lemma one_query_per_run (w : World) (argv : list string)
    (r : option Z) (m : machine) :
  run w argv = Ok r m ->
  (r = Some 1 /\ queries (out m) = [])
  \/ (queries (out m)
      = [EFcFontList (fixed (args m) =? 0) (character (global m))]
      /\ fs (global m)
         = FcFontList w (fixed (args m) =? 0) (character (global m))).
Proof.
  intros H. destruct (run_stages w argv r m H) as [i [m1 [Ep Hs]]].
  destruct (parse_loop_frame _ _ _ _ _ _ _ Ep) as [_ [[es1 [O1 Q1]] _]].
  simpl in O1. apply text_no_query in Q1.
  destruct Hs as [[_ [-> ->]] | [_ [cchar [r2 [m2 [m3 [_ [Ec [Eg Ef]]]]]]]]].
  - left. split; [reflexivity|]. simpl. unfold queries in *.
    rewrite O1, filter_app, Q1. reflexivity.
  - right.
    destruct (text_only_parse_character w cchar _ _ _ Ec)
      as [_ [_ [es2 [O2 Q2]]]]. apply text_no_query in Q2.
    rewrite generate_fontset_query in Eg. injection Eg as <-.
    destruct (display_only_finish w _ _ _ Ef)
      as [A [F [Ch [_ [_ [es3 [O3 Q3]]]]]]].
    simpl in A, F, Ch, O3. rewrite A, Ch. split; [|exact F].
    rewrite O3, O2, O1. unfold queries in *.
    rewrite !filter_app, Q1, Q2, Q3. reflexivity.
Qed.

Lemma one_query_per_run_witness :
  exists m,
    run (sample_world [opt "p" "" 2] 2 (iconv_ok 65)
           [turn None 0 800 600; turn (Some (ButtonRelease 6 6)) 150 800 600])
      ["fc-char"; "-p"; "0x41"]%string = Ok (Some 0) m
    /\ ((Some 0 = Some 1 /\ queries (out m) = [])
        \/ (queries (out m)
            = [EFcFontList (fixed (args m) =? 0) (character (global m))]
            /\ fs (global m) = five_fonts)).
Proof.
  eexists. split; [vm_compute; reflexivity|].
  apply (one_query_per_run
           (sample_world [opt "p" "" 2] 2 (iconv_ok 65)
              [turn None 0 800 600;
               turn (Some (ButtonRelease 6 6)) 150 800 600])
           ["fc-char"; "-p"; "0x41"]%string).
  vm_compute; reflexivity.
Defined.

(** The flags of a run are those that [parse_arguments] left. *)
Lemma run_args (w : World) (argv : list string) (r : option Z) (m : machine) :
  run w argv = Ok r m ->
  exists i m1,
    parse_arguments w argv machine0 = Ok i m1 /\ args m = args m1.
Proof.
  intros H. destruct (run_stages w argv r m H) as [i [m1 [Ep Hs]]].
  exists i, m1. split; [exact Ep|].
  destruct Hs as [[_ [_ ->]] | [_ [cchar [r2 [m2 [m3 [_ [Ec [Eg Ef]]]]]]]]].
  - reflexivity.
  - destruct (text_only_parse_character w cchar _ _ _ Ec) as [A2 _].
    rewrite generate_fontset_query in Eg. injection Eg as <-.
    destruct (display_only_finish w _ _ _ Ef) as [A3 _].
    simpl in A3. congruence.
Qed.

(** Whatever the options are, a run that has the flag for the list of
    fonts set has the flag for fixed-size fonts set too: a list is never
    printed for a match that was held to scalable fonts. *)
Lemma printed_list_is_never_scalable_only (w : World) (argv : list string)
    (r : option Z) (m : machine) :
  run w argv = Ok r m ->
  printfonts (args m) <> 0 ->
  (fixed (args m) =? 0) = false.
Proof.
  intros H Hp. destruct (run_args w argv r m H) as [i [m1 [Ep A]]].
  destruct (parse_loop_frame _ _ _ _ _ _ _ Ep) as [_ [_ Hi]].
  rewrite A in *. apply Z.eqb_neq. apply Hi; [|exact Hp].
  intros H0. exfalso. apply H0. reflexivity.
Qed.

Lemma printed_list_is_never_scalable_only_witness :
  exists m,
    run (sample_world [opt "N" "" 2; opt "p" "" 3] 3 (iconv_ok 65) [])
      ["fc-char"; "-N"; "-p"; "0x41"]%string = Ok (Some 0) m
    /\ printfonts (args m) = 1
    /\ (fixed (args m) =? 0) = false.
Proof.
  eexists. split; [vm_compute; reflexivity|]. split; [reflexivity|].
  apply (printed_list_is_never_scalable_only
           (sample_world [opt "N" "" 2; opt "p" "" 3] 3 (iconv_ok 65) [])
           ["fc-char"; "-N"; "-p"; "0x41"]%string (Some 0));
    [vm_compute; reflexivity | discriminate].
Defined.



(** With the window switched off the run makes no call of X11: all it
    does is write text and ask for the fonts. *)
Lemma nodisplay_makes_no_x11_call (w : World) (argv : list string)
    (r : option Z) (m : machine) :
  run w argv = Ok r m ->
  display (args m) = 0 ->
  forallb (fun e => is_text e || is_query e) (out m) = true.
Proof.
  intros H Hd. destruct (run_stages w argv r m H) as [i [m1 [Ep Hs]]].
  destruct (parse_loop_frame _ _ _ _ _ _ _ Ep) as [_ [[es1 [O1 T1]] _]].
  simpl in O1.
  assert (Ht : forall es, forallb is_text es = true ->
                          forallb (fun e => is_text e || is_query e) es = true).
  { induction es as [| e es IH]; simpl; intros He; [reflexivity|].
    apply andb_true_iff in He. destruct He as [He Hes].
    now rewrite He, (IH Hes). }
  destruct Hs as [[_ [_ ->]] | [_ [cchar [r2 [m2 [m3 [_ [Ec [Eg Ef]]]]]]]]].
  - simpl. rewrite O1, forallb_app, (Ht _ T1). reflexivity.
  - destruct (text_only_parse_character w cchar _ _ _ Ec)
      as [_ [_ [es2 [O2 T2]]]].
    rewrite generate_fontset_query in Eg. injection Eg as <-.
    destruct (display_only_finish w _ _ _ Ef) as [A3 _]. simpl in A3.
    unfold finish, show_window, bind at 1 2, get_args in Ef.
    cbn [args] in Ef. rewrite <- A3, Hd in Ef. simpl in Ef.
    unfold bind at 1 in Ef. rewrite report_output in Ef.
    injection Ef as _ <-. cbn [out emitted].
    rewrite O2, O1, !forallb_app, (Ht _ T1), (Ht _ T2).
    cbn [forallb is_text is_query orb andb].
    rewrite <- !forallb_app. apply Ht.
    match goal with
    | |- context [print_count _ ?g] => exact (report_lines_text _ g _)
    end.
Qed.

Lemma nodisplay_makes_no_x11_call_witness :
  exists m,
    run (sample_world [opt "N" "" 2; opt "p" "" 3] 3 (iconv_ok 65) [])
      ["fc-char"; "-N"; "-p"; "0x41"]%string = Ok (Some 0) m
    /\ display (args m) = 0
    /\ forallb (fun e => is_text e || is_query e) (out m) = true.
Proof.
  eexists. split; [vm_compute; reflexivity|]. split; [reflexivity|].
  apply (nodisplay_makes_no_x11_call
           (sample_world [opt "N" "" 2; opt "p" "" 3] 3 (iconv_ok 65) [])
           ["fc-char"; "-N"; "-p"; "0x41"]%string (Some 0));
    [vm_compute; reflexivity | reflexivity].
Defined.

(** The window reads the flags, the character, its display form, its
    name and the font set and never writes them, and it never asks for the
    fonts again, whatever the events are. *)
Lemma show_window_keeps_fonts (w : World) (m m' : machine) (over : bool) :
  show_window w m = Ok over m' ->
  args m' = args m
  /\ fs (global m') = fs (global m)
  /\ character (global m') = character (global m)
  /\ hexchar (global m') = hexchar (global m)
  /\ info (global m') = info (global m)
  /\ exists es, out m' = (out m ++ es)%list /\ queries es = [].
Proof.
  intros H. exact (display_only_show_window w m over m' H).
Qed.

Lemma show_window_keeps_fonts_witness :
  exists m',
    show_window
      (sample_world [] 1 (iconv_ok 65)
         [turn None 0 800 600; turn (Some (ButtonRelease 6 6)) 150 800 600])
      (sample_machine 2) = Ok true m'
    /\ args m' = args (sample_machine 2)
    /\ fs (global m') = fs (global (sample_machine 2))
    /\ character (global m') = character (global (sample_machine 2))
    /\ hexchar (global m') = hexchar (global (sample_machine 2))
    /\ info (global m') = info (global (sample_machine 2))
    /\ exists es, out m' = (out (sample_machine 2) ++ es)%list
                  /\ queries es = [].
Proof.
  eexists. split; [vm_compute; reflexivity|].
  apply (show_window_keeps_fonts
           (sample_world [] 1 (iconv_ok 65)
              [turn None 0 800 600;
               turn (Some (ButtonRelease 6 6)) 150 800 600])
           (sample_machine 2) _ true).
  vm_compute; reflexivity.
Defined.

Lemma event_loop_stays_witness :
  forallb (fun t => negb (may_quit t))
    [turn None 0 800 600; turn (Some Expose) 50 800 600;
     turn (Some (ButtonPress 6 6)) 60 800 600] = true
  /\ exists m',
       event_loop (sample_world [] 1 (iconv_ok 65) [])
         [turn None 0 800 600; turn (Some Expose) 50 800 600;
          turn (Some (ButtonPress 6 6)) 60 800 600] 0 (sample_machine 0)
       = Ok false m'.
Proof.
  split; [reflexivity|].
  destruct (event_loop (sample_world [] 1 (iconv_ok 65) [])
              [turn None 0 800 600; turn (Some Expose) 50 800 600;
               turn (Some (ButtonPress 6 6)) 60 800 600] 0 (sample_machine 0))
    as [left m'|] eqn:E; [|vm_compute in E; discriminate E].
  exists m'.
  rewrite (event_loop_stays (sample_world [] 1 (iconv_ok 65) [])
             [turn None 0 800 600; turn (Some Expose) 50 800 600;
              turn (Some (ButtonPress 6 6)) 60 800 600] eq_refl
             0 (sample_machine 0) m' left E).
  reflexivity.
Defined.

(** ** Stepping through a function *)

Lemma bind_inv {A B} (c : C A) (k : A -> C B) (m m' : machine) (b : B) :
  bind c k m = Ok b m' -> exists a m1, c m = Ok a m1 /\ k a m1 = Ok b m'.
Proof.
  unfold bind. destruct (c m) as [a m1|]; [|discriminate].
  intros H. now exists a, m1.
Qed.

Lemma int_inv (z a : Z) (m m1 : machine) :
  int z m = Ok a m1 -> a = z /\ m1 = m.
Proof.
  unfold int. destruct (int_range z); [|discriminate].
  intros H. injection H as <- <-. now split.
Qed.

Lemma defined_inv {A} (o : option A) (a : A) (m m1 : machine) :
  defined o m = Ok a m1 -> o = Some a /\ m1 = m.
Proof.
  destruct o; [|discriminate]. intros H. injection H as <- <-. now split.
Qed.

Lemma c_rem_inv (x y r : Z) (m m1 : machine) :
  c_rem x y m = Ok r m1 -> r = Z.rem x y /\ m1 = m.
Proof.
  unfold c_rem. destruct (y =? 0); [discriminate|].
  intros H. injection H as <- <-. now split.
Qed.

Lemma c_quot_inv (x y r : Z) (m m1 : machine) :
  c_quot x y m = Ok r m1 -> r = Z.quot x y /\ m1 = m.
Proof.
  unfold c_quot. destruct (y =? 0); [discriminate|].
  intros H. injection H as <- <-. now split.
Qed.

Lemma DBG_P_lines (fmt : string) (a : list fmt_arg) (m : machine) :
  DBG_P fmt a m
  = Ok tt (emitted (if debug (args m) =? 0 then []
                    else [EXFlush; StderrF fmt a]) m).
Proof.
  unfold DBG_P, bind, get_args.
  destruct (debug (args m) =? 0); [now rewrite emitted_nil|].
  unfold emit, emitted. cbn [args global out].
  now rewrite <- app_assoc.
Qed.

Lemma pick_app {A} (f : event -> option A) (es es' : list event) :
  pick f (es ++ es') = (pick f es ++ pick f es')%list.
Proof.
  induction es as [| e es IH]; simpl; [reflexivity|].
  destruct (f e); simpl; now rewrite IH.
Qed.

Lemma pick_log {A} (f : event -> option A) (es : list event) :
  (forall fmt a, f (StderrF fmt a) = None) ->
  forallb is_log es = true -> pick f es = [].
Proof.
  intros Hf. induction es as [| e es IH]; simpl; [reflexivity|].
  intros H. apply andb_true_iff in H. destruct H as [He Hes].
  destruct e; try discriminate. rewrite Hf. now apply IH.
Qed.

(** ** The cells of the grid *)

(** One turn of the loop of [generate_grid] draws the box of the cell,
    the family name of the font [i] and the character in that family at
    the pixel size [crh], and leaves the state of the program as it
    is. *)
Lemma grid_cell_draws (w : World) (fnfont : XftFont)
    (nw bw bh fh frh crh cw yoffset i : Z) (m m' : machine) :
  grid_cell w fnfont nw bw bh fh frh crh cw yoffset i m = Ok tt m' ->
  args m' = args m /\ global m' = global m
  /\ exists p fam es,
       nth_error (fs (global m)) (Z.to_nat i) = Some p
       /\ FcPatternFormat p = Some fam
       /\ out m' = (out m ++ es)%list
       /\ pick rectangle_of es = [cell_box nw bw bh yoffset i]
       /\ pick text_of es = [fam]
       /\ pick glyph_of es = [(fam, crh, character (global m))].
Proof.
  unfold grid_cell. intros H.
  repeat (apply bind_inv in H; destruct H as (? & ? & H1 & H);
          cbv beta zeta in H;
          first [ apply int_inv in H1; destruct H1 as [-> ->]
                | apply defined_inv in H1;
                  (let E := fresh "E" in destruct H1 as [E ->])
                | apply c_rem_inv in H1; destruct H1 as [-> ->]
                | apply c_quot_inv in H1; destruct H1 as [-> ->]
                | rewrite DBG_lines in H1; injection H1 as _ <-
                | rewrite DBG_P_lines in H1; injection H1 as _ <-
                | rewrite emit_emitted in H1; injection H1 as _ <-
                | unfold get_global in H1; injection H1 as <- <- ]).
  rewrite emit_emitted in H. injection H as <-.
  rewrite !emitted_app. cbn [args global out emitted].
  split; [reflexivity|]. split; [reflexivity|].
  match goal with
  | Hp : nth_error _ _ = Some ?p, Hf : FcPatternFormat ?p = Some ?f |- _ =>
      exists p, f
  end.
  eexists. split; [eassumption|]. split; [assumption|].
  split; [reflexivity|].
  rewrite !pick_app.
  destruct (debug (args m) =? 0); cbn; repeat split; reflexivity.
Qed.
Lemma skipn_nth_error {A} (l : list A) (k : nat) (p : A) :
  nth_error l k = Some p -> skipn k l = p :: skipn (S k) l.
Proof.
  revert l. induction k as [| k IH]; intros [| x l] H; simpl in *;
    try discriminate.
  - injection H as ->. reflexivity.
  - now apply IH.
Qed.

(** The loop draws the cells of the fonts [k], [k + 1], ... in this
    order. *)
Lemma grid_loop_draws (w : World) (fnfont : XftFont)
    (nw bw bh fh frh crh cw yoffset : Z) (n : nat) :
  forall (k : nat) (m m' : machine),
    grid_loop (grid_cell w fnfont nw bw bh fh frh crh cw yoffset) n
      (Z.of_nat k) m = Ok tt m' ->
    args m' = args m /\ global m' = global m
    /\ exists fams es,
         map FcPatternFormat (firstn n (skipn k (fs (global m))))
         = map Some fams
         /\ List.length fams = n
         /\ out m' = (out m ++ es)%list
         /\ pick rectangle_of es
            = map (fun i => cell_box nw bw bh yoffset (Z.of_nat i)) (seq k n)
         /\ pick text_of es = fams
         /\ pick glyph_of es
            = map (fun f => (f, crh, character (global m))) fams.
Proof.
  induction n as [| n IH]; intros k m m' H; simpl in H.
  - injection H as <-. split; [reflexivity|]. split; [reflexivity|].
    exists [], []. rewrite app_nil_r. repeat split; reflexivity.
  - apply bind_inv in H. destruct H as ([] & m1 & H1 & H).
    apply grid_cell_draws in H1.
    destruct H1 as (A1 & G1 & p & fam & es1 & Hp & Hf & O1 & R1 & T1 & Y1).
    replace (Z.of_nat k + 1) with (Z.of_nat (S k)) in H by lia.
    apply IH in H.
    destruct H as (A2 & G2 & fams & es2 & Hm & Hl & O2 & R2 & T2 & Y2).
    rewrite Nat2Z.id in Hp. rewrite G1 in *.
    split; [congruence|]. split; [congruence|].
    exists (fam :: fams), (es1 ++ es2)%list.
    rewrite (skipn_nth_error _ _ _ Hp). cbn [firstn map seq List.length].
    rewrite Hf, Hm, Hl, O2, O1, !pick_app, R1, R2, T1, T2, Y1, Y2.
    rewrite app_assoc. repeat split; reflexivity.
Qed.

(** [scale_loop] has no value exactly when a font of the set has no
    family name, wherever in the set it is. *)
Lemma scale_loop_unformatted (font : XftFont) (bw bh : Z)
    (l : list FcPattern) :
  forall scale : double,
    scale_loop font bw bh l scale = None <-> existsb unformatted l = true.
Proof.
  induction l as [| p l IH]; intros scale; simpl.
  - split; discriminate.
  - unfold unformatted at 1. destruct (FcPatternFormat p); simpl.
    + apply IH.
    + split; reflexivity.
Qed.

Lemma gen_scale_title_font_inv (w : World) (fam : string) (bw bh : Z)
    (m m' : machine) (f : option XftFont) :
  gen_scale_title_font w fam bw bh m = Ok f m' ->
  m' = m
  /\ (f = None \/ existsb unformatted (fs (global m)) = false).
Proof.
  unfold gen_scale_title_font, bind, get_global, ret.
  destruct (XftFontOpen w fam FC_SIZE INITFTSZ) as [font|].
  - destruct (scale_loop font bw bh (fs (global m)) (double_of_Z (-1)))
      as [s|] eqn:E; intros H; injection H as <- <-;
      (split; [reflexivity|]); [right | now left].
    destruct (existsb unformatted (fs (global m))) eqn:Eu; [|reflexivity].
    apply (scale_loop_unformatted font bw bh) with (scale := double_of_Z (-1))
      in Eu.
    congruence.
  - intros H. injection H as <- <-. split; [reflexivity | now left].
Qed.

(** [generate_grid] by the layout of the viewport. *)
Lemma generate_grid_cases (w : World) (vw vh yoffset : Z) (m : machine) :
  generate_grid w vw vh yoffset m
  = match grid_layout (grid_count (args m) (global m)) vw vh with
    | None => Undefined
    | Some l =>
        if too_small l
        then Ok (-1) (emitted (layout_debug_lines (args m) l) m)
        else draw_cells w l yoffset (grid_count (args m) (global m))
               (emitted (layout_debug_lines (args m) l) m)
    end.
Proof.
  unfold grid_layout, generate_grid, draw_cells, too_small, bind, get_args,
    get_global.
  repeat (rewrite ?defined_value, ?int_as_int;
          match goal with
          | |- context [option_bind ?o _] =>
              destruct o; cbn [option_bind]; [cbv beta iota | reflexivity]
          end).
  rewrite !DBG_lines. rewrite emitted_app.
  unfold layout_debug_lines.
  cbn [columns rows cell_width cell_height name_band glyph_band name_area
       glyph_area area_width args emitted].
  destruct (debug (args m) =? 0); cbn [app];
    match goal with
    | |- context [if ?b then _ else _] => destruct b
    end; reflexivity.
Qed.

Lemma layout_debug_lines_log (a : args_t) (l : layout) :
  forallb is_log (layout_debug_lines a l) = true.
Proof. unfold layout_debug_lines. now destruct (debug a =? 0). Qed.

(** What [generate_grid] has done when it returns: nothing but the
    lines of [--debug] when it returns -1, and the cells of the first [c]
    fonts when it returns 0, which it only does when every font of the set
    has a family name. *)
Lemma generate_grid_inv (w : World) (vw vh yoffset r : Z) (m m' : machine) :
  generate_grid w vw vh yoffset m = Ok r m' ->
  let c := grid_count (args m) (global m) in
  args m' = args m /\ global m' = global m
  /\ exists l es,
       grid_layout c vw vh = Some l
       /\ out m' = (out m ++ es)%list
       /\ ((r = -1 /\ forallb is_log es = true)
           \/ (r = 0
               /\ too_small l = false
               /\ existsb unformatted (fs (global m)) = false
               /\ exists fams,
                    map FcPatternFormat
                      (firstn (Z.to_nat c) (fs (global m))) = map Some fams
                    /\ List.length fams = Z.to_nat c
                    /\ pick rectangle_of es
                       = map (fun i =>
                                cell_box (columns l) (cell_width l)
                                  (cell_height l) yoffset (Z.of_nat i))
                           (seq 0 (Z.to_nat c))
                    /\ pick text_of es = fams
                    /\ pick glyph_of es
                       = map (fun f =>
                                (f, glyph_area l, character (global m)))
                           fams)).
Proof.
  intros H c. rewrite generate_grid_cases in H. fold c in H.
  destruct (grid_layout c vw vh) as [l|]; [|discriminate].
  pose proof (layout_debug_lines_log (args m) l) as Hlog.
  destruct (too_small l) eqn:Es.
  - injection H as <- <-. split; [reflexivity|]. split; [reflexivity|].
    exists l, (layout_debug_lines (args m) l).
    split; [reflexivity|]. split; [reflexivity|]. left. now split.
  - unfold draw_cells in H. apply bind_inv in H.
    destruct H as (f & m1 & H1 & H).
    apply gen_scale_title_font_inv in H1. destruct H1 as [-> Hf].
    destruct f as [fnfont|].
    + destruct Hf as [Hf | Hf]; [discriminate|]. cbn [global emitted] in Hf.
      apply bind_inv in H. destruct H as ([] & m2 & H2 & H).
      injection H as <- <-.
      apply (grid_loop_draws w fnfont _ _ _ _ _ _ _ _ _ 0%nat) in H2.
      destruct H2 as (A2 & G2 & fams & es & Hm & Hl & O2 & R2 & T2 & Y2).
      cbn [args global out emitted skipn] in *.
      split; [assumption|]. split; [assumption|].
      exists l, (layout_debug_lines (args m) l ++ es)%list.
      split; [reflexivity|]. split; [now rewrite app_assoc|]. right.
      split; [reflexivity|]. split; [exact Es|]. split; [assumption|].
      exists fams. rewrite !pick_app.
      rewrite !(pick_log _ _ (fun _ _ => eq_refl) Hlog). cbn [app].
      repeat split; assumption.
    + injection H as <- <-. split; [reflexivity|]. split; [reflexivity|].
      exists l, (layout_debug_lines (args m) l).
      split; [reflexivity|]. split; [reflexivity|]. left. now split.
Qed.
(** When [generate_grid] returns 0 it has drawn, for each of the first
    [c] fonts of the set and in the order of the set, the box of its cell
    (cell [i] in column [i % nw] of row [i / nw]), its family name, and the
    character in that family at the pixel size of the glyph area. *)
Theorem grid_shows_each_font (w : World) (vw vh yoffset : Z)
    (m m' : machine) :
  generate_grid w vw vh yoffset m = Ok 0 m' ->
  let c := grid_count (args m) (global m) in
  exists l fams es,
    grid_layout c vw vh = Some l
    /\ map FcPatternFormat (firstn (Z.to_nat c) (fs (global m)))
       = map Some fams
    /\ List.length fams = Z.to_nat c
    /\ out m' = (out m ++ es)%list
    /\ pick rectangle_of es
       = map (fun i => cell_box (columns l) (cell_width l) (cell_height l)
                         yoffset (Z.of_nat i))
           (seq 0 (Z.to_nat c))
    /\ pick text_of es = fams
    /\ pick glyph_of es
       = map (fun f => (f, glyph_area l, character (global m))) fams.
Proof.
  intros H c. apply generate_grid_inv in H.
  destruct H as (_ & _ & l & es & Hl & Ho & [[Hr _] | (_ & _ & _ & Hd)]);
    [discriminate|].
  destruct Hd as (fams & Hd). exists l, fams, es.
  split; [exact Hl|]. destruct Hd as (H1 & H2 & H3 & H4 & H5).
  repeat split; assumption.
Qed.

Lemma grid_shows_each_font_witness :
  exists m',
    generate_grid (sample_world [] 1 (iconv_ok 65) []) 800 600 36
      (sample_machine 2) = Ok 0 m'
    /\ exists l fams es,
         grid_layout 2 800 600 = Some l
         /\ map FcPatternFormat (firstn 2 five_fonts) = map Some fams
         /\ List.length fams = 2%nat
         /\ out m' = es
         /\ pick rectangle_of es
            = map (fun i => cell_box (columns l) (cell_width l)
                              (cell_height l) 36 (Z.of_nat i)) [0; 1]%nat
         /\ pick text_of es = fams
         /\ pick glyph_of es = map (fun f => (f, glyph_area l, 65)) fams.
Proof.
  eexists. split; [vm_compute; reflexivity|].
  apply (grid_shows_each_font (sample_world [] 1 (iconv_ok 65) []) 800 600 36
           (sample_machine 2)).
  vm_compute; reflexivity.
Defined.

(** [generate_grid] returns 0 or -1 and changes nothing of the state
    of the program; when it returns -1 it has drawn nothing: all it may
    have written are the lines of [--debug]. *)
Theorem failed_grid_draws_nothing (w : World) (vw vh yoffset r : Z)
    (m m' : machine) :
  generate_grid w vw vh yoffset m = Ok r m' ->
  args m' = args m /\ global m' = global m
  /\ (r = 0
      \/ (r = -1
          /\ exists es, out m' = (out m ++ es)%list
                        /\ forallb is_log es = true)).
Proof.
  intros H. apply generate_grid_inv in H.
  destruct H as (A & G & l & es & _ & Ho & [[Hr Hlog] | (Hr & _)]).
  - split; [exact A|]. split; [exact G|]. right. split; [exact Hr|].
    now exists es.
  - split; [exact A|]. split; [exact G|]. now left.
Qed.

Lemma failed_grid_draws_nothing_witness :
  exists m',
    generate_grid (sample_world [] 1 (iconv_ok 65) []) 100 64 36
      (sample_machine 0) = Ok (-1) m'
    /\ args m' = args (sample_machine 0)
    /\ global m' = global (sample_machine 0)
    /\ (-1 = 0
        \/ (-1 = -1
            /\ exists es, out m' = (out (sample_machine 0) ++ es)%list
                          /\ forallb is_log es = true)).
Proof.
  eexists. split; [vm_compute; reflexivity|].
  apply (failed_grid_draws_nothing (sample_world [] 1 (iconv_ok 65) [])
           100 64 36 (-1) (sample_machine 0)).
  vm_compute; reflexivity.
Defined.

(** One font without a family name anywhere in the font set, also
    beyond the first [--maxfonts] fonts, keeps [generate_grid] from drawing
    any cell: it returns -1. *)
Theorem unformatted_font_blocks_grid (w : World) (vw vh yoffset r : Z)
    (m m' : machine) :
  existsb unformatted (fs (global m)) = true ->
  generate_grid w vw vh yoffset m = Ok r m' ->
  r = -1
  /\ exists es, out m' = (out m ++ es)%list /\ forallb is_log es = true.
Proof.
  intros Hu H. apply generate_grid_inv in H.
  destruct H as (_ & _ & l & es & _ & Ho & [[Hr Hlog] | (_ & _ & Hf & _)]).
  - split; [exact Hr|]. now exists es.
  - congruence.
Qed.

Lemma unformatted_font_blocks_grid_witness :
  existsb unformatted
    (fs (global {| args := set_maxfonts 1 args0;
                   global := set_character 65
                               (set_fs [family "DejaVu Sans";
                                        {| FcPatternFormat := None |}]
                                  global0);
                   out := [] |})) = true
  /\ exists m',
       generate_grid (nameless_world [] 1) 800 600 36
         {| args := set_maxfonts 1 args0;
            global := set_character 65
                        (set_fs [family "DejaVu Sans";
                                 {| FcPatternFormat := None |}] global0);
            out := [] |} = Ok (-1) m'
       /\ -1 = -1
       /\ exists es, out m' = ([] ++ es)%list /\ forallb is_log es = true.
Proof.
  split; [reflexivity|].
  eexists. split; [vm_compute; reflexivity|].
  apply (unformatted_font_blocks_grid (nameless_world [] 1) 800 600 36 (-1)
           {| args := set_maxfonts 1 args0;
              global := set_character 65
                          (set_fs [family "DejaVu Sans";
                                   {| FcPatternFormat := None |}] global0);
              out := [] |});
    [reflexivity | vm_compute; reflexivity].
Defined.
(** ** The quit button *)

Lemma assign_global_inv (f : global_t -> global_t) (m m1 : machine)
    (u : unit) :
  assign_global f m = Ok u m1 ->
  m1 = {| args := args m; global := f (global m); out := out m |}.
Proof. intros H. injection H as _ <-. reflexivity. Qed.

Lemma title_text_inv (lead : string) (m m1 : machine) (s : string) :
  title_text lead m = Ok s m1 ->
  m1 = m
  /\ exists hex,
       cstring (hexchar (global m)) = Some hex
       /\ s = snprintf_text (16 + name_length (name (info (global m))))
                (whole_title lead hex (name (info (global m)))).
Proof.
  unfold title_text, bind, get_global.
  destruct (cstring (hexchar (global m))) as [hex|]; [|discriminate]. simpl.
  destruct (name (info (global m))); intros H; injection H as <- <-;
    (split; [reflexivity|]); exists hex; now split.
Qed.

(** What a paint leaves: the box of the quit button in [quitdims] and
    nothing else changed; the first box drawn is that box and the first
    text the label of the button. *)
Lemma paint_window_inv (w : World) (t : tick) (m m' : machine) (r : Z) :
  paint_window w t m = Ok r m' ->
  args m' = args m
  /\ exists q es hex,
       global m' = set_quitdims q (global m)
       /\ out m' = (out m ++ es)%list
       /\ hd_error (pick rectangle_of es) = Some q
       /\ hd_error (pick text_of es) = Some "Quit"%string
       /\ cstring (hexchar (global m)) = Some hex
       /\ nth_error (pick text_of es) 1
          = Some (snprintf_text (16 + name_length (name (info (global m))))
                    (whole_title "" hex (name (info (global m))))).
Proof.
  unfold paint_window. intros H.
  do 15 (apply bind_inv in H; destruct H as (? & ? & H1 & H);
         cbv beta zeta in H;
         first [ apply int_inv in H1; destruct H1 as [-> ->]
               | apply defined_inv in H1;
                 (let E := fresh "E" in destruct H1 as [E ->])
               | apply assign_global_inv in H1; subst
               | apply title_text_inv in H1;
                 destruct H1 as (-> & hex & Hhex & ->)
               | rewrite DBG_lines in H1; injection H1 as _ <-
               | rewrite DBG_P_lines in H1; injection H1 as _ <-
               | rewrite emit_emitted in H1; injection H1 as _ <- ]).
  apply bind_inv in H. destruct H as (r' & mg & Hg & H).
  apply bind_inv in H. destruct H as ([] & mf & Hf & H).
  injection H as <- <-. rewrite emit_emitted in Hf. injection Hf as <-.
  apply generate_grid_inv in Hg.
  destruct Hg as (Ag & Gg & _ & esg & _ & Og & _).
  cbn [args global out emitted] in *.
  split; [exact Ag|].
  eexists. eexists. exists hex. split; [exact Gg|].
  rewrite Og, <- !app_assoc. split; [reflexivity|].
  rewrite !pick_app.
  destruct (debug (args m) =? 0); repeat split; try reflexivity; exact Hhex.
Qed.

(** After a paint the area that [check_quit_bounds] tests is the box
    that this paint has drawn for the quit button: the first rectangle of
    the paint, with the label of the button as the first text. *)
Theorem quit_box_is_the_box_drawn (w : World) (t : tick) (m m' : machine)
    (r : Z) :
  paint_window w t m = Ok r m' ->
  exists es,
    out m' = (out m ++ es)%list
    /\ hd_error (pick rectangle_of es) = Some (quitdims (global m'))
    /\ hd_error (pick text_of es) = Some "Quit"%string.
Proof.
  intros H. apply paint_window_inv in H.
  destruct H as (_ & q & es & _ & G & O & R & T & _).
  exists es. rewrite G. cbn [quitdims set_quitdims]. now repeat split.
Qed.

Lemma quit_box_is_the_box_drawn_witness :
  exists m',
    paint_window (sample_world [] 1 (iconv_ok 65) []) (turn None 0 800 600)
      (sample_machine 2) = Ok 0 m'
    /\ quitdims (global m') = (5, 5, 42, 26)
    /\ exists es,
         out m' = (out (sample_machine 2) ++ es)%list
         /\ hd_error (pick rectangle_of es) = Some (quitdims (global m'))
         /\ hd_error (pick text_of es) = Some "Quit"%string.
Proof.
  eexists. split; [vm_compute; reflexivity|]. split; [reflexivity|].
  apply (quit_box_is_the_box_drawn (sample_world [] 1 (iconv_ok 65) [])
           (turn None 0 800 600) (sample_machine 2) _ 0).
  vm_compute; reflexivity.
Defined.

(** ** Turns of the event loop without a paint *)

Lemma check_quit_bounds_inv (x y b : Z) (m m1 : machine) :
  check_quit_bounds x y m = Ok b m1 -> m1 = m.
Proof.
  unfold check_quit_bounds, bind, get_global.
  destruct (quitdims (global m)) as [[[q0 q1] q2] q3].
  unfold int. destruct (int_range (x - q0)); [|discriminate].
  unfold ret at 1.
  destruct ((x - q0 <? 0) || (q2 <? x - q0)).
  - intros H. now injection H as _ <-.
  - destruct (int_range (y - q1)); [|discriminate]. unfold ret at 1.
    destruct ((y - q1 <? 0) || (q3 <? y - q1));
      intros H; now injection H as _ <-.
Qed.

(** Once the window is painted ([dirty] is 0) nothing is drawn and
    nothing of the state changes for as long as no expose event comes:
    the time outs and the buttons draw nothing. *)
Theorem no_paint_without_expose (w : World) (ts : list tick) :
  forallb (fun t => negb (is_expose t)) ts = true ->
  forall (q : Z) (m m' : machine) (left : bool),
    dirty (global m) = 0 ->
    event_loop w ts q m = Ok left m' ->
    args m' = args m /\ global m' = global m
    /\ exists es, out m' = (out m ++ es)%list /\ forallb is_log es = true.
Proof.
  induction ts as [| t ts IH]; intros Hts q m m' left Hd H; simpl in H.
  - injection H as _ <-. split; [reflexivity|]. split; [reflexivity|].
    exists []. now rewrite app_nil_r.
  - simpl in Hts. apply andb_true_iff in Hts. destruct Hts as [Ht Hts].
    unfold is_expose in Ht.
    destruct (next_event t) as [[| x y | x y | type]|]; try discriminate.
    + apply bind_inv in H. destruct H as (b & m1 & H1 & H).
      apply check_quit_bounds_inv in H1. subst m1.
      now apply (IH Hts) in H.
    + apply bind_inv in H. destruct H as (b & m1 & H1 & H).
      apply check_quit_bounds_inv in H1. subst m1.
      destruct (negb (b =? 0)).
      * injection H as _ <-. split; [reflexivity|]. split; [reflexivity|].
        exists []. now rewrite app_nil_r.
      * now apply (IH Hts) in H.
    + apply bind_inv in H. destruct H as ([] & m1 & H1 & H).
      rewrite emit_emitted in H1. injection H1 as <-. injection H as _ <-.
      split; [reflexivity|]. split; [reflexivity|].
      eexists. split; reflexivity.
    + apply bind_inv in H. destruct H as ([] & m1 & H1 & H).
      rewrite DBG_lines in H1. injection H1 as <-.
      apply bind_inv in H. destruct H as ([] & m2 & H2 & H).
      unfold maybe_paint_window in H2.
      apply bind_inv in H2. destruct H2 as (g & m3 & H3 & H2).
      injection H3 as <- <-.
      apply bind_inv in H2. destruct H2 as ([] & m4 & H4 & H2).
      rewrite DBG_lines in H4. injection H4 as <-.
      cbn [global emitted] in H2. rewrite Hd in H2.
      rewrite andb_false_r in H2. injection H2 as <-.
      apply (IH Hts) in H; [|exact Hd].
      destruct H as (A & G & es & O & L).
      cbn [args global out emitted] in *.
      split; [exact A|]. split; [exact G|].
      eexists. rewrite O, <- !app_assoc. split; [reflexivity|].
      rewrite !forallb_app, L.
      destruct (debug (args m) =? 0); reflexivity.
Qed.

Lemma no_paint_without_expose_witness :
  (forallb (fun t => negb (is_expose t))
     [turn None 0 800 600; turn (Some (ButtonPress 6 6)) 150 800 600;
      turn None 200 800 600] = true
   /\ dirty (global {| args := set_debug 1 args0; global := global0;
                       out := [] |}) = 0)
  /\ exists m',
       event_loop (sample_world [] 1 (iconv_ok 65) [])
         [turn None 0 800 600; turn (Some (ButtonPress 6 6)) 150 800 600;
          turn None 200 800 600] 0
         {| args := set_debug 1 args0; global := global0; out := [] |}
       = Ok false m'
       /\ args m' = set_debug 1 args0 /\ global m' = global0
       /\ exists es, out m' = ([] ++ es)%list /\ forallb is_log es = true.
Proof.
  split; [split; reflexivity|].
  eexists. split; [vm_compute; reflexivity|].
  apply (no_paint_without_expose (sample_world [] 1 (iconv_ok 65) [])
           [turn None 0 800 600; turn (Some (ButtonPress 6 6)) 150 800 600;
            turn None 200 800 600] eq_refl 0
           {| args := set_debug 1 args0; global := global0; out := [] |}
           _ false eq_refl).
  vm_compute; reflexivity.
Defined.

(** ** The title of the window *)

Lemma length_string_of_list (l : list ascii) :
  String.length (string_of_list_ascii l) = List.length l.
Proof. induction l as [| c l IH]; simpl; [reflexivity | now rewrite IH]. Qed.

Lemma snprintf_text_length (k : nat) (s : string) :
  String.length (snprintf_text k s) = Nat.min (k - 1) (String.length s).
Proof.
  unfold snprintf_text.
  now rewrite length_string_of_list, length_firstn, length_list_ascii.
Qed.

Lemma prefix_firstn (s : string) :
  forall k : nat,
    String.prefix (string_of_list_ascii (firstn k (list_ascii_of_string s))) s
    = true.
Proof.
  induction s as [| c s IH]; intros [| k]; try reflexivity.
  cbn [list_ascii_of_string firstn string_of_list_ascii String.prefix].
  destruct (ascii_dec c c) as [_ | N]; [apply IH | now elim N].
Qed.

Lemma snprintf_text_whole (k : nat) (s : string) :
  snprintf_text k s = s <-> (String.length s <= k - 1)%nat.
Proof.
  split.
  - intros H. pose proof (snprintf_text_length k s) as L.
    rewrite H in L. lia.
  - intros H. unfold snprintf_text.
    rewrite firstn_all2 by (rewrite length_list_ascii; lia).
    apply string_of_list_ascii_of_string.
Qed.

Lemma length_whole_title (lead hex : string) (n : option string) :
  String.length (whole_title lead hex n)
  = (String.length lead + String.length hex
     + match n with Some _ => 1 | None => 0 end + name_length n)%nat.
Proof.
  destruct n as [n|]; unfold whole_title, name_length;
    rewrite !length_string_app; simpl; lia.
Qed.

(** The title that [initialize_x11] hands to the window manager is cut
    to the block it is printed into, which leaves room for 15 characters
    and the name: it is a prefix of the title in full, and it is the title
    in full exactly when the display form has at most 6 characters, or at
    most 7 when the character has no name.  So the name of a character
    above [U+FFFF] loses its end. *)
Theorem window_title_complete_iff (w : World) (m m' : machine) (hex : string) :
  initialize_x11 w m = Ok 0 m' ->
  cstring (hexchar (global m)) = Some hex ->
  let n := name (info (global m)) in
  exists t es,
    out m' = (out m ++ es)%list
    /\ pick wm_name_of es = [t]
    /\ String.prefix t (whole_title "fc-char " hex n) = true
    /\ (t = whole_title "fc-char " hex n
        <-> (String.length hex
             <= match n with Some _ => 6 | None => 7 end)%nat).
Proof.
  intros H Hhex n. unfold initialize_x11 in H.
  destruct (XOpenDisplay w); [|discriminate]. cbn [negb] in H.
  destruct (XAllocColor_white w); cbn [negb] in H;
    [|apply bind_inv in H; destruct H as (? & ? & _ & H); discriminate].
  destruct (XAllocColor_black w); cbn [negb] in H;
    [|apply bind_inv in H; destruct H as (? & ? & _ & H); discriminate].
  apply bind_inv in H. destruct H as (t & m1 & H1 & H).
  apply title_text_inv in H1. destruct H1 as (-> & hex' & Hhex' & ->).
  rewrite Hhex in Hhex'. injection Hhex' as <-. fold n in H |- *.
  do 4 (apply bind_inv in H; destruct H as (? & ? & H1 & H);
        first [ rewrite DBG_lines in H1; injection H1 as _ <-
              | rewrite emit_emitted in H1; injection H1 as _ <- ]).
  injection H as <-. rewrite !emitted_app.
  eexists. eexists. split; [reflexivity|].
  cbn [args emitted]. rewrite !pick_app.
  split; [destruct (debug (args m) =? 0); reflexivity|].
  split; [apply prefix_firstn|].
  rewrite snprintf_text_whole, length_whole_title.
  destruct n; simpl; lia.
Qed.

Lemma window_title_complete_iff_witness :
  cstring (hexchar (global named_machine)) = Some "U+0001f600"%string
  /\ exists m',
       initialize_x11 (sample_world [] 1 (iconv_ok 65) []) named_machine
       = Ok 0 m'
       /\ pick wm_name_of (out m') = ["fc-char U+0001f600 GRINNING "%string]
       /\ exists t es,
            out m' = (out named_machine ++ es)%list
            /\ pick wm_name_of es = [t]
            /\ String.prefix t
                 (whole_title "fc-char " "U+0001f600"
                    (name (info (global named_machine)))) = true
            /\ (t = whole_title "fc-char " "U+0001f600"
                      (name (info (global named_machine)))
                <-> (String.length "U+0001f600"
                     <= match name (info (global named_machine)) with
                        | Some _ => 6
                        | None => 7
                        end)%nat).
Proof.
  split; [reflexivity|].
  eexists. split; [vm_compute; reflexivity|]. split; [reflexivity|].
  apply (window_title_complete_iff (sample_world [] 1 (iconv_ok 65) [])
           named_machine _ "U+0001f600");
    [vm_compute; reflexivity | reflexivity].
Defined.

Lemma cstring_length (b : buffer) :
  forall s : string,
    cstring b = Some s -> (String.length s < List.length b)%nat.
Proof.
  induction b as [| c b IH]; intros s H; simpl in H; [discriminate|].
  destruct (c =? NUL)%char.
  - injection H as <-. simpl. lia.
  - destruct (cstring b) as [s'|]; [|discriminate].
    injection H as <-. simpl. specialize (IH s' eq_refl). lia.
Qed.

(** The title drawn beside the quit button is never cut: the block it
    is printed into has room for the 10 characters that the 11 bytes of
    [hexchar] can hold, and for the name. *)
Theorem drawn_title_is_complete (w : World) (t : tick) (m m' : machine)
    (r : Z) :
  paint_window w t m = Ok r m' ->
  List.length (hexchar (global m)) = 11%nat ->
  exists hex es,
    cstring (hexchar (global m)) = Some hex
    /\ out m' = (out m ++ es)%list
    /\ nth_error (pick text_of es) 1
       = Some (whole_title "" hex (name (info (global m)))).
Proof.
  intros H Hl. apply paint_window_inv in H.
  destruct H as (_ & q & es & hex & _ & O & _ & _ & Hhex & T).
  exists hex, es. split; [exact Hhex|]. split; [exact O|].
  rewrite T. f_equal. apply snprintf_text_whole.
  rewrite length_whole_title. apply cstring_length in Hhex.
  rewrite Hl in Hhex.
  destruct (name (info (global m))); cbn [String.length name_length]; lia.
Qed.

Lemma drawn_title_is_complete_witness :
  List.length (hexchar (global named_machine)) = 11%nat
  /\ exists m',
       paint_window (sample_world [] 1 (iconv_ok 65) [])
         (turn None 0 800 600) named_machine = Ok 0 m'
       /\ nth_error (pick text_of (out m')) 1
          = Some "U+0001f600 GRINNING FACE"%string
       /\ exists hex es,
            cstring (hexchar (global named_machine)) = Some hex
            /\ out m' = (out named_machine ++ es)%list
            /\ nth_error (pick text_of es) 1
               = Some (whole_title "" hex
                         (name (info (global named_machine)))).
Proof.
  split; [reflexivity|].
  eexists. split; [vm_compute; reflexivity|]. split; [reflexivity|].
  apply (drawn_title_is_complete (sample_world [] 1 (iconv_ok 65) [])
           (turn None 0 800 600) named_machine _ 0);
    [vm_compute; reflexivity | reflexivity].
Defined.

(** ** The name of the character *)

(** The entry of the table of names that [generate_fontset] reads is
    the one of the code point reduced modulo [0x200000]: the three indices
    are the bits 16 to 20, 8 to 15 and 0 to 7 of the character, so that
    the name and the annotation shown for a code point of [0x200000] or
    more are those of another character. *)
Theorem name_lookup_index (w : World) (m m' : machine) (r : Z) :
  generate_fontset w m = Ok r m' ->
  exists plane row col,
    info (global m') = UnicodeNameAnnot w plane row col
    /\ 0 <= plane < 32 /\ 0 <= row < 256 /\ 0 <= col < 256
    /\ plane * 65536 + row * 256 + col = character (global m) mod 2097152.
Proof.
  rewrite generate_fontset_query. intros H. injection H as _ <-.
  cbn [global info set_fs set_info].
  set (c := character (global m)).
  change 31 with (Z.ones 5). change 255 with (Z.ones 8).
  rewrite !Z.land_ones, !Z.shiftr_div_pow2 by lia.
  change (2 ^ 16) with 65536. change (2 ^ 8) with 256.
  change (2 ^ 5) with 32.
  exists ((c / 65536) mod 32), ((c / 256) mod 256), (c mod 256).
  split; [reflexivity|].
  split; [apply Z.mod_pos_bound; lia|].
  split; [apply Z.mod_pos_bound; lia|].
  split; [apply Z.mod_pos_bound; lia|].
  Z.to_euclidean_division_equations. lia.
Qed.

Lemma name_lookup_index_witness :
  exists m',
    generate_fontset (sample_world [] 1 (iconv_ok 65) [])
      {| args := args0; global := set_character 2097217 global0; out := [] |}
    = Ok 0 m'
    /\ exists plane row col,
         info (global m')
         = UnicodeNameAnnot (sample_world [] 1 (iconv_ok 65) []) plane row col
         /\ 0 <= plane < 32 /\ 0 <= row < 256 /\ 0 <= col < 256
         /\ plane * 65536 + row * 256 + col = 2097217 mod 2097152.
Proof.
  eexists. split; [vm_compute; reflexivity|].
  apply (name_lookup_index (sample_world [] 1 (iconv_ok 65) [])
           {| args := args0; global := set_character 2097217 global0;
              out := [] |} _ 0).
  vm_compute; reflexivity.
Defined.

(** ** A conversion that cannot start *)

(** When [iconv_open] fails, [convert_char] writes its message and
    returns -1, and [parse_character], which looks for the value 0 only,
    returns 0 as for a character it has resolved: the character and its
    display form stay what they were. *)
Theorem iconv_open_failure_is_not_reported (w : World) (cchar e : string)
    (m : machine) :
  is_hex_token cchar = false ->
  iconv_open w = Some e ->
  parse_character w cchar m
  = Ok 0 (emitted [Stderr ("Error initializing iconv: " ++ e ++ nl)] m).
Proof.
  intros Hh Ho. rewrite (parse_character_literal w cchar m Hh).
  unfold convert_char. rewrite Ho. reflexivity.
Qed.

Lemma iconv_open_failure_is_not_reported_witness :
  (is_hex_token "A" = false
   /\ iconv_open (without_iconv "Invalid argument"
                    (sample_world [] 1 (iconv_ok 65) []))
      = Some "Invalid argument"%string)
  /\ parse_character
       (without_iconv "Invalid argument" (sample_world [] 1 (iconv_ok 65) []))
       "A" machine0
     = Ok 0 (emitted [Stderr ("Error initializing iconv: "
                              ++ "Invalid argument" ++ nl)] machine0).
Proof.
  split; [split; reflexivity|].
  apply (iconv_open_failure_is_not_reported
           (without_iconv "Invalid argument"
              (sample_world [] 1 (iconv_ok 65) []))
           "A" "Invalid argument" machine0); reflexivity.
Defined.

(** ** The end of the options *)

Lemma flag_is_not_help (r : getopt_ret) :
  is_flag r = true -> (opt_c r =? code "h") = false.
Proof.
  intros H. destruct (Z.eqb_spec (opt_c r) (code "h")) as [E |]; [|reflexivity].
  unfold is_flag in H. rewrite E in H. discriminate.
Qed.

(** An option that [parse_arguments] has no case for ends the parsing
    like the end of the options does. *)
Lemma parse_loop_unknown (w : World) (argc : Z) (argv0 : string)
    (r : getopt_ret) (rest : list getopt_ret) (m : machine) :
  is_flag r = false -> (opt_c r =? code "h") = false ->
  parse_loop w argc argv0 (r :: rest) m = switch_default argc (optind r) m.
Proof.
  unfold is_flag. cbn [existsb parse_loop]. intros H Hh. rewrite Hh.
  rewrite !orb_false_iff in H.
  destruct H as (H1 & H2 & H3 & H4 & H5 & H6 & H7 & _).
  cbv zeta. now rewrite H1, H2, H3, H4, H5, H6, H7.
Qed.

Lemma parse_loop_cut (w : World) (argc : Z) (argv0 : string)
    (r : getopt_ret) (rest flags : list getopt_ret) :
  forallb is_flag flags = true ->
  is_flag r = false -> (opt_c r =? code "h") = false ->
  forall (w' : World) (m : machine),
    optind_end w' = optind r ->
    parse_loop w argc argv0 (flags ++ r :: rest) m
    = parse_loop w' argc argv0 flags m.
Proof.
  intros Hf Hr Hh w'. induction flags as [| f flags IH]; intros m Hw.
  - cbn [app parse_loop]. rewrite Hw. now apply parse_loop_unknown.
  - cbn [forallb] in Hf. apply andb_true_iff in Hf. destruct Hf as [Hf Hfs].
    specialize (IH Hfs). cbn [app parse_loop].
    rewrite (flag_is_not_help f Hf).
    unfold is_flag in Hf. cbn [existsb] in Hf.
    repeat match goal with
           | |- (if ?b then _ else _) _ = _ =>
               destruct b eqn:?; [unfold bind; cbn; now apply IH|]
           end.
    repeat match goal with
           | E : (_ =? _) = false |- _ => rewrite E in Hf; clear E
           end.
    discriminate.
Qed.

(** The options that follow an option that [parse_arguments] has no
    case for (one that [getopt_long] does not know, or [-c]) are never
    looked at: the flags are those of the options before it, and the
    argument after it is taken for the character. *)
Theorem options_after_unknown_are_ignored (w : World) (argv : list string)
    (flags rest : list getopt_ret) (r : getopt_ret) (m : machine) :
  getopt_long w = (flags ++ r :: rest)%list ->
  forallb is_flag flags = true ->
  is_flag r = false ->
  (opt_c r =? code "h") = false ->
  parse_arguments w argv m
  = parse_arguments (with_options flags (optind r) w) argv m.
Proof.
  intros Hg Hf Hr Hh. unfold parse_arguments. rewrite Hg.
  cbn [getopt_long with_options]. now apply parse_loop_cut.
Qed.

Lemma options_after_unknown_are_ignored_witness :
  (getopt_long (sample_world [opt "d" "" 2; opt "?" "" 3; opt "N" "" 4] 4
                  (iconv_ok 65) [])
   = ([opt "d" "" 2] ++ opt "?" "" 3 :: [opt "N" "" 4])%list
   /\ forallb is_flag [opt "d" "" 2] = true
   /\ is_flag (opt "?" "" 3) = false
   /\ (opt_c (opt "?" "" 3) =? code "h") = false)
  /\ parse_arguments
       (sample_world [opt "d" "" 2; opt "?" "" 3; opt "N" "" 4] 4
          (iconv_ok 65) [])
       ["fc-char"; "-d"; "-x"; "-N"; "0x41"]%string machine0
     = Ok 3 {| args := set_debug 1 args0; global := global0; out := [] |}.
Proof.
  split; [repeat split|].
  rewrite (options_after_unknown_are_ignored
             (sample_world [opt "d" "" 2; opt "?" "" 3; opt "N" "" 4] 4
                (iconv_ok 65) [])
             ["fc-char"; "-d"; "-x"; "-N"; "0x41"]%string
             [opt "d" "" 2] [opt "N" "" 4] (opt "?" "" 3) machine0
             eq_refl eq_refl eq_refl eq_refl).
  reflexivity.
Defined.
(** ** The argument that holds the character *)

Lemma switch_default_inv (argc oi i : Z) (m m' : machine) :
  switch_default argc oi m = Ok i m' ->
  m' = m /\ (i = -1 \/ i < argc).
Proof.
  unfold switch_default. destruct (Z.ltb_spec oi argc) as [Hlt | Hge];
    intros H; injection H as <- <-; (split; [reflexivity|]);
    [now right | now left].
Qed.

Lemma parse_loop_index (w : World) (argc : Z) (argv0 : string)
    (rs : list getopt_ret) :
  forall (m m' : machine) (i : Z),
    parse_loop w argc argv0 rs m = Ok i m' -> i = -1 \/ i < argc.
Proof.
  induction rs as [| r rs IH]; intros m m' i H; simpl in H.
  - now apply switch_default_inv in H.
  - destruct (opt_c r =? code "h").
    { apply bind_inv in H. destruct H as (? & ? & _ & H).
      injection H as <- _. now left. }
    repeat match type of H with
           | (if ?b then _ else _) _ = _ =>
               destruct b;
               [repeat (apply bind_inv in H; destruct H as (? & ? & _ & H));
                now apply IH in H |]
           end.
    now apply switch_default_inv in H.
Qed.

(** The index that [parse_arguments] returns is negative or the index
    of an argument: [main] never reads [argv] out of its bounds. *)
Theorem character_index_is_in_argv (w : World) (argv : list string)
    (m m' : machine) (i : Z) :
  parse_arguments w argv m = Ok i m' ->
  i < 0 \/ exists cchar, nth_error argv (Z.to_nat i) = Some cchar.
Proof.
  intros H. apply parse_loop_index in H.
  destruct (Z.ltb_spec i 0) as [Hi | Hi]; [now left | right].
  destruct H as [H | H]; [lia|].
  destruct (nth_error argv (Z.to_nat i)) as [c|] eqn:E; [now exists c|].
  apply nth_error_None in E. lia.
Qed.

Lemma character_index_is_in_argv_witness :
  parse_arguments (sample_world [opt "N" "" 2; opt "?" "" 3] 3 (iconv_ok 65) [])
    ["fc-char"; "-N"; "-x"]%string machine0
  = Ok (-1) {| args := set_display 0 args0; global := global0; out := [] |}
  /\ (-1 < 0
      \/ exists cchar,
           nth_error ["fc-char"; "-N"; "-x"]%string (Z.to_nat (-1))
           = Some cchar).
Proof.
  split; [reflexivity|].
  apply (character_index_is_in_argv
           (sample_world [opt "N" "" 2; opt "?" "" 3] 3 (iconv_ok 65) [])
           ["fc-char"; "-N"; "-x"]%string machine0
           {| args := set_display 0 args0; global := global0; out := [] |}).
  reflexivity.
Defined.

(** ** A run without the window *)




(** ** The cells do not overlap *)

(** The relations between the numbers of a layout, and the sign of the
    count of columns. *)
Lemma grid_layout_bands (c vw vh : Z) (l : layout) :
  grid_layout c vw vh = Some l ->
  0 < columns l
  /\ glyph_band l = cell_height l - name_band l
  /\ name_area l = name_band l - 2 * VPADDING
  /\ glyph_area l = glyph_band l - 2 * VPADDING
  /\ area_width l = cell_width l - 2 * HPADDING.
Proof.
  intros H. unfold grid_layout in H.
  destruct (int_of_double (round (sqrt _))) as [nw|] eqn:E1;
    cbn [option_bind] in H; [|discriminate].
  destruct (int_of_double (round (ddiv (double_of_Z c) _))) as [nh|] eqn:E2;
    cbn [option_bind] in H; [|discriminate].
  destruct (int_of_double (floor (ddiv (double_of_Z vw) _))) as [bw|] eqn:E3;
    cbn [option_bind] in H; [|discriminate].
  assert (Nw : nw <> 0).
  { intros E. rewrite E, floor_div_zero in E3. discriminate. }
  assert (Pw : 0 <= nw).
  { destruct (sqrt_sgn (ddiv (dmul (double_of_Z c) (double_of_Z vw))
                          (double_of_Z vh))) as [S | [S | S]].
    - rewrite S in E1. discriminate.
    - rewrite S in E1. injection E1 as E1. lia.
    - apply (int_round_nonneg _ nw) in E1; [exact E1|].
      rewrite S. discriminate. }
  repeat match type of H with
         | option_bind ?o _ = Some _ =>
             let E := fresh "E" in
             destruct o eqn:E; cbn [option_bind] in H; [|discriminate]
         end.
  injection H as H. subst l.
  cbn [columns rows cell_width cell_height name_band glyph_band name_area
       glyph_area area_width].
  unfold as_int in *.
  repeat match goal with
         | E : (if int_range ?x then _ else _) = Some _ |- _ =>
             destruct (int_range x); [|discriminate]; injection E as E
         end.
  subst. repeat split; lia.
Qed.

Lemma nth_error_map_seq {A} (f : nat -> A) (n i : nat) (a : A) :
  nth_error (map f (seq 0 n)) i = Some a -> (i < n)%nat /\ a = f i.
Proof.
  intros H. assert (Hi : (i < n)%nat).
  { assert (Hlen : List.length (map f (seq 0 n)) = n)
      by now rewrite length_map, length_seq.
    rewrite <- Hlen. apply nth_error_Some. congruence. }
  split; [exact Hi|].
  rewrite nth_error_map in H.
  rewrite (nth_error_nth' _ 0%nat) in H by (now rewrite length_seq).
  rewrite seq_nth in H by exact Hi. simpl in H. now injection H as <-.
Qed.

Lemma cell_boxes_apart (nw bw bh yoffset : Z) (i j : nat) :
  0 < nw -> 0 < bw -> 0 < bh -> (i < j)%nat ->
  let '(x1, y1, w1, h1) := cell_box nw bw bh yoffset (Z.of_nat i) in
  let '(x2, y2, w2, h2) := cell_box nw bw bh yoffset (Z.of_nat j) in
  x1 + w1 <= x2 \/ x2 + w2 <= x1 \/ y1 + h1 <= y2 \/ y2 + h2 <= y1.
Proof.
  intros Hn Hw Hh Hij. unfold cell_box.
  pose proof (Z.quot_rem' (Z.of_nat i) nw) as Ei.
  pose proof (Z.quot_rem' (Z.of_nat j) nw) as Ej.
  pose proof (Z.rem_bound_pos (Z.of_nat i) nw ltac:(lia) Hn) as Bi.
  pose proof (Z.rem_bound_pos (Z.of_nat j) nw ltac:(lia) Hn) as Bj.
  set (qi := Z.of_nat i ÷ nw) in *. set (ri := Z.rem (Z.of_nat i) nw) in *.
  set (qj := Z.of_nat j ÷ nw) in *. set (rj := Z.rem (Z.of_nat j) nw) in *.
  destruct (Z.lt_trichotomy qi qj) as [L | [E | L]].
  - right; right; left.
    assert (qi * bh + bh <= qj * bh) by nia. lia.
  - left. rewrite E in Ei.
    assert (ri * bw + bw <= rj * bw) by nia. lia.
  - right; right; right.
    assert (qj * bh + bh <= qi * bh) by nia. lia.
Qed.

(** The cells that [generate_grid] draws do not overlap: two boxes of
    the grid lie side by side or one below the other, with at most an
    edge in common. *)
Theorem cells_do_not_overlap (w : World) (vw vh yoffset : Z)
    (m m' : machine) :
  generate_grid w vw vh yoffset m = Ok 0 m' ->
  exists es,
    out m' = (out m ++ es)%list
    /\ forall (i j : nat) (x1 y1 w1 h1 x2 y2 w2 h2 : Z),
         (i < j)%nat ->
         nth_error (pick rectangle_of es) i = Some (x1, y1, w1, h1) ->
         nth_error (pick rectangle_of es) j = Some (x2, y2, w2, h2) ->
         x1 + w1 <= x2 \/ x2 + w2 <= x1 \/ y1 + h1 <= y2 \/ y2 + h2 <= y1.
Proof.
  intros H. apply generate_grid_inv in H.
  destruct H as (_ & _ & l & es & Hl & Ho & [[Hr _] | (_ & Hs & _ & Hd)]);
    [discriminate|].
  destruct Hd as (fams & _ & _ & R & _).
  exists es. split; [exact Ho|].
  intros i j x1 y1 w1 h1 x2 y2 w2 h2 Hij H1 H2.
  apply grid_layout_bands in Hl.
  destruct Hl as (Pw & Hg & Hn & Ha & Hc).
  unfold too_small in Hs. rewrite !orb_false_iff in Hs.
  destruct Hs as [[S1 S2] S3]. apply Z.leb_gt in S1, S2, S3.
  unfold VPADDING, HPADDING in *.
  rewrite R in H1, H2.
  apply nth_error_map_seq in H1, H2. destruct H1 as [_ H1], H2 as [_ H2].
  pose proof (cell_boxes_apart (columns l) (cell_width l) (cell_height l)
                yoffset i j Pw ltac:(lia) ltac:(lia) Hij) as Hb.
  rewrite <- H1, <- H2 in Hb. exact Hb.
Qed.

Lemma cells_do_not_overlap_witness :
  exists m',
    generate_grid (sample_world [] 1 (iconv_ok 65) []) 800 600 36
      (sample_machine 0) = Ok 0 m'
    /\ pick rectangle_of (out m')
       = [(0, 36, 266, 300); (266, 36, 266, 300); (532, 36, 266, 300);
          (0, 336, 266, 300); (266, 336, 266, 300)]
    /\ exists es,
         out m' = (out (sample_machine 0) ++ es)%list
         /\ forall (i j : nat) (x1 y1 w1 h1 x2 y2 w2 h2 : Z),
              (i < j)%nat ->
              nth_error (pick rectangle_of es) i = Some (x1, y1, w1, h1) ->
              nth_error (pick rectangle_of es) j = Some (x2, y2, w2, h2) ->
              x1 + w1 <= x2 \/ x2 + w2 <= x1
              \/ y1 + h1 <= y2 \/ y2 + h2 <= y1.
Proof.
  eexists. split; [vm_compute; reflexivity|]. split; [reflexivity|].
  apply (cells_do_not_overlap (sample_world [] 1 (iconv_ok 65) []) 800 600 36
           (sample_machine 0)).
  vm_compute; reflexivity.
Defined.

(** ** The size of [hexchar] *)

Lemma length_strncpy (s : string) (n : nat) :
  List.length (strncpy s n) = n.
Proof.
  unfold strncpy. rewrite length_app, repeat_length, length_firstn. lia.
Qed.

Lemma length_snprintf (b : buffer) (size : nat) (s : string) :
  (0 < size <= List.length b)%nat ->
  List.length (snprintf b size s) = List.length b.
Proof.
  intros H. unfold snprintf, overwrite.
  rewrite !length_app, length_skipn, length_firstn. simpl. lia.
Qed.

Lemma parse_character_hexchar_size (w : World) (cchar : string)
    (m m' : machine) (r : Z) :
  parse_character w cchar m = Ok r m' ->
  List.length (hexchar (global m)) = 11%nat ->
  List.length (hexchar (global m')) = 11%nat.
Proof.
  intros H Hl. destruct (is_hex_token cchar) eqn:E.
  - rewrite (parse_character_hex w cchar m E) in H. injection H as _ <-.
    cbn [global hexchar set_character set_hexchar].
    pose proof (length_strncpy cchar 11) as L.
    destruct (strncpy cchar 11) as [| a [| b l]]; simpl in *; lia.
  - rewrite (parse_character_literal w cchar m E) in H.
    destruct (iconv_open w) as [e|] eqn:Eo.
    + unfold convert_char in H. rewrite Eo in H. injection H as _ <-.
      exact Hl.
    + unfold bind at 1 in H. rewrite (convert_char_opened w cchar 11 m Eo) in H.
      cbv zeta in H.
      destruct (read_uint32 (iconv_outbuf (iconv w cchar)) =? 0);
        injection H as _ <-;
        cbn [global hexchar set_character set_hexchar];
        rewrite length_snprintf; lia.
Qed.

(** Through a whole run [hexchar] keeps the 11 bytes of its
    declaration: no write of [parse_character] or [convert_char] goes
    beyond the array. *)
Theorem hexchar_keeps_its_size (w : World) (argv : list string)
    (r : option Z) (m : machine) :
  run w argv = Ok r m ->
  List.length (hexchar (global m)) = 11%nat.
Proof.
  intros H. destruct (run_stages w argv r m H) as [i [m1 [Ep Hs]]].
  destruct (parse_loop_frame _ _ _ _ _ _ _ Ep) as [G1 _].
  destruct Hs as [[_ [_ ->]] | [_ [cchar [r2 [m2 [m3 [_ [Ec [Eg Ef]]]]]]]]].
  - cbn [global emitted]. rewrite G1. reflexivity.
  - apply parse_character_hexchar_size in Ec; [|rewrite G1; reflexivity].
    rewrite generate_fontset_query in Eg. injection Eg as <-.
    destruct (display_only_finish w _ _ _ Ef) as (_ & _ & _ & Hh & _).
    rewrite Hh. exact Ec.
Qed.

Lemma hexchar_keeps_its_size_witness :
  exists m,
    run (sample_world [opt "N" "" 2] 2 (iconv_ok 128512) [])
      ["fc-char"; "-N"; "x"]%string = Ok (Some 0) m
    /\ cstring (hexchar (global m)) = Some "U+0001f600"%string
    /\ List.length (hexchar (global m)) = 11%nat.
Proof.
  eexists. split; [vm_compute; reflexivity|]. split; [reflexivity|].
  apply (hexchar_keeps_its_size
           (sample_world [opt "N" "" 2] 2 (iconv_ok 128512) [])
           ["fc-char"; "-N"; "x"]%string (Some 0)).
  vm_compute; reflexivity.
Defined.
